(** * FireFlyJar: scheduler, firefly animation and multiplexed LED driver

  A shallow embedding of [system.c], [leds.c] and [fireflies.c], followed
  by the properties of the specification that were checked against it.

  Conventions of the embedding.
  - C integers are values of [Z]; every arithmetic operation of the source
    is followed by the reduction to the width of its C type ([wrap_u32],
    [wrap_s32], [wrap_s16]).  Signed overflow is undefined in C; the model
    gives it the two's complement result, and the theorems that depend on
    it show that no overflow happens.
  - A C array is a list, read with [l !! i] and written with [<[i:=x]> l].
  - A [for] loop over an index range is [for_range]; the body answers
    [Next] or [Break].
  - Hardware registers and calls that leave the module are recorded in a
    trace of events, in program order. *)

From Stdlib Require Import ZArith List Bool Lia.
From stdpp Require Import base decidable list numbers.
Import ListNotations.

Local Open Scope Z_scope.

(** ** C integer types *)

Module CInt.

Definition wrap_u32 (x : Z) : Z := x mod 2 ^ 32.

(** Conversion to a signed type: a value of the range is unchanged, any
    other is reduced modulo [2^32] (or [2^16]) into the range. *)
Definition wrap_s32 (x : Z) : Z :=
  if (-2147483648 <=? x) && (x <=? 2147483647) then x
  else (x + 2147483648) mod 4294967296 - 2147483648.
Definition wrap_s16 (x : Z) : Z :=
  if (-32768 <=? x) && (x <=? 32767) then x
  else (x + 32768) mod 65536 - 32768.
Definition wrap_u8 (x : Z) : Z := x mod 2 ^ 8.

Definition INT32_MIN : Z := -2147483648.
Definition INT32_MAX : Z := 2147483647.
Definition INT16_MAX : Z := 32767.

(** [int32_t] arithmetic. Division truncates toward zero ([Z.quot]). *)
Definition add32 (a b : Z) : Z := wrap_s32 (a + b).
Definition sub32 (a b : Z) : Z := wrap_s32 (a - b).
Definition mul32 (a b : Z) : Z := wrap_s32 (a * b).
Definition div32 (a b : Z) : Z := wrap_s32 (Z.quot a b).
Definition neg32 (a : Z) : Z := wrap_s32 (- a).

(** system.h: [min_val], [max_val] *)
Definition min_val (val1 val2 : Z) : Z := if val1 <? val2 then val1 else val2.
Definition max_val (val1 val2 : Z) : Z := if val1 >? val2 then val1 else val2.

(** Result of one pass through a loop body. *)
Inductive ctl (St : Type) : Type :=
| Next (s : St)
| Break (s : St).
Arguments Next {St} s.
Arguments Break {St} s.

(** [for (i = lo; i < lo + n; i++) body], with [break]. *)
Fixpoint for_range {St : Type} (lo : nat) (n : nat)
         (body : nat -> St -> ctl St) (s : St) : St :=
  match n with
  | O => s
  | S n' =>
      match body lo s with
      | Next s' => for_range (S lo) n' body s'
      | Break s' => s'
      end
  end.

End CInt.

Import CInt.

(** ** system.c: the periodic task scheduler *)

Module System.

(** [task_ptr_type]: a pointer to a [void (void)] function.  Two pointers
    are equal when they hold the same address. *)
Inductive task_ptr_type : Type :=
| NULL
| task_at (addr : positive).

#[global] Instance task_ptr_eq_dec : EqDecision task_ptr_type.
Proof. solve_decision. Defined.

Record task_list_type : Type := mk_task
  { task : task_ptr_type;
    period : Z }.

#[global] Instance task_list_eq_dec : EqDecision task_list_type.
Proof. solve_decision. Defined.

Definition SYSTEM_TASKS_MAX : nat := 10.

(** The statics of the file: [s_task_list] and the [counter] of
    [execute_tasks]. *)
Record sched : Type := mk_sched
  { s_task_list : list task_list_type;
    counter : Z }.

(** Statics are zero-initialised: every slot is [{ NULL, 0 }]. *)
Definition sched_reset : sched :=
  {| s_task_list := replicate SYSTEM_TASKS_MAX (mk_task NULL 0);
     counter := 0 |}.

(** *** system_add_task *)

Definition add_task_body (tsk : task_ptr_type) (prd : Z)
           (i : nat) (l : list task_list_type) : ctl (list task_list_type) :=
  match l !! i with
  | None => Break l
  | Some e =>
      if decide (task e = NULL) then
        Break (<[i := mk_task tsk (max_val prd 1)]> l)
      else if decide (task e = tsk) then
        Break l
      else Next l
  end.

Definition system_add_task (tsk : task_ptr_type) (prd : Z) (s : sched) : sched :=
  {| s_task_list :=
       for_range 0 SYSTEM_TASKS_MAX (add_task_body tsk prd) (s_task_list s);
     counter := counter s |}.

(** *** system_remove_task *)

Definition remove_task_body (tsk : task_ptr_type)
           (i : nat) (l : list task_list_type) : ctl (list task_list_type) :=
  match l !! i with
  | None => Break l
  | Some e =>
      if decide (task e = tsk) then Next (<[i := mk_task NULL 0]> l)
      else Next l
  end.

Definition system_remove_task (tsk : task_ptr_type) (s : sched) : sched :=
  {| s_task_list :=
       for_range 0 SYSTEM_TASKS_MAX (remove_task_body tsk) (s_task_list s);
     counter := counter s |}.

(** *** execute_tasks

    What one tick does is recorded as a trace: each evaluation of
    [(counter + i) % cur_task->period], with its operands, and each call
    [cur_task->task()].  The left operand of [&&] is evaluated first, so
    the remainder is computed for every slot, and the call is made when
    the remainder is 0 and the pointer is not [NULL]. *)

Inductive event : Type :=
| Ev_rem (slot : nat) (dividend divisor : Z)
| Ev_call (slot : nat) (tsk : task_ptr_type).

#[global] Instance event_eq_dec : EqDecision event.
Proof. solve_decision. Defined.

Section Tick.

(** [x % 0] is undefined in C.  [rem_by_zero x] stands for the value the
    target leaves in its place when it does not trap; nothing below
    depends on which value that is. *)
Variable rem_by_zero : Z -> Z.

Definition urem32 (a b : Z) : Z :=
  if b =? 0 then rem_by_zero a else a mod b.

Definition execute_body (cnt : Z) (i : nat)
           (st : list task_list_type * list event)
  : ctl (list task_list_type * list event) :=
  let '(l, tr) := st in
  match l !! i with
  | None => Break st
  | Some cur_task =>
      let dividend := wrap_u32 (cnt + Z.of_nat i) in
      let r := urem32 dividend (period cur_task) in
      let tr := tr ++ [Ev_rem i dividend (period cur_task)] in
      if (r =? 0) && negb (bool_decide (task cur_task = NULL)) then
        Next (l, tr ++ [Ev_call i (task cur_task)])
      else Next (l, tr)
  end.

(** The registered callbacks of this program (the LED driver, the
    firefly engine and the timeout of [main]) do not touch the task
    list, so the list is the same after the tick. *)
Definition execute_tasks (s : sched) : sched * list event :=
  let cnt := wrap_u32 (counter s + 1) in
  let '(l, tr) :=
    for_range 0 SYSTEM_TASKS_MAX (execute_body cnt) (s_task_list s, []) in
  ({| s_task_list := l; counter := cnt |}, tr).

Definition SysTick_Handler (s : sched) : sched * list event :=
  execute_tasks s.

(** [n] ticks in a row; the traces are kept per tick, first tick first. *)
Fixpoint run_ticks (n : nat) (s : sched) : sched * list (list event) :=
  match n with
  | O => (s, [])
  | S n' =>
      let '(s1, tr) := SysTick_Handler s in
      let '(s2, trs) := run_ticks n' s1 in
      (s2, tr :: trs)
  end.

End Tick.

(** The slots in which a trace calls a task. *)
Definition called (slot : nat) (tr : list event) : bool :=
  existsb (fun e => match e with
                    | Ev_call j _ => Nat.eqb j slot
                    | Ev_rem _ _ _ => false
                    end) tr.

(** The divisors a trace takes remainders by, in order. *)
Definition divisors (tr : list event) : list Z :=
  omap (fun e => match e with
                 | Ev_rem _ _ d => Some d
                 | Ev_call _ _ => None
                 end) tr.

(** Indices (from 0, in order) of the ticks of a run that call [slot]. *)
Definition firing_ticks (slot : nat) (trs : list (list event)) : list nat :=
  omap (fun '(k, tr) => if called slot tr then Some k else None)
       (imap (fun k tr => (k, tr)) trs).

(** What [execute_body] adds to the trace for slot [i] holding [e]. *)
Definition slot_events (rem_by_zero : Z -> Z) (cnt : Z) (i : nat)
           (e : task_list_type) : list event :=
  let dividend := wrap_u32 (cnt + Z.of_nat i) in
  Ev_rem i dividend (period e)
  :: (if (urem32 rem_by_zero dividend (period e) =? 0)
         && negb (bool_decide (task e = NULL))
      then [Ev_call i (task e)] else []).

(** Three callbacks at distinct addresses. *)
Definition callback_a : task_ptr_type := task_at 1.
Definition callback_b : task_ptr_type := task_at 2.
Definition callback_c : task_ptr_type := task_at 3.

(** After reset, two tasks of period 5 are registered: they get slots 0
    and 1. *)
Definition two_tasks_of_period_5 : sched :=
  system_add_task callback_b 5 (system_add_task callback_a 5 sched_reset).

(** The registrations of [main]: [led_init] (period 1), [firefly_init]
    (period [FIREFLY_TIMESTEP] = 8), then the timeout (period 1). *)
Definition sched_of_main : sched :=
  system_add_task callback_c 1
    (system_add_task callback_b 8
       (system_add_task callback_a 1 sched_reset)).

(** [a] and [b] are registered, [a] is removed, [b] is registered again. *)
Definition reregistered_after_remove : sched :=
  system_add_task callback_b 1
    (system_remove_task callback_a
       (system_add_task callback_b 1
          (system_add_task callback_a 1 sched_reset))).

(** A target whose division by zero yields 0 without a trap computes the
    remainder [a - (a / b) * b] as [a]. *)
Definition rem_by_zero_target (a : Z) : Z := a.

(** Slots are either empty or hold a period that is not 0.  Reset
    establishes it, and [system_add_task] (by its clamp) and
    [system_remove_task] keep it. *)
Definition periods_ok (l : list task_list_type) : Prop :=
  Forall (fun e => task e <> NULL -> period e <> 0) l.

(** Number of active registrations of [tsk]. *)
Definition registrations (tsk : task_ptr_type) (l : list task_list_type) : nat :=
  length (filter (fun e => task e = tsk) l).

End System.

(** ** leds.c: the time-multiplexed output driver *)

Module Leds.

(** Modelled from the spec: [leds.h] is not among the sources; it declares
    [LED_COUNT] and [led_type].  The channel count is 8 ("N=8"; the file
    header of [leds.c] speaks of 8 LED drivers behind three select pins),
    and [led_type] is an unsigned channel index. *)
Definition LED_COUNT : Z := 8.

(** Modelled from the spec: [gpio.h] is not among the sources; it declares
    [gpio_type] (a port and a pin number) and [gpio_state_type] (the two
    logical levels). *)
Inductive gpio_state_type : Type :=
| GPIO_STATE_LOW
| GPIO_STATE_HIGH.

Inductive GPIO_TypeDef : Type :=
| GPIOA
| GPIOB
| GPIOC.

Record gpio_type : Type := mk_gpio
  { port : option GPIO_TypeDef;     (* [None] is the NULL port pointer *)
    pin : Z }.

Definition GPIO_PIN_MAX : Z := 15.

(** enum analog_switch_pin_type *)
Definition ANALOG_SWITCH_SELECT_0 : nat := 0.
Definition ANALOG_SWITCH_SELECT_1 : nat := 1.
Definition ANALOG_SWITCH_SELECT_2 : nat := 2.
Definition ANALOG_SWITCH_NENABLE : nat := 3.

Definition analog_switch_io : list gpio_type :=
  [ mk_gpio (Some GPIOA) 9;      (* ANALOG_SWITCH_SELECT_0 *)
    mk_gpio (Some GPIOA) 10;     (* ANALOG_SWITCH_SELECT_1 *)
    mk_gpio (Some GPIOA) 11;     (* ANALOG_SWITCH_SELECT_2 *)
    mk_gpio (Some GPIOA) 12 ].   (* ANALOG_SWITCH_NENABLE  *)

(** What the driver does to the outside, in program order: the calls
    [led_update_brightness] makes, and the register writes below them. *)
Inductive event : Type :=
| Call_dac_enable_output (enable : bool)
| Call_dac_set_output (dac_val : Z)
| Call_dac_set_led (led_id : Z)
| Write_BSRRL (p : GPIO_TypeDef) (v : Z)     (* sets the pins of mask v   *)
| Write_BSRRH (p : GPIO_TypeDef) (v : Z)     (* resets the pins of mask v *)
| Write_DHR12R1 (v : Z).

(** The statics of the file, the 12-bit data register of the converter,
    and the trace. *)
Record leds : Type := mk_leds
  { s_led_brightness : list Z;      (* int32_t [LED_COUNT]               *)
    led_id_static : Z;              (* [led_id] of led_periodic_callback *)
    DHR12R1 : Z;
    trace : list event }.

Definition leds_reset : leds :=
  {| s_led_brightness := replicate (Z.to_nat LED_COUNT) 0;
     led_id_static := 0;
     DHR12R1 := 0;
     trace := [] |}.

Definition emit (e : event) (s : leds) : leds :=
  {| s_led_brightness := s_led_brightness s;
     led_id_static := led_id_static s;
     DHR12R1 := DHR12R1 s;
     trace := trace s ++ [e] |}.

(** *** gpio.c: gpio_output_set and configure_output_level *)

Definition configure_output_level (gpio : gpio_type) (cfg : gpio_state_type)
           (s : leds) : leds :=
  match port gpio with
  | None => s
  | Some p =>
      match cfg with
      | GPIO_STATE_HIGH => emit (Write_BSRRL p (Z.shiftl 1 (pin gpio))) s
      | GPIO_STATE_LOW => emit (Write_BSRRH p (Z.shiftl 1 (pin gpio))) s
      end
  end.

Definition gpio_output_set (gpio : option gpio_type) (state : gpio_state_type)
           (s : leds) : leds :=
  match gpio with
  | None => s
  | Some g =>
      match port g with
      | None => s
      | Some _ =>
          if pin g >? GPIO_PIN_MAX then s
          else configure_output_level g state s
      end
  end.

(** *** dac_enable_output *)
Definition dac_enable_output (enable : bool) (s : leds) : leds :=
  let s := emit (Call_dac_enable_output enable) s in
  let nenable := analog_switch_io !! ANALOG_SWITCH_NENABLE in
  let state := if enable then GPIO_STATE_LOW else GPIO_STATE_HIGH in
  gpio_output_set nenable state s.

(** *** dac_set_led *)
Definition dac_set_led_body (led_id : Z) (i : nat) (s : leds) : ctl leds :=
  let select := analog_switch_io !! i in
  let state :=
    if Z.land led_id (Z.shiftl 1 (Z.of_nat (i - ANALOG_SWITCH_SELECT_0))) =? 0
    then GPIO_STATE_LOW else GPIO_STATE_HIGH in
  Next (gpio_output_set select state s).

Definition dac_set_led (led_id : Z) (s : leds) : leds :=
  let s := emit (Call_dac_set_led led_id) s in
  for_range ANALOG_SWITCH_SELECT_0
            (ANALOG_SWITCH_SELECT_2 - ANALOG_SWITCH_SELECT_0 + 1)
            (dac_set_led_body led_id) s.

(** *** dac_set_output *)
Definition dac_set_output (dac_val : Z) (s : leds) : leds :=
  let s := emit (Call_dac_set_output dac_val) s in
  let v := Z.land dac_val 0xFFF in
  emit (Write_DHR12R1 v)
       {| s_led_brightness := s_led_brightness s;
          led_id_static := led_id_static s;
          DHR12R1 := v;
          trace := trace s |}.

(** *** led_update_brightness *)
Definition led_update_brightness (led_id : Z) (led_brightness : Z)
           (s : leds) : leds :=
  let s := dac_enable_output false s in
  let s := dac_set_output led_brightness s in
  let s := dac_set_led led_id s in
  dac_enable_output true s.

(** *** led_set_brightness
    The [uint32_t] argument is stored in an [int32_t] element. *)
Definition led_set_brightness (led_id : Z) (led_brightness : Z)
           (s : leds) : leds :=
  if led_id <? LED_COUNT then
    {| s_led_brightness :=
         <[Z.to_nat led_id := wrap_s32 led_brightness]> (s_led_brightness s);
       led_id_static := led_id_static s;
       DHR12R1 := DHR12R1 s;
       trace := trace s |}
  else s.

(** *** led_periodic_callback
    The [int32_t] element is passed as the [uint32_t] argument. *)
Definition led_periodic_callback (s : leds) : leds :=
  let led_id := led_id_static s in
  let s :=
    led_update_brightness
      led_id
      (wrap_u32 (default 0 (s_led_brightness s !! Z.to_nat led_id))) s in
  {| s_led_brightness := s_led_brightness s;
     led_id_static := Z.rem (led_id + 1) LED_COUNT;
     DHR12R1 := DHR12R1 s;
     trace := trace s |}.

(** The callback [n] times in a row. *)
Fixpoint led_callbacks (n : nat) (s : leds) : leds :=
  match n with
  | O => s
  | S n' => led_callbacks n' (led_periodic_callback s)
  end.

(** The driver-facing calls of a trace, in order. *)
Definition is_call (e : event) : bool :=
  match e with
  | Call_dac_enable_output _ | Call_dac_set_output _ | Call_dac_set_led _ => true
  | _ => false
  end.

Definition calls (tr : list event) : list event := List.filter is_call tr.

(** The register writes of a trace, in order. *)
Definition writes (tr : list event) : list event :=
  List.filter (fun e => negb (is_call e)) tr.

(** The channels a trace addresses, in order. *)
Definition addressed (tr : list event) : list Z :=
  omap (fun e => match e with
                 | Call_dac_set_led c => Some c
                 | _ => None
                 end) tr.

(** The write that drives pin [n] of port A high ([level = true]) or
    low. *)
Definition pin_write (n : Z) (level : bool) : event :=
  if level then Write_BSRRL GPIOA (2 ^ n) else Write_BSRRH GPIOA (2 ^ n).

(** The values of the round-robin pointer over [n] invocations that
    start with the pointer at [k]. *)
Fixpoint pointer_values (n : nat) (k : Z) : list Z :=
  match n with
  | O => []
  | S n' => k :: pointer_values n' (Z.rem (k + 1) LED_COUNT)
  end.

End Leds.

(** ** fireflies.c: flash patterns and the animation engine *)

Module Fireflies.

Definition NUMBER_OF_FIREFLIES : Z := Leds.LED_COUNT.
Definition FIREFLY_TIMESTEP : Z := Leds.LED_COUNT.
Definition FIREFLY_DELAY_MAX : Z := 12000.
Definition FIREFLY_DELAY_MIN : Z := 1000.
Definition FIREFLY_SMOOTHING_MAX : Z := 500.
Definition FIREFLY_SMOOTHING_MIN : Z := 50.
Definition FIREFLY_FLASHPOINTS_MAX : nat := 15.

(** [flash_id_type] is [uint8_t]. *)
Definition FLASH_PHOTINUS_PALLENS : Z := 0.
Definition FLASH_PHOTINUS_LEWISI : Z := 1.
Definition FLASH_PHOTINUS_AMPLUS : Z := 2.
Definition FLASH_PHOTINUS_XANTHOPHOTIS : Z := 3.
Definition FLASH_PHOTURIS_JAMAICENSIS : Z := 4.
Definition FLASH_PHOTINUS_LEUCOPYGE : Z := 5.
Definition FLASH_COUNT : Z := 6.
Definition FLASH_FIRST : Z := FLASH_PHOTINUS_PALLENS.
Definition FLASH_LAST : Z := FLASH_PHOTINUS_LEUCOPYGE.

Record flash_point_type : Type := mk_point
  { target : Z;      (* Target brightness *)
    time : Z }.      (* Transition time   *)

(** [clear_struct]: all fields 0. *)
Definition flash_point_clear : flash_point_type := mk_point 0 0.

Record firefly_type : Type := mk_firefly
  { brightness : Z;
    flashing : bool;
    flash_id : Z;
    flash_time : Z;
    smoothing : Z;
    delay_len : Z;
    delay_time : Z }.

(** A row of [flash_patterns]: the initialisers, then zeroes up to
    [FIREFLY_FLASHPOINTS_MAX] elements. *)
Definition row (pts : list flash_point_type) : list flash_point_type :=
  pts ++ replicate (FIREFLY_FLASHPOINTS_MAX - length pts) flash_point_clear.

Definition flash_patterns : list (list flash_point_type) := Eval cbv in
  [ (* Photinus pallens *)
    row [ mk_point 800 300; mk_point 1000 100; mk_point 800 200;
          mk_point 0 400 ];
    (* Photinus lewisi *)
    row [ mk_point 500 100; mk_point 500 800; mk_point 0 100 ];
    (* Photinus amplus *)
    row [ mk_point 1000 100; mk_point 1 100; mk_point 1 100;
          mk_point 1000 100; mk_point 0 100 ];
    (* Photinus xanthophotis *)
    row [ mk_point 1000 200; mk_point 1 100; mk_point 1 200;
          mk_point 300 100; mk_point 1 100; mk_point 300 100;
          mk_point 0 100 ];
    (* Photuris jamaicensis *)
    row [ mk_point 500 50; mk_point 500 200; mk_point 0 50 ];
    (* Photinus leucopyge *)
    row [ mk_point 1000 50; mk_point 1000 200; mk_point 0 50 ] ].

(** [flash_patterns[ flash_type ]] *)
Definition flash_pattern_row (flash_type : Z) : list flash_point_type :=
  default [] (flash_patterns !! Z.to_nat flash_type).

(** The three loops over a pattern have the header
    [for( i = 0; i == 0 || flash_pattern[ i - 1 ].target != 0; i++ )]:
    the body runs on point 0, and on point [i] when the target of point
    [i - 1] is not 0.  They are written by recursion on the row: the head
    is point [i], and the loop goes on to the tail when the target of the
    head is not 0.  An empty remainder is the end of the row, which no
    pattern of the table reaches. *)

(** *** calculate_flash_length *)

Fixpoint flash_length_loop (pts : list flash_point_type) (flash_length : Z) : Z :=
  match pts with
  | [] => flash_length
  | p :: rest =>
      let flash_length := add32 flash_length (time p) in
      if target p =? 0 then flash_length
      else flash_length_loop rest flash_length
  end.

Definition calculate_flash_length (flash_type : Z) : Z :=
  flash_length_loop (flash_pattern_row flash_type) 0.

(** *** calculate_brightness_unsmoothed *)

(** The search loop: [flash_point_prv] is point [i - 1], or the cleared
    struct when [i = 0].  The result is [flash_point_cur],
    [flash_point_prv] and [flash_point_end_time] after the loop; a loop
    that ends without [break] leaves both structs cleared. *)
Fixpoint find_flash_point (pts : list flash_point_type)
         (flash_point_prv : flash_point_type)
         (flash_point_end_time flash_time : Z)
  : flash_point_type * flash_point_type * Z :=
  match pts with
  | [] => (flash_point_clear, flash_point_clear, flash_point_end_time)
  | p :: rest =>
      let flash_point_end_time := add32 flash_point_end_time (time p) in
      if flash_time <? flash_point_end_time then
        (p, flash_point_prv, flash_point_end_time)
      else if target p =? 0 then
        (flash_point_clear, flash_point_clear, flash_point_end_time)
      else find_flash_point rest p flash_point_end_time flash_time
  end.

Definition calculate_brightness_unsmoothed (flash_type flash_time : Z) : Z :=
  if flash_time <? 0 then 0
  else
    let '(flash_point_cur, flash_point_prv, flash_point_end_time) :=
      find_flash_point (flash_pattern_row flash_type) flash_point_clear
                       0 flash_time in
    if time flash_point_cur =? 0 then 0
    else
      add32
        (div32
           (mul32
              (sub32 (time flash_point_cur)
                     (sub32 flash_point_end_time flash_time))
              (sub32 (target flash_point_cur) (target flash_point_prv)))
           (time flash_point_cur))
        (target flash_point_prv).

(** *** calculate_brightness_smoothed *)

Fixpoint smooth_loop (flash_id smooth_start smooth_end : Z)
         (pts : list flash_point_type)
         (flash_point_start_time brightness : Z) : Z :=
  match pts with
  | [] => brightness
  | flash_point :: rest =>
      let flash_point_end_time :=
        add32 flash_point_start_time (time flash_point) in
      let interval_start :=
        if (smooth_start >=? flash_point_start_time)
           && (smooth_start <? flash_point_end_time)
        then Some smooth_start
        else if smooth_start <? flash_point_start_time
             then Some flash_point_start_time
             else None in
      match interval_start with
      | None =>
          (* continue *)
          if target flash_point =? 0 then brightness
          else smooth_loop flash_id smooth_start smooth_end rest
                           flash_point_end_time brightness
      | Some t1 =>
          let b1 := calculate_brightness_unsmoothed flash_id t1 in
          let t2 := min_val flash_point_end_time smooth_end in
          let b2 := calculate_brightness_unsmoothed flash_id t2 in
          let brightness :=
            add32 brightness (mul32 (add32 b2 b1) (sub32 t2 t1)) in
          if t2 =? smooth_end then brightness          (* break *)
          else if target flash_point =? 0 then brightness
          else smooth_loop flash_id smooth_start smooth_end rest
                           t2 brightness
      end
  end.

(** [smoothing] is the [int16_t] parameter. *)
Definition calculate_brightness_smoothed (flash_id flash_time smoothing : Z) : Z :=
  let half_smooth := Z.shiftr smoothing 1 in
  let smoothing := wrap_s16 (add32 (Z.shiftl half_smooth 1) 1) in
  let smooth_start := sub32 flash_time half_smooth in
  let smooth_end := add32 smooth_start smoothing in
  let flash_length := calculate_flash_length flash_id in
  if (smooth_end <? 0) || (smooth_start >? flash_length) then 0
  else
    let brightness :=
      smooth_loop flash_id smooth_start smooth_end
                  (flash_pattern_row flash_id) 0 0 in
    div32 brightness (mul32 2 smoothing).

(** *** firefly_step
    [time_step] is [uint16_t]; the [int32_t] field [smoothing] is
    converted to the [int16_t] parameter. *)
Definition firefly_step (firefly : firefly_type) (time_step : Z) : firefly_type :=
  let flash_time' := add32 (flash_time firefly) time_step in
  let brightness' :=
    calculate_brightness_smoothed (flash_id firefly) flash_time'
                                  (wrap_s16 (smoothing firefly)) in
  {| brightness := brightness';
     flashing :=
       if (brightness' =? 0) && (smoothing firefly <? flash_time')
       then false else flashing firefly;
     flash_id := flash_id firefly;
     flash_time := flash_time';
     smoothing := smoothing firefly;
     delay_len := delay_len firefly;
     delay_time := delay_time firefly |}.

(** [rand_range( min, max )], on the value [r] that [rand()] returned. *)
Definition rand_range (r min max : Z) : Z :=
  add32 (Z.rem r (add32 (sub32 max min) 1)) min.

(** The statics of the file, the LED driver it writes to, and the number
    of calls of [rand()] so far. *)
Record world : Type := mk_world
  { s_fireflies : list firefly_type;
    led_driver : Leds.leds;
    rand_calls : nat }.

Section Engine.

(** [rand_value n] is what the [n]-th call of [rand()] returns: a value
    between 0 and [RAND_MAX]. *)
Variable rand_value : nat -> Z.

(** *** firefly_periodic_callback *)
Definition firefly_callback_body (i : nat) (w : world) : ctl world :=
  match s_fireflies w !! i with
  | None => Break w
  | Some firefly =>
      if flashing firefly then
        let firefly := firefly_step firefly FIREFLY_TIMESTEP in
        Next {| s_fireflies := <[i := firefly]> (s_fireflies w);
                led_driver :=
                  Leds.led_set_brightness
                    (Z.of_nat i)
                    (wrap_u32 (div32 (mul32 (brightness firefly) 150) 1000))
                    (led_driver w);
                rand_calls := rand_calls w |}
      else if delay_len firefly <=? delay_time firefly then
        let n := rand_calls w in
        let flash_id' :=
          wrap_u8 (rand_range (rand_value n) FLASH_FIRST FLASH_LAST) in
        let smoothing' :=
          rand_range (rand_value (n + 1))
                     FIREFLY_SMOOTHING_MIN FIREFLY_SMOOTHING_MAX in
        let delay_len' :=
          rand_range (rand_value (n + 2))
                     FIREFLY_DELAY_MIN FIREFLY_DELAY_MAX in
        Next {| s_fireflies :=
                  <[i := {| brightness := brightness firefly;
                            flashing := true;
                            flash_id := flash_id';
                            flash_time := neg32 (div32 smoothing' 2);
                            smoothing := smoothing';
                            delay_len := delay_len';
                            delay_time := 0 |}]> (s_fireflies w);
                led_driver := led_driver w;
                rand_calls := (n + 3)%nat |}
      else
        Next {| s_fireflies :=
                  <[i := {| brightness := brightness firefly;
                            flashing := flashing firefly;
                            flash_id := flash_id firefly;
                            flash_time := flash_time firefly;
                            smoothing := smoothing firefly;
                            delay_len := delay_len firefly;
                            delay_time :=
                              add32 (delay_time firefly) FIREFLY_TIMESTEP |}]>
                    (s_fireflies w);
                led_driver := led_driver w;
                rand_calls := rand_calls w |}
  end.

Definition firefly_periodic_callback (w : world) : world :=
  for_range 0 (Z.to_nat NUMBER_OF_FIREFLIES) firefly_callback_body w.

End Engine.

(** *** firefly_init
    The fireflies after initialisation; the registration of the callback
    belongs to the scheduler. *)
Definition firefly_init (rand_value : nat -> Z) (led_driver : Leds.leds) : world :=
  {| s_fireflies :=
       map (fun i => {| brightness := 0;
                        flashing := false;
                        flash_id := FLASH_FIRST;
                        flash_time := 0;
                        smoothing := FIREFLY_SMOOTHING_MIN;
                        delay_len :=
                          rand_range (rand_value i)
                                     FIREFLY_DELAY_MIN FIREFLY_DELAY_MAX;
                        delay_time := 0 |})
           (seq 0 (Z.to_nat NUMBER_OF_FIREFLIES));
     led_driver := led_driver;
     rand_calls := Z.to_nat NUMBER_OF_FIREFLIES |}.

(** A firefly at the start of a flash of Photinus lewisi with the
    smallest smoothing, and a world whose eight fireflies are in that
    state. *)
Definition firefly_starting : firefly_type :=
  {| brightness := 0;
     flashing := true;
     flash_id := FLASH_PHOTINUS_LEWISI;
     flash_time := -25;
     smoothing := FIREFLY_SMOOTHING_MIN;
     delay_len := FIREFLY_DELAY_MIN;
     delay_time := 0 |}.

Definition world_starting : world :=
  {| s_fireflies := replicate (Z.to_nat NUMBER_OF_FIREFLIES) firefly_starting;
     led_driver := Leds.leds_reset;
     rand_calls := 0 |}.

(** What the engine keeps true of every firefly: the pattern is one of the
    table, and the smoothing lies in the configured range. *)
Definition firefly_ok (f : firefly_type) : Prop :=
  0 <= flash_id f < FLASH_COUNT
  /\ FIREFLY_SMOOTHING_MIN <= smoothing f <= FIREFLY_SMOOTHING_MAX.

(** A point of a pattern as the table has them: target in [0, 1000],
    duration not negative. *)
Definition point_ok (p : flash_point_type) : Prop :=
  0 <= target p <= 1000 /\ 0 <= time p.

(** Sum of the durations of all points of a row. *)
Definition row_total (pts : list flash_point_type) : Z :=
  fold_right Z.add 0 (map time pts).

(** The smoothing window of the specification, [t - half, t - half + width)
    with [half = smoothing >> 1] and [width = 2 * half + 1], lies entirely
    outside [0, pattern_length]: none of its points is in that interval. *)
Definition window_outside (flash_time smoothing pattern_length : Z) : Prop :=
  let half := Z.shiftr smoothing 1 in
  let width := 2 * half + 1 in
  forall x, flash_time - half <= x < flash_time - half + width ->
            x < 0 \/ pattern_length < x.

(** [lo, lo + 1, ..., lo + n - 1] *)
Definition zrange (lo : Z) (n : nat) : list Z :=
  map (fun k => lo + Z.of_nat k) (seq 0 n).

(** The unsmoothed brightness of the pattern [id] is at least 1 at every
    time from 1 to the last one before the end of the pattern. *)
Definition inside_check (id : Z) : bool :=
  forallb (fun x => 1 <=? calculate_brightness_unsmoothed id x)
          (zrange 1 (Z.to_nat (calculate_flash_length id - 1))).

(** The points of a row before its terminator, and the rest of the row,
    which starts with the terminator. *)
Fixpoint before_terminator (pts : list flash_point_type) : list flash_point_type :=
  match pts with
  | [] => []
  | p :: rest => if target p =? 0 then [] else p :: before_terminator rest
  end.

Fixpoint from_terminator (pts : list flash_point_type) : list flash_point_type :=
  match pts with
  | [] => []
  | p :: rest => if target p =? 0 then p :: rest else from_terminator rest
  end.

(** Total pattern duration in the words of the specification: the sum of
    the durations of all points through the terminator (the first point
    whose target is 0), inclusive. *)
Fixpoint through_terminator (pts : list flash_point_type) : list flash_point_type :=
  match pts with
  | [] => []
  | p :: rest => if target p =? 0 then [p] else p :: through_terminator rest
  end.

Definition pattern_duration (pts : list flash_point_type) : Z :=
  fold_right Z.add 0 (map time (through_terminator pts)).

End Fireflies.

(** ** Predicates and examples for the properties of the scheduler *)

Module SystemProps.

Import System.

(** What [system_remove_task] makes of one slot. *)
Definition remove_entry (tsk : task_ptr_type) (e : task_list_type) : task_list_type :=
  if decide (task e = tsk) then mk_task NULL 0 else e.

(** The list has the size of [s_task_list], and every occupied slot has a
    period of at least 1. *)
Definition sched_inv (l : list task_list_type) : Prop :=
  length l = SYSTEM_TASKS_MAX
  /\ Forall (fun e => task e <> NULL -> 1 <= period e) l.

(** Ten tasks at distinct addresses fill the list. *)
Definition sched_full : sched :=
  fold_left (fun s a => system_add_task (task_at a) 1 s)
            [1; 2; 3; 4; 5; 6; 7; 8; 9; 10]%positive sched_reset.

(** The calls of a trace: slot and pointer, in order. *)
Definition calls_of (tr : list event) : list (nat * task_ptr_type) :=
  omap (fun e => match e with
                 | Ev_call i t => Some (i, t)
                 | Ev_rem _ _ _ => None
                 end) tr.

(** The scheduler with the counter moved forward by [k]. *)
Definition advance (k : Z) (s : sched) : sched :=
  {| s_task_list := s_task_list s; counter := wrap_u32 (counter s + k) |}.

End SystemProps.


(** ** What the analog switch sees of the LED driver *)

Module LedsProps.

Import Leds.

(** The outputs of the driver: the level of each pin of port A and the
    data register of the converter. *)
Record outputs : Type := mk_outputs
  { pin_level : Z -> bool;
    dac_value : Z }.

(** The effect of one event.  [configure_output_level] drives a pin high
    by writing its mask to BSRRL and low by writing it to BSRRH: the
    first sets the pins of the mask, the second resets them. *)
Definition output_step (e : event) (o : outputs) : outputs :=
  match e with
  | Write_BSRRL GPIOA m =>
      {| pin_level := fun n => pin_level o n || Z.testbit m n;
         dac_value := dac_value o |}
  | Write_BSRRH GPIOA m =>
      {| pin_level := fun n => pin_level o n && negb (Z.testbit m n);
         dac_value := dac_value o |}
  | Write_DHR12R1 v => {| pin_level := pin_level o; dac_value := v |}
  | _ => o
  end.

Definition output_run (tr : list event) (o : outputs) : outputs :=
  fold_left (fun o e => output_step e o) tr o.

(** The channel the select pins 9, 10 and 11 encode. *)
Definition selected (o : outputs) : Z :=
  Z.b2z (pin_level o 9) + 2 * Z.b2z (pin_level o 10)
  + 4 * Z.b2z (pin_level o 11).

(** nEnable (pin 12) low: the switch passes the converter output to the
    selected channel. *)
Definition enabled (o : outputs) : bool := negb (pin_level o 12).

(** The event changes the converter output or a select pin. *)
Definition touches_route (e : event) : bool :=
  match e with
  | Write_DHR12R1 _ => true
  | Write_BSRRL GPIOA m | Write_BSRRH GPIOA m =>
      Z.testbit m 9 || Z.testbit m 10 || Z.testbit m 11
  | _ => false
  end.

(** No event of the trace changes the converter output or a select pin
    while the switch is enabled. *)
Fixpoint steady (o : outputs) (tr : list event) : bool :=
  match tr with
  | [] => true
  | e :: tr' =>
      negb (touches_route e && enabled o) && steady (output_step e o) tr'
  end.

(** The event drives nEnable low. *)
Definition enables (e : event) : bool :=
  match e with
  | Write_BSRRH GPIOA m => Z.testbit m 12
  | _ => false
  end.

(** Each time the trace drives nEnable low: the selected channel and the
    converter value the switch passes to it. *)
Fixpoint shown (o : outputs) (tr : list event) : list (Z * Z) :=
  match tr with
  | [] => []
  | e :: tr' =>
      (if enables e
       then [(selected (output_step e o), dac_value (output_step e o))]
       else [])
      ++ shown (output_step e o) tr'
  end.

(** All pins low, converter at 0. *)
Definition outputs_reset : outputs :=
  {| pin_level := fun _ => false; dac_value := 0 |}.

(** The brightness the table holds for channel [c], as the 12-bit
    converter takes it. *)
Definition table_value (s : leds) (c : Z) : Z :=
  default 0 (s_led_brightness s !! Z.to_nat c) mod 4096.

End LedsProps.

(** ** gpio.c: pin configuration at the level of the port registers *)

Module Gpio.

Import CInt.

Definition GPIO_PIN_MAX : Z := 15.

(** Modelled from the spec: [stm32f3xx.h] is not among the sources.  It
    declares the ports ([GPIOA] to [GPIOD] are the ones [enable_port]
    names; [GPIO_other] stands for any further port of the device) and
    their registers, of which [gpio.c] uses [MODER], [OTYPER], [OSPEEDR],
    [PUPDR], [IDR] and the two write-only halves [BSRRL] and [BSRRH] of
    the bit set/reset register. *)
Inductive GPIO_TypeDef : Type :=
| GPIOA
| GPIOB
| GPIOC
| GPIOD
| GPIO_other (n : nat).

#[global] Instance GPIO_TypeDef_eq_dec : EqDecision GPIO_TypeDef.
Proof. solve_decision. Defined.

(** A store to one of the write-only registers. *)
Inductive bsrr_write : Type :=
| BSRRL (v : Z)
| BSRRH (v : Z).

Record port_regs : Type := mk_port
  { MODER : Z;
    OTYPER : Z;
    OSPEEDR : Z;
    PUPDR : Z;
    IDR : Z;
    BSRR : list bsrr_write }.     (* the stores to BSRRL and BSRRH, in order *)

(** The registers of every port, and the clock enable register of RCC. *)
Record device : Type := mk_device
  { ports : GPIO_TypeDef -> port_regs;
    AHBENR : Z }.

(** Modelled from the spec: [gpio.h] is not among the sources; it declares
    [gpio_type] (a port and a pin number) and [gpio_state_type]. *)
Record gpio_type : Type := mk_gpio
  { port : option GPIO_TypeDef;     (* [None] is the NULL port pointer *)
    pin : Z }.

Inductive mode_type : Type :=
| MODE_INPUT
| MODE_OUTPUT
| MODE_ALTERNATE_FUNCTION
| MODE_ANALOG.

Inductive output_speed_type : Type :=
| OUTPUT_SPEED_LOW
| OUTPUT_SPEED_MEDIUM
| OUTPUT_SPEED_HIGH.

Inductive output_type : Type :=
| OUTPUT_TYPE_PUSH_PULL
| OUTPUT_TYPE_OPEN_DRAIN.

Inductive pull_resistor_type : Type :=
| PULL_RESISTOR_NONE
| PULL_RESISTOR_UP
| PULL_RESISTOR_DOWN.

(** [port->REG = f( port->REG )] for the port [p]. *)
Definition update_port (p : GPIO_TypeDef) (f : port_regs -> port_regs)
           (s : device) : device :=
  {| ports := fun q => if decide (q = p) then f (ports s p) else ports s q;
     AHBENR := AHBENR s |}.

(** [r &= m] and [r |= m] on a [uint32_t] register with an [int]
    operand, which is converted to [uint32_t]. *)
Definition and32 (r m : Z) : Z := Z.land r (wrap_u32 m).
Definition or32 (r m : Z) : Z := Z.lor r (wrap_u32 m).

Section Target.

(** [a << n] on [int] is defined by C when the result fits [int]; what
    the target makes of the other shifts ([3 << 30] and [2 << 30], for
    pin 15) is left open. *)
Variable shl_overflow : Z -> Z -> Z.

(** The port clock enable masks of [stm32f3xx.h]. *)
Variable RCC_AHBENR_GPIOAEN : Z.
Variable RCC_AHBENR_GPIOBEN : Z.
Variable RCC_AHBENR_GPIOCEN : Z.
Variable RCC_AHBENR_GPIODEN : Z.

Definition shl_int (a n : Z) : Z :=
  if Z.shiftl a n <=? INT32_MAX then Z.shiftl a n else shl_overflow a n.

(** *** configure_mode *)
Definition configure_mode (gpio : gpio_type) (cfg : mode_type)
           (s : device) : device :=
  match port gpio with
  | None => s
  | Some p =>
      let pin := wrap_u32 (pin gpio) in
      let clear r := and32 r (Z.lnot (shl_int 3 (wrap_u32 (pin * 2)))) in
      let set v r := or32 r (shl_int v (wrap_u32 (pin * 2))) in
      let f m :=
        match cfg with
        | MODE_OUTPUT => set 1 (clear m)
        | MODE_ALTERNATE_FUNCTION => set 2 (clear m)
        | MODE_ANALOG => set 3 m
        | MODE_INPUT => clear m
        end in
      update_port p (fun r => {| MODER := f (MODER r); OTYPER := OTYPER r;
                                 OSPEEDR := OSPEEDR r; PUPDR := PUPDR r;
                                 IDR := IDR r; BSRR := BSRR r |}) s
  end.

(** *** configure_output_level *)
Definition configure_output_level (gpio : gpio_type)
           (cfg : Leds.gpio_state_type) (s : device) : device :=
  match port gpio with
  | None => s
  | Some p =>
      let pin := wrap_u32 (pin gpio) in
      let w :=
        match cfg with
        | Leds.GPIO_STATE_HIGH => BSRRL (shl_int 1 pin)
        | Leds.GPIO_STATE_LOW => BSRRH (shl_int 1 pin)
        end in
      update_port p (fun r => {| MODER := MODER r; OTYPER := OTYPER r;
                                 OSPEEDR := OSPEEDR r; PUPDR := PUPDR r;
                                 IDR := IDR r; BSRR := BSRR r ++ [w] |}) s
  end.

(** *** configure_output_speed *)
Definition configure_output_speed (gpio : gpio_type) (cfg : output_speed_type)
           (s : device) : device :=
  match port gpio with
  | None => s
  | Some p =>
      let pin := wrap_u32 (pin gpio) in
      let clear r := and32 r (Z.lnot (shl_int 3 (wrap_u32 (pin * 2)))) in
      let set v r := or32 r (shl_int v (wrap_u32 (pin * 2))) in
      let f m :=
        match cfg with
        | OUTPUT_SPEED_LOW => clear m
        | OUTPUT_SPEED_MEDIUM => set 1 (clear m)
        | OUTPUT_SPEED_HIGH => set 3 m
        end in
      update_port p (fun r => {| MODER := MODER r; OTYPER := OTYPER r;
                                 OSPEEDR := f (OSPEEDR r); PUPDR := PUPDR r;
                                 IDR := IDR r; BSRR := BSRR r |}) s
  end.

(** *** configure_output_type *)
Definition configure_output_type (gpio : gpio_type) (cfg : output_type)
           (s : device) : device :=
  match port gpio with
  | None => s
  | Some p =>
      let pin := wrap_u32 (pin gpio) in
      let f m :=
        match cfg with
        | OUTPUT_TYPE_OPEN_DRAIN => or32 m (shl_int 1 pin)
        | OUTPUT_TYPE_PUSH_PULL => and32 m (Z.lnot (shl_int 1 pin))
        end in
      update_port p (fun r => {| MODER := MODER r; OTYPER := f (OTYPER r);
                                 OSPEEDR := OSPEEDR r; PUPDR := PUPDR r;
                                 IDR := IDR r; BSRR := BSRR r |}) s
  end.

(** *** configure_pull_resistors *)
Definition configure_pull_resistors (gpio : gpio_type)
           (cfg : pull_resistor_type) (s : device) : device :=
  match port gpio with
  | None => s
  | Some p =>
      let pin := wrap_u32 (pin gpio) in
      let clear r := and32 r (Z.lnot (shl_int 3 (wrap_u32 (pin * 2)))) in
      let set v r := or32 r (shl_int v (wrap_u32 (pin * 2))) in
      let f m :=
        match cfg with
        | PULL_RESISTOR_UP => set 1 (clear m)
        | PULL_RESISTOR_DOWN => set 2 (clear m)
        | PULL_RESISTOR_NONE => clear m
        end in
      update_port p (fun r => {| MODER := MODER r; OTYPER := OTYPER r;
                                 OSPEEDR := OSPEEDR r; PUPDR := f (PUPDR r);
                                 IDR := IDR r; BSRR := BSRR r |}) s
  end.

(** *** enable_port *)
Definition enable_port (gpio : gpio_type) (s : device) : device :=
  let enable m := {| ports := ports s; AHBENR := Z.lor (AHBENR s) m |} in
  match port gpio with
  | Some GPIOA => enable RCC_AHBENR_GPIOAEN
  | Some GPIOB => enable RCC_AHBENR_GPIOBEN
  | Some GPIOC => enable RCC_AHBENR_GPIOCEN
  | Some GPIOD => enable RCC_AHBENR_GPIODEN
  | _ => s
  end.

(** The test that opens the four interface functions: a pointer that is
    not NULL, to a descriptor whose port is not NULL and whose pin is at
    most [GPIO_PIN_MAX]. *)
Definition valid (gpio : option gpio_type) : option gpio_type :=
  match gpio with
  | None => None
  | Some g =>
      match port g with
      | None => None
      | Some _ => if pin g >? GPIO_PIN_MAX then None else Some g
      end
  end.

(** *** gpio_cfg_input *)
Definition gpio_cfg_input (gpio : option gpio_type) (s : device) : device :=
  match valid gpio with
  | None => s
  | Some g =>
      let s := enable_port g s in
      let s := configure_mode g MODE_INPUT s in
      configure_pull_resistors g PULL_RESISTOR_NONE s
  end.

(** *** gpio_cfg_output *)
Definition gpio_cfg_output (gpio : option gpio_type) (s : device) : device :=
  match valid gpio with
  | None => s
  | Some g =>
      let s := enable_port g s in
      let s := configure_pull_resistors g PULL_RESISTOR_NONE s in
      let s := configure_output_speed g OUTPUT_SPEED_HIGH s in
      let s := configure_output_level g Leds.GPIO_STATE_LOW s in
      let s := configure_output_type g OUTPUT_TYPE_PUSH_PULL s in
      configure_mode g MODE_OUTPUT s
  end.

(** *** gpio_input_read *)
Definition gpio_input_read (gpio : option gpio_type) (s : device)
  : Leds.gpio_state_type :=
  match valid gpio with
  | None => Leds.GPIO_STATE_LOW
  | Some g =>
      match port g with
      | None => Leds.GPIO_STATE_LOW
      | Some p =>
          if Z.land (IDR (ports s p)) (wrap_u32 (shl_int 1 (pin g))) =? 0
          then Leds.GPIO_STATE_LOW else Leds.GPIO_STATE_HIGH
      end
  end.

(** *** gpio_output_set *)
Definition gpio_output_set (gpio : option gpio_type)
           (state : Leds.gpio_state_type) (s : device) : device :=
  match valid gpio with
  | None => s
  | Some g => configure_output_level g state s
  end.

End Target.

(** The two bits of pin [n] in a register with two bits per pin, high
    bit first. *)
Definition bits2 (r n : Z) : bool * bool :=
  (Z.testbit r (2 * n + 1), Z.testbit r (2 * n)).

(** The bits of the register that belong to other pins are the same in
    [r] and [r'], with [w] bits per pin. *)
Definition other_pins (w : Z) (n : Z) (r r' : Z) : Prop :=
  forall k, 0 <= k < 32 -> k / w <> n -> Z.testbit r' k = Z.testbit r k.

(** A device with all registers of all ports at [v]. *)
Definition device_all (v : Z) : device :=
  {| ports := fun _ => mk_port v v v v v []; AHBENR := 0 |}.

End Gpio.

(** ** main.c: the hold-power pin and the inactivity timeout *)

Module Main.

Import CInt.

Definition TIMEOUT_MINUTES : Z := 15.
Definition TIMEOUT_SECONDS : Z := TIMEOUT_MINUTES * 60.
Definition TIMEOUT_MS : Z := TIMEOUT_SECONDS * 1000.

(** touch.h *)
Inductive touch_state_type : Type :=
| TOUCH_STATE_INACTIVE
| TOUCH_STATE_ACTIVE.

Definition hold_power_io : Gpio.gpio_type := Gpio.mk_gpio (Some Gpio.GPIOA) 1.

(** The static of the file and the registers the callback reaches. *)
Record main_state : Type := mk_main
  { s_timeout_counter : Z;          (* uint32_t *)
    hw : Gpio.device }.

Section Target.

Variable shl_overflow : Z -> Z -> Z.
Variable RCC_AHBENR_GPIOAEN : Z.
Variable RCC_AHBENR_GPIOBEN : Z.
Variable RCC_AHBENR_GPIOCEN : Z.
Variable RCC_AHBENR_GPIODEN : Z.

(** *** main_timeout_callback
    [touch] is what [touch_read()] returns in this call ([touch.c] is not
    among the sources). *)
Definition main_timeout_callback (touch : touch_state_type) (s : main_state)
  : main_state :=
  let c :=
    match touch with
    | TOUCH_STATE_ACTIVE => 0
    | TOUCH_STATE_INACTIVE => wrap_u32 (s_timeout_counter s + 1)
    end in
  {| s_timeout_counter := c;
     hw := if c >=? TIMEOUT_MS
           then Gpio.gpio_output_set shl_overflow (Some hold_power_io)
                                     Leds.GPIO_STATE_LOW (hw s)
           else hw s |}.

(** The callback once per tick, with the readings of the ticks. *)
Definition run_timeout (touches : list touch_state_type) (s : main_state)
  : main_state :=
  fold_left (fun s t => main_timeout_callback t s) touches s.

(** *** main: the two statements on the hold-power pin that open it. *)
Definition main_hold_power (d : Gpio.device) : Gpio.device :=
  let d := Gpio.gpio_cfg_output shl_overflow RCC_AHBENR_GPIOAEN
                                RCC_AHBENR_GPIOBEN RCC_AHBENR_GPIOCEN
                                RCC_AHBENR_GPIODEN (Some hold_power_io) d in
  Gpio.gpio_output_set shl_overflow (Some hold_power_io)
                       Leds.GPIO_STATE_HIGH d.

End Target.

(** The stores that drive the hold-power pin. *)
Definition hold_power_stores (d : Gpio.device) : list Gpio.bsrr_write :=
  Gpio.BSRR (Gpio.ports d Gpio.GPIOA).

(** Every [TIMEOUT_MS] consecutive readings contain a touch. *)
Definition touched_in_time (touches : list touch_state_type) : Prop :=
  forall i : nat,
    Z.of_nat i + TIMEOUT_MS <= Z.of_nat (length touches) ->
    exists j : nat,
      (i <= j)%nat /\ Z.of_nat j < Z.of_nat i + TIMEOUT_MS
      /\ touches !! j = Some TOUCH_STATE_ACTIVE.

End Main.

(** ** What the animation engine keeps true *)

Module FirefliesProps.

Import Fireflies.

(** A firefly as the engine keeps it: pattern and smoothing as in
    [firefly_ok], the delay in the configured range and not overrun by
    more than one step, the brightness in [0, 1000]; while flashing, the
    flash time between minus half the largest smoothing and the end of the
    pattern plus half the smoothing; while waiting, brightness 0. *)
Definition firefly_inv (f : firefly_type) : Prop :=
  firefly_ok f
  /\ FIREFLY_DELAY_MIN <= delay_len f <= FIREFLY_DELAY_MAX
  /\ 0 <= delay_time f < delay_len f + FIREFLY_TIMESTEP
  /\ 0 <= brightness f <= 1000
  /\ (flashing f = true ->
      - (FIREFLY_SMOOTHING_MAX / 2) <= flash_time f
      /\ flash_time f
         <= calculate_flash_length (flash_id f) + Z.shiftr (smoothing f) 1)
  /\ (flashing f = false -> brightness f = 0).

(** The engine and the LED table it fills: eight fireflies that satisfy
    [firefly_inv], eight table entries in [0, 150], and a dark LED for
    every waiting firefly. *)
Definition world_inv (w : world) : Prop :=
  length (s_fireflies w) = Z.to_nat NUMBER_OF_FIREFLIES
  /\ Forall firefly_inv (s_fireflies w)
  /\ length (Leds.s_led_brightness (led_driver w)) = Z.to_nat Leds.LED_COUNT
  /\ Forall (fun v => 0 <= v <= 150) (Leds.s_led_brightness (led_driver w))
  /\ (forall (i : nat) (f : firefly_type),
        s_fireflies w !! i = Some f -> flashing f = false ->
        Leds.s_led_brightness (led_driver w) !! i = Some 0).

(** The firefly after [t] more milliseconds of its delay. *)
Definition waited (f : firefly_type) (t : Z) : firefly_type :=
  {| brightness := brightness f;
     flashing := flashing f;
     flash_id := flash_id f;
     flash_time := flash_time f;
     smoothing := smoothing f;
     delay_len := delay_len f;
     delay_time := delay_time f + t |}.

(** The callback [n] times in a row. *)
Fixpoint firefly_callbacks (rand_value : nat -> Z) (n : nat) (w : world) : world :=
  match n with
  | O => w
  | S n' => firefly_callbacks rand_value n'
                              (firefly_periodic_callback rand_value w)
  end.

End FirefliesProps.

(** ** leds.c: dac_init *)

Module LedsInit.

Import CInt.

(** The pins of the analog switch, as [gpio.c] takes them. *)
Definition analog_switch_io : list Gpio.gpio_type :=
  [ Gpio.mk_gpio (Some Gpio.GPIOA) 9;      (* ANALOG_SWITCH_SELECT_0 *)
    Gpio.mk_gpio (Some Gpio.GPIOA) 10;     (* ANALOG_SWITCH_SELECT_1 *)
    Gpio.mk_gpio (Some Gpio.GPIOA) 11;     (* ANALOG_SWITCH_SELECT_2 *)
    Gpio.mk_gpio (Some Gpio.GPIOA) 12 ].   (* ANALOG_SWITCH_NENABLE  *)

(** What [dac_init] writes to: the ports, the clock enable register of
    the converter, its control register, and the state of the driver. *)
Record led_hw : Type := mk_led_hw
  { pins : Gpio.device;
    APB1ENR : Z;
    DAC_CR : Z;
    driver : Leds.leds }.

Section Target.

Variable shl_overflow : Z -> Z -> Z.
Variable RCC_AHBENR_GPIOAEN : Z.
Variable RCC_AHBENR_GPIOBEN : Z.
Variable RCC_AHBENR_GPIOCEN : Z.
Variable RCC_AHBENR_GPIODEN : Z.

(** The masks of [stm32f3xx.h] that [dac_init] uses. *)
Variable RCC_APB1ENR_DAC1EN : Z.
Variable DAC_CR_BOFF1 : Z.
Variable DAC_CR_EN1 : Z.

Definition dac_init_body (i : nat) (d : Gpio.device) : ctl Gpio.device :=
  Next (Gpio.gpio_cfg_output shl_overflow RCC_AHBENR_GPIOAEN
                             RCC_AHBENR_GPIOBEN RCC_AHBENR_GPIOCEN
                             RCC_AHBENR_GPIODEN (analog_switch_io !! i) d).

(** *** dac_init *)
Definition dac_init (s : led_hw) : led_hw :=
  let pins :=
    for_range Leds.ANALOG_SWITCH_SELECT_0
              (Leds.ANALOG_SWITCH_NENABLE - Leds.ANALOG_SWITCH_SELECT_0 + 1)
              dac_init_body (pins s) in
  let apb1enr := Z.lor (APB1ENR s) RCC_APB1ENR_DAC1EN in
  let cr := Z.lor (DAC_CR s) DAC_CR_BOFF1 in
  let cr := Z.lor cr DAC_CR_EN1 in
  {| pins := pins;
     APB1ENR := apb1enr;
     DAC_CR := cr;
     driver := Leds.dac_set_output 0 (driver s) |}.

End Target.

End LedsInit.

(** * Properties *)

(** ** Scheduler *)

Section SchedulerFacts.

Import System.

Variable rem_by_zero : Z -> Z.

Lemma lookup_past_end {A} (l : list A) (i j : nat) :
  l !! i = None -> (i <= j)%nat -> l !! j = None.
Proof.
  intros Hi Hij. apply lookup_ge_None. apply lookup_ge_None in Hi. lia.
Qed.

Lemma flat_map_all_nil {A B} (f : A -> list B) (l : list A) :
  (forall x, In x l -> f x = []) -> flat_map f l = [].
Proof.
  induction l as [|x l IH]; intros H; simpl; [reflexivity|].
  rewrite (H x) by now left. apply IH. intros y Hy. apply H. now right.
Qed.

(** The loop of [execute_tasks] leaves the list alone and appends the
    events of the slots, in order. *)
Lemma execute_loop_trace (cnt : Z) (l : list task_list_type) :
  forall (n lo : nat) (tr : list event),
    for_range lo n (execute_body rem_by_zero cnt) (l, tr)
    = (l, tr ++ flat_map (fun i => match l !! i with
                                   | Some e => slot_events rem_by_zero cnt i e
                                   | None => []
                                   end) (seq lo n)).
Proof.
  induction n as [|n IH]; intros lo tr; simpl.
  - now rewrite app_nil_r.
  - destruct (l !! lo) as [e|] eqn:He.
    + unfold slot_events.
      destruct ((urem32 rem_by_zero (wrap_u32 (cnt + Z.of_nat lo)) (period e) =? 0)
                && negb (bool_decide (task e = NULL))); rewrite IH;
        f_equal; simpl; rewrite <- ?app_assoc; reflexivity.
    + f_equal. rewrite flat_map_all_nil; [now rewrite app_nil_r|].
      intros j Hj. apply in_seq in Hj.
      rewrite (lookup_past_end l lo j He); [reflexivity | lia].
Qed.

Lemma execute_tasks_trace (s : sched) :
  execute_tasks rem_by_zero s
  = ({| s_task_list := s_task_list s; counter := wrap_u32 (counter s + 1) |},
     flat_map (fun i => match s_task_list s !! i with
                        | Some e =>
                            slot_events rem_by_zero (wrap_u32 (counter s + 1)) i e
                        | None => []
                        end) (seq 0 SYSTEM_TASKS_MAX)).
Proof.
  unfold execute_tasks. rewrite execute_loop_trace. reflexivity.
Qed.

Lemma called_app (i : nat) (t1 t2 : list event) :
  called i (t1 ++ t2) = called i t1 || called i t2.
Proof. unfold called. apply existsb_app. Qed.

Lemma called_slot_events (cnt : Z) (i j : nat) (e : task_list_type) :
  called i (slot_events rem_by_zero cnt j e)
  = Nat.eqb j i
    && ((urem32 rem_by_zero (wrap_u32 (cnt + Z.of_nat j)) (period e) =? 0)
        && negb (bool_decide (task e = NULL))).
Proof.
  unfold slot_events, called.
  destruct ((urem32 rem_by_zero (wrap_u32 (cnt + Z.of_nat j)) (period e) =? 0)
            && negb (bool_decide (task e = NULL))); simpl.
  - now rewrite orb_false_r, andb_true_r.
  - now rewrite andb_false_r.
Qed.

Lemma called_flat_map (cnt : Z) (l : list task_list_type) (i : nat) (e : task_list_type) :
  l !! i = Some e ->
  forall (n lo : nat),
    called i (flat_map (fun j => match l !! j with
                                 | Some e => slot_events rem_by_zero cnt j e
                                 | None => []
                                 end) (seq lo n))
    = (Nat.leb lo i && Nat.ltb i (lo + n))
      && ((urem32 rem_by_zero (wrap_u32 (cnt + Z.of_nat i)) (period e) =? 0)
          && negb (bool_decide (task e = NULL))).
Proof.
  intros He. induction n as [|n IH]; intros lo.
  - simpl. replace (Nat.leb lo i && Nat.ltb i (lo + 0)) with false; [reflexivity|].
    symmetry. apply andb_false_iff.
    destruct (Nat.leb_spec lo i); [right|left; reflexivity].
    apply Nat.ltb_ge. lia.
  - cbn [seq flat_map]. rewrite called_app, IH.
    destruct (Nat.eq_dec lo i) as [->|Hne].
    + rewrite He, called_slot_events, Nat.eqb_refl.
      replace (Nat.leb (S i) i) with false by (symmetry; apply Nat.leb_gt; lia).
      replace (Nat.leb i i) with true by (symmetry; apply Nat.leb_le; lia).
      replace (Nat.ltb i (i + S n)) with true by (symmetry; apply Nat.ltb_lt; lia).
      simpl. now rewrite orb_false_r.
    + replace (called i match l !! lo with
                        | Some e0 => slot_events rem_by_zero cnt lo e0
                        | None => []
                        end) with false.
      * rewrite orb_false_l. f_equal.
        destruct (Nat.leb_spec (S lo) i), (Nat.leb_spec lo i),
          (Nat.ltb_spec i (S lo + n)), (Nat.ltb_spec i (lo + S n));
          try reflexivity; lia.
      * destruct (l !! lo); [|reflexivity].
        rewrite called_slot_events.
        replace (Nat.eqb lo i) with false; [reflexivity|].
        symmetry. now apply Nat.eqb_neq.
Qed.

(** The events of a slot do not depend on [rem_by_zero] when the slot is
    empty or its period is not 0. *)
Lemma slot_events_rem_irrelevant (r1 r2 : Z -> Z) cnt i e :
  (task e <> NULL -> period e <> 0) ->
  slot_events r1 cnt i e = slot_events r2 cnt i e.
Proof.
  intros H. unfold slot_events, urem32.
  destruct (decide (task e = NULL)) as [Hn|Hn].
  - rewrite (bool_decide_eq_true_2 _ Hn). simpl. now rewrite !andb_false_r.
  - specialize (H Hn). apply Z.eqb_neq in H. now rewrite H.
Qed.

End SchedulerFacts.

Section SchedulerClaims.

Import System.

Lemma execute_tasks_rem_irrelevant (r1 r2 : Z -> Z) (s : sched) :
  periods_ok (s_task_list s) ->
  execute_tasks r1 s = execute_tasks r2 s.
Proof.
  intros Hok. rewrite !execute_tasks_trace. f_equal.
  apply flat_map_ext. intros i.
  destruct (s_task_list s !! i) as [e|] eqn:He; [|reflexivity].
  apply slot_events_rem_irrelevant.
  exact (Forall_lookup_1 _ _ _ _ Hok He).
Qed.

Lemma execute_tasks_list (r : Z -> Z) (s : sched) :
  s_task_list (fst (execute_tasks r s)) = s_task_list s.
Proof. now rewrite execute_tasks_trace. Qed.

Lemma run_ticks_rem_irrelevant (r1 r2 : Z -> Z) (n : nat) :
  forall s, periods_ok (s_task_list s) -> run_ticks r1 n s = run_ticks r2 n s.
Proof.
  induction n as [|n IH]; intros s Hok; [reflexivity|].
  cbn [run_ticks]. unfold SysTick_Handler.
  rewrite (execute_tasks_rem_irrelevant r1 r2 s Hok).
  destruct (execute_tasks r2 s) as [s1 tr] eqn:E.
  assert (Hl : s_task_list s1 = s_task_list s).
  { pose proof (execute_tasks_list r2 s) as H. now rewrite E in H. }
  rewrite (IH s1); [reflexivity|]. now rewrite Hl.
Qed.

Lemma max_val_1_pos (prd : Z) : 1 <= max_val prd 1.
Proof. unfold max_val. destruct (Z.gtb_spec prd 1); lia. Qed.

Lemma periods_ok_add (tsk : task_ptr_type) (prd : Z) (s : sched) :
  periods_ok (s_task_list s) ->
  periods_ok (s_task_list (system_add_task tsk prd s)).
Proof.
  unfold system_add_task. cbn [s_task_list].
  generalize (s_task_list s) as l. generalize 0%nat as lo.
  induction SYSTEM_TASKS_MAX as [|n IH]; intros lo l Hok; [exact Hok|].
  cbn [for_range]. unfold add_task_body at 1.
  destruct (l !! lo) as [e|]; [|exact Hok].
  destruct (decide (task e = NULL)).
  - apply Forall_insert; [exact Hok|]. cbn [task period]. intros _.
    pose proof (max_val_1_pos prd). lia.
  - destruct (decide (task e = tsk)); [exact Hok|]. now apply IH.
Qed.

Lemma periods_ok_remove (tsk : task_ptr_type) (s : sched) :
  periods_ok (s_task_list s) ->
  periods_ok (s_task_list (system_remove_task tsk s)).
Proof.
  unfold system_remove_task. cbn [s_task_list].
  generalize (s_task_list s) as l. generalize 0%nat as lo.
  induction SYSTEM_TASKS_MAX as [|n IH]; intros lo l Hok; [exact Hok|].
  cbn [for_range]. unfold remove_task_body at 1.
  destruct (l !! lo) as [e|]; [|exact Hok].
  destruct (decide (task e = tsk)); apply IH; [|exact Hok].
  apply Forall_insert; [exact Hok|]. cbn [task period]. congruence.
Qed.

Lemma periods_ok_two_tasks : periods_ok (s_task_list two_tasks_of_period_5).
Proof.
  unfold periods_ok. vm_compute s_task_list.
  repeat constructor; simpl; congruence.
Qed.

Lemma periods_ok_reset : periods_ok (s_task_list sched_reset).
Proof.
  unfold periods_ok. vm_compute s_task_list.
  repeat constructor; simpl; congruence.
Qed.

Lemma periods_ok_main : periods_ok (s_task_list sched_of_main).
Proof.
  unfold periods_ok. vm_compute s_task_list.
  repeat constructor; simpl; congruence.
Qed.

(** C1, as the code has it.  For an occupied slot [i] of period [P >= 1],
    a tick calls the task of the slot if and only if
    [((c + i) mod 2^32) mod P = 0], where [c] is the counter after the
    increment that opens the tick.  The first tick after reset therefore
    tests [c = 1]: with tasks of period 5 in slots 0 and 1, the ten ticks
    after reset, numbered 0 to 9, call slot 0 at ticks 4 and 9 (counter 5
    and 10) and slot 1 at ticks 3 and 8 (counter 4 and 9). *)
Theorem execute_tasks_calls_iff
        (rem_by_zero : Z -> Z) (s : sched) (i : nat)
        (tsk : task_ptr_type) (P : Z) :
  s_task_list s !! i = Some (mk_task tsk P) ->
  (i < SYSTEM_TASKS_MAX)%nat ->
  tsk <> NULL ->
  1 <= P ->
  counter (fst (execute_tasks rem_by_zero s)) = wrap_u32 (counter s + 1)
  /\ (called i (snd (execute_tasks rem_by_zero s)) = true
      <-> wrap_u32 (wrap_u32 (counter s + 1) + Z.of_nat i) mod P = 0)
  /\ firing_ticks 0 (snd (run_ticks rem_by_zero 10 two_tasks_of_period_5))
     = [4; 9]%nat
  /\ firing_ticks 1 (snd (run_ticks rem_by_zero 10 two_tasks_of_period_5))
     = [3; 8]%nat.
Proof.
  intros He Hi Htsk HP. rewrite execute_tasks_trace. cbn [fst snd counter].
  split; [reflexivity|]. split.
  - rewrite (called_flat_map rem_by_zero _ _ i _ He).
    cbn [period task]. unfold urem32.
    replace (P =? 0) with false by (symmetry; apply Z.eqb_neq; lia).
    rewrite (bool_decide_eq_false_2 _ Htsk).
    replace (Nat.leb 0 i) with true by (symmetry; apply Nat.leb_le; lia).
    replace (Nat.ltb i (0 + SYSTEM_TASKS_MAX)) with true
      by (symmetry; apply Nat.ltb_lt; simpl; lia).
    simpl. rewrite andb_true_r. apply Z.eqb_eq.
  - rewrite (run_ticks_rem_irrelevant rem_by_zero rem_by_zero_target 10
               _ periods_ok_two_tasks).
    split; vm_compute; reflexivity.
Qed.

Lemma execute_tasks_calls_iff_witness :
  s_task_list two_tasks_of_period_5 !! 1%nat = Some (mk_task callback_b 5)
  /\ (1 < SYSTEM_TASKS_MAX)%nat
  /\ callback_b <> NULL
  /\ 1 <= 5
  /\ (called 1 (snd (execute_tasks rem_by_zero_target two_tasks_of_period_5))
      = true
      <-> wrap_u32 (wrap_u32 (counter two_tasks_of_period_5 + 1) + Z.of_nat 1)
            mod 5 = 0).
Proof.
  assert (H1 : s_task_list two_tasks_of_period_5 !! 1%nat
               = Some (mk_task callback_b 5)) by reflexivity.
  assert (H2 : (1 < SYSTEM_TASKS_MAX)%nat) by (unfold SYSTEM_TASKS_MAX; lia).
  assert (H3 : callback_b <> NULL) by discriminate.
  assert (H4 : 1 <= 5) by lia.
  repeat split; try assumption;
    apply (execute_tasks_calls_iff rem_by_zero_target two_tasks_of_period_5
             1 callback_b 5 H1 H2 H3 H4).
Defined.

(** C1 as the specification words it does not hold from reset: the two
    tasks sit in slots 0 and 1 with period 5, the first tick tests the
    counter value 1 and does not call slot 0, and over the ticks 0 to 9 the
    calls are not at ticks 0 and 5 for slot 0 and 4 and 9 for slot 1. *)
Lemma scheduler_phase_counterexample :
  s_task_list two_tasks_of_period_5 !! 0%nat = Some (mk_task callback_a 5)
  /\ s_task_list two_tasks_of_period_5 !! 1%nat = Some (mk_task callback_b 5)
  /\ counter two_tasks_of_period_5 = 0
  /\ counter (fst (execute_tasks rem_by_zero_target two_tasks_of_period_5)) = 1
  /\ called 0 (snd (execute_tasks rem_by_zero_target two_tasks_of_period_5))
     = false
  /\ ~ (firing_ticks 0 (snd (run_ticks rem_by_zero_target 10
                                       two_tasks_of_period_5)) = [0; 5]%nat
        /\ firing_ticks 1 (snd (run_ticks rem_by_zero_target 10
                                          two_tasks_of_period_5)) = [4; 9]%nat).
Proof.
  repeat split; try reflexivity.
  intros [H _]. vm_compute in H. discriminate H.
Qed.

(** C2 at its failing input.  The first tick after reset takes the
    remainder by the period of every slot, and every period is 0; with the
    three tasks of [main] registered, the seven empty slots still have
    period 0.  The test of the pointer comes after the remainder. *)
Theorem execute_tasks_remainder_by_zero (rem_by_zero : Z -> Z) :
  divisors (snd (execute_tasks rem_by_zero sched_reset))
  = [0; 0; 0; 0; 0; 0; 0; 0; 0; 0]
  /\ divisors (snd (execute_tasks rem_by_zero sched_of_main))
     = [1; 8; 1; 0; 0; 0; 0; 0; 0; 0]
  /\ In (Ev_rem 0 1 0) (snd (execute_tasks rem_by_zero sched_reset)).
Proof.
  rewrite (execute_tasks_rem_irrelevant rem_by_zero rem_by_zero_target
             _ periods_ok_reset).
  rewrite (execute_tasks_rem_irrelevant rem_by_zero rem_by_zero_target
             _ periods_ok_main).
  repeat split; try (vm_compute; reflexivity).
  vm_compute. left. reflexivity.
Qed.

(** C5 at its failing input.  [callback_b] is registered once, in slot 1,
    when slot 0 is freed; registering it again fills slot 0, because the
    loop meets the empty slot before it meets the registration.  The task
    is then registered twice. *)
Theorem system_add_task_registers_twice :
  s_task_list (system_remove_task callback_a
                 (system_add_task callback_b 1
                    (system_add_task callback_a 1 sched_reset)))
  = mk_task NULL 0 :: mk_task callback_b 1 :: replicate 8 (mk_task NULL 0)
  /\ s_task_list reregistered_after_remove
     = mk_task callback_b 1 :: mk_task callback_b 1
         :: replicate 8 (mk_task NULL 0)
  /\ registrations callback_b (s_task_list reregistered_after_remove) = 2%nat.
Proof. repeat split; vm_compute; reflexivity. Qed.

(** The parts of C5 that hold. *)

Lemma add_loop_no_empty_slot (tsk : task_ptr_type) (prd : Z)
      (l : list task_list_type) :
  forall (n lo : nat),
    (forall i e, (lo <= i < lo + n)%nat -> l !! i = Some e -> task e <> NULL) ->
    for_range lo n (add_task_body tsk prd) l = l.
Proof.
  induction n as [|n IH]; intros lo H; [reflexivity|].
  cbn [for_range]. unfold add_task_body at 1.
  destruct (l !! lo) as [e|] eqn:He; [|reflexivity].
  destruct (decide (task e = NULL)) as [Hn|Hn].
  - exfalso. apply (H lo e); [lia|assumption|assumption].
  - destruct (decide (task e = tsk)); [reflexivity|].
    apply IH. intros i e' Hi. apply H. lia.
Qed.

(** With every slot occupied, registration changes nothing. *)
Lemma system_add_task_full (tsk : task_ptr_type) (prd : Z) (s : sched) :
  Forall (fun e => task e <> NULL) (s_task_list s) ->
  system_add_task tsk prd s = s.
Proof.
  intros Hfull. destruct s as [l c]. unfold system_add_task. cbn [s_task_list counter] in *.
  f_equal. apply add_loop_no_empty_slot.
  intros i e _ He. exact (Forall_lookup_1 _ _ _ _ Hfull He).
Qed.

Lemma add_loop_registered (tsk : task_ptr_type) (prd : Z)
      (l : list task_list_type) (j : nat) (ej : task_list_type) :
  l !! j = Some ej -> task ej = tsk ->
  forall (n lo : nat),
    (lo <= j < lo + n)%nat ->
    (forall i e, (lo <= i < j)%nat -> l !! i = Some e -> task e <> NULL) ->
    tsk <> NULL ->
    for_range lo n (add_task_body tsk prd) l = l.
Proof.
  intros Hj Htj. induction n as [|n IH]; intros lo Hlo H Hnn; [lia|].
  cbn [for_range]. unfold add_task_body at 1.
  destruct (Nat.eq_dec lo j) as [->|Hne].
  - rewrite Hj. destruct (decide (task ej = NULL)); [congruence|].
    destruct (decide (task ej = tsk)); [reflexivity|congruence].
  - destruct (l !! lo) as [e|] eqn:He; [|reflexivity].
    destruct (decide (task e = NULL)) as [Hn|Hn].
    + exfalso. apply (H lo e); [lia|assumption|assumption].
    + destruct (decide (task e = tsk)); [reflexivity|].
      apply IH; [lia| |assumption]. intros i e' Hi. apply H. lia.
Qed.

(** Registering a task again changes nothing when no empty slot lies
    before its registration. *)
Lemma system_add_task_registered (tsk : task_ptr_type) (prd : Z) (s : sched)
      (j : nat) (ej : task_list_type) :
  s_task_list s !! j = Some ej -> task ej = tsk -> tsk <> NULL ->
  (j < SYSTEM_TASKS_MAX)%nat ->
  (forall i e, (i < j)%nat -> s_task_list s !! i = Some e -> task e <> NULL) ->
  system_add_task tsk prd s = s.
Proof.
  intros Hj Htj Hnn Hlt H. destruct s as [l c]. unfold system_add_task.
  cbn [s_task_list counter] in *. f_equal.
  apply (add_loop_registered tsk prd l j ej Hj Htj); [lia| |assumption].
  intros i e Hi. apply H. lia.
Qed.

End SchedulerClaims.

(** ** Output driver *)

Section LedFacts.

Import Leds.

Lemma land_bit_testbit (a k : Z) :
  0 <= k -> (Z.land a (Z.shiftl 1 k) =? 0) = negb (Z.testbit a k).
Proof.
  intros Hk. rewrite Z.shiftl_1_l.
  destruct (Z.testbit a k) eqn:Hb; simpl.
  - apply Z.eqb_neq. intros H0.
    assert (Hc : Z.testbit (Z.land a (2 ^ k)) k = true).
    { rewrite Z.land_spec, Hb, Z.pow2_bits_true by lia. reflexivity. }
    rewrite H0, Z.bits_0 in Hc. discriminate.
  - apply Z.eqb_eq. apply Z.bits_inj'. intros m Hm.
    rewrite Z.land_spec, Z.bits_0, Z.pow2_bits_eqb by lia.
    destruct (Z.eqb_spec k m) as [->|]; [rewrite Hb|]; now rewrite ?andb_false_r.
Qed.

(** One invocation of the driver: the state it leaves and the whole
    trace it adds. *)
Lemma led_periodic_callback_state (s : leds) :
  let id := led_id_static s in
  let b := wrap_u32 (default 0 (s_led_brightness s !! Z.to_nat id)) in
  led_periodic_callback s
  = {| s_led_brightness := s_led_brightness s;
       led_id_static := Z.rem (id + 1) LED_COUNT;
       DHR12R1 := Z.land b 0xFFF;
       trace :=
         trace s ++ [ Call_dac_enable_output false; Write_BSRRL GPIOA 4096;
                      Call_dac_set_output b; Write_DHR12R1 (Z.land b 0xFFF);
                      Call_dac_set_led id;
                      pin_write 9 (Z.testbit id 0);
                      pin_write 10 (Z.testbit id 1);
                      pin_write 11 (Z.testbit id 2);
                      Call_dac_enable_output true; Write_BSRRH GPIOA 4096 ] |}.
Proof.
  destruct s as [l id d tr]. cbn [led_id_static s_led_brightness trace].
  unfold led_periodic_callback, led_update_brightness, dac_enable_output,
    dac_set_output, dac_set_led, dac_set_led_body,
    ANALOG_SWITCH_SELECT_0, ANALOG_SWITCH_SELECT_2, ANALOG_SWITCH_NENABLE.
  cbn -[Z.land Z.shiftl Z.testbit wrap_u32 Z.pow Z.eqb Z.rem].
  rewrite !land_bit_testbit by lia.
  change (Z.of_nat 0) with 0. change (Z.of_nat 1) with 1.
  change (Z.of_nat 2) with 2.
  destruct (Z.testbit id 0), (Z.testbit id 1), (Z.testbit id 2);
    cbn -[Z.land wrap_u32 Z.rem]; rewrite <- ?app_assoc; reflexivity.
Qed.

Lemma calls_app (t1 t2 : list event) : calls (t1 ++ t2) = calls t1 ++ calls t2.
Proof. apply List.filter_app. Qed.

Lemma writes_app (t1 t2 : list event) : writes (t1 ++ t2) = writes t1 ++ writes t2.
Proof. apply List.filter_app. Qed.

Lemma addressed_app (t1 t2 : list event) :
  addressed (t1 ++ t2) = addressed t1 ++ addressed t2.
Proof. apply omap_app. Qed.

Lemma led_periodic_callback_addressed (s : leds) :
  addressed (trace (led_periodic_callback s))
  = addressed (trace s) ++ [led_id_static s].
Proof.
  rewrite led_periodic_callback_state. cbn [trace]. rewrite addressed_app.
  f_equal.
  destruct (Z.testbit (led_id_static s) 0), (Z.testbit (led_id_static s) 1),
    (Z.testbit (led_id_static s) 2); reflexivity.
Qed.

Lemma led_callbacks_addressed (n : nat) :
  forall s,
    addressed (trace (led_callbacks n s))
    = addressed (trace s) ++ pointer_values n (led_id_static s)
    /\ led_id_static (led_callbacks n s)
       = last (pointer_values (S n) (led_id_static s)) 0.
Proof.
  induction n as [|n IH]; intros s.
  - simpl. now rewrite app_nil_r.
  - cbn [led_callbacks]. destruct (IH (led_periodic_callback s)) as [IH1 IH2].
    rewrite IH1, IH2, led_periodic_callback_addressed.
    rewrite led_periodic_callback_state. cbn [led_id_static].
    split.
    + now rewrite <- app_assoc.
    + reflexivity.
Qed.

Lemma wrap_u32_wrap_s32 (v : Z) : wrap_u32 (wrap_s32 v) = v mod 2 ^ 32.
Proof.
  unfold wrap_u32, wrap_s32.
  destruct ((-2147483648 <=? v) && (v <=? 2147483647)); [reflexivity|].
  change (2 ^ 32) with 4294967296.
  rewrite Zminus_mod_idemp_l. f_equal. lia.
Qed.

Lemma land_0xFFF (v : Z) : Z.land v 0xFFF = v mod 4096.
Proof. change 0xFFF with (Z.ones 12). now rewrite Z.land_ones by lia. Qed.

Lemma mod_2_32_mod_4096 (v : Z) : (v mod 2 ^ 32) mod 4096 = v mod 4096.
Proof.
  apply Z.mod_mod_divide. exists (2 ^ 20). reflexivity.
Qed.

End LedFacts.

Section LedClaims.

Import Leds.

(** C6.  Every invocation of the output driver makes exactly four calls,
    in this order: [dac_enable_output( FALSE )], which drives nEnable
    (pin 12) high and closes the analog path; [dac_set_output] with the
    brightness of the channel, which writes the converter; [dac_set_led]
    with the channel, which drives the select pins 9, 10 and 11 to bits
    0, 1 and 2 of the channel; [dac_enable_output( TRUE )], which drives
    nEnable low.  The register writes follow the same order. *)
Theorem led_periodic_callback_four_calls (s : leds) :
  calls (trace (led_periodic_callback s))
  = calls (trace s)
    ++ [ Call_dac_enable_output false;
         Call_dac_set_output
           (wrap_u32 (default 0 (s_led_brightness s
                                   !! Z.to_nat (led_id_static s))));
         Call_dac_set_led (led_id_static s);
         Call_dac_enable_output true ]
  /\ writes (trace (led_periodic_callback s))
     = writes (trace s)
       ++ [ pin_write 12 true;
            Write_DHR12R1
              (wrap_u32 (default 0 (s_led_brightness s
                                      !! Z.to_nat (led_id_static s)))
               mod 4096);
            pin_write 9 (Z.testbit (led_id_static s) 0);
            pin_write 10 (Z.testbit (led_id_static s) 1);
            pin_write 11 (Z.testbit (led_id_static s) 2);
            pin_write 12 false ].
Proof.
  rewrite led_periodic_callback_state. cbn [trace].
  rewrite calls_app, writes_app, land_0xFFF.
  split; f_equal;
    destruct (Z.testbit (led_id_static s) 0), (Z.testbit (led_id_static s) 1),
      (Z.testbit (led_id_static s) 2); reflexivity.
Qed.

(** C8.  Starting with the pointer at any channel [k], eight invocations
    in a row address the channels [k], [k + 1], ... in increasing order,
    going from channel 7 to channel 0; every channel is addressed exactly
    once, and the pointer is back at [k].  From reset the order is
    0, 1, ..., 7. *)
Theorem led_round_robin (s : leds) :
  0 <= led_id_static s < LED_COUNT ->
  addressed (trace (led_callbacks 8 s))
  = addressed (trace s)
    ++ map (fun j => (led_id_static s + Z.of_nat j) mod LED_COUNT) (seq 0 8)
  /\ (forall c, 0 <= c < LED_COUNT ->
                count_occ Z.eq_dec
                  (map (fun j => (led_id_static s + Z.of_nat j) mod LED_COUNT)
                       (seq 0 8)) c = 1%nat)
  /\ led_id_static (led_periodic_callback s)
     = (led_id_static s + 1) mod LED_COUNT
  /\ led_id_static (led_callbacks 8 s) = led_id_static s
  /\ addressed (trace (led_callbacks 8 leds_reset)) = [0; 1; 2; 3; 4; 5; 6; 7].
Proof.
  intros Hk. destruct (led_callbacks_addressed 8 s) as [Ha Hp].
  rewrite Ha, Hp. rewrite led_periodic_callback_state. cbn [led_id_static].
  unfold LED_COUNT in *.
  assert (Hcases : led_id_static s = 0 \/ led_id_static s = 1
                   \/ led_id_static s = 2 \/ led_id_static s = 3
                   \/ led_id_static s = 4 \/ led_id_static s = 5
                   \/ led_id_static s = 6 \/ led_id_static s = 7) by lia.
  split; [|split; [|split; [|split]]].
  - f_equal. clear -Hcases.
    repeat (destruct Hcases as [->|Hcases]); try rewrite Hcases; reflexivity.
  - intros c Hc.
    assert (Hcc : c = 0 \/ c = 1 \/ c = 2 \/ c = 3
                  \/ c = 4 \/ c = 5 \/ c = 6 \/ c = 7) by lia.
    clear -Hcases Hcc.
    repeat (destruct Hcases as [->|Hcases]); try rewrite Hcases;
      repeat (destruct Hcc as [->|Hcc]); try rewrite Hcc; reflexivity.
  - clear -Hcases.
    repeat (destruct Hcases as [->|Hcases]); try rewrite Hcases; reflexivity.
  - clear -Hcases.
    repeat (destruct Hcases as [->|Hcases]); try rewrite Hcases; reflexivity.
  - reflexivity.
Qed.

Lemma led_round_robin_witness :
  0 <= led_id_static (led_callbacks 3 leds_reset) < LED_COUNT
  /\ addressed (trace (led_callbacks 8 (led_callbacks 3 leds_reset)))
     = addressed (trace (led_callbacks 3 leds_reset))
       ++ [3; 4; 5; 6; 7; 0; 1; 2].
Proof.
  assert (H : 0 <= led_id_static (led_callbacks 3 leds_reset) < LED_COUNT)
    by (vm_compute; split; [discriminate | reflexivity]).
  split; [exact H|].
  exact (proj1 (led_round_robin (led_callbacks 3 leds_reset) H)).
Defined.

(** C10.  [dac_set_output] writes its argument reduced modulo 4096 to the
    data register, for every argument; the value lies in [0, 4095].  A
    brightness stored with [led_set_brightness], whatever its value,
    reaches the register reduced in the same way when the driver comes to
    its channel. *)
Theorem dac_set_output_masks (dac_val led_brightness : Z) (s : leds) :
  0 <= led_id_static s < LED_COUNT ->
  length (s_led_brightness s) = Z.to_nat LED_COUNT ->
  DHR12R1 (dac_set_output dac_val s) = dac_val mod 4096
  /\ writes (trace (dac_set_output dac_val s))
     = writes (trace s) ++ [Write_DHR12R1 (dac_val mod 4096)]
  /\ 0 <= dac_val mod 4096 <= 4095
  /\ DHR12R1 (led_periodic_callback
                (led_set_brightness (led_id_static s) led_brightness s))
     = led_brightness mod 4096
  /\ In (Write_DHR12R1 (led_brightness mod 4096))
        (trace (led_periodic_callback
                  (led_set_brightness (led_id_static s) led_brightness s))).
Proof.
  intros Hid Hlen.
  assert (Hset :
           wrap_u32 (default 0
             (s_led_brightness
                (led_set_brightness (led_id_static s) led_brightness s)
                !! Z.to_nat (led_id_static
                               (led_set_brightness (led_id_static s)
                                                   led_brightness s))))
           = led_brightness mod 2 ^ 32).
  { unfold led_set_brightness.
    replace (led_id_static s <? LED_COUNT) with true
      by (symmetry; apply Z.ltb_lt; lia).
    cbn [s_led_brightness led_id_static].
    rewrite list_lookup_insert_eq by (rewrite Hlen; unfold LED_COUNT in *; lia).
    cbn [default]. apply wrap_u32_wrap_s32. }
  split; [|split; [|split; [|split]]].
  - unfold dac_set_output, emit. cbn [DHR12R1]. apply land_0xFFF.
  - unfold dac_set_output, emit. cbn [trace]. rewrite !writes_app, land_0xFFF.
    cbn. now rewrite app_nil_r.
  - pose proof (Z.mod_pos_bound dac_val 4096). lia.
  - rewrite led_periodic_callback_state. cbn [DHR12R1].
    rewrite Hset, land_0xFFF. apply mod_2_32_mod_4096.
  - rewrite led_periodic_callback_state. cbn [trace].
    rewrite Hset, land_0xFFF, mod_2_32_mod_4096.
    apply in_or_app. right. simpl. tauto.
Qed.

Lemma dac_set_output_masks_witness :
  0 <= led_id_static leds_reset < LED_COUNT
  /\ length (s_led_brightness leds_reset) = Z.to_nat LED_COUNT
  /\ DHR12R1 (dac_set_output 5000 leds_reset) = 5000 mod 4096
  /\ DHR12R1 (led_periodic_callback
                (led_set_brightness (led_id_static leds_reset)
                                    4294967295 leds_reset))
     = 4294967295 mod 4096.
Proof.
  assert (H1 : 0 <= led_id_static leds_reset < LED_COUNT)
    by (vm_compute; split; [discriminate | reflexivity]).
  assert (H2 : length (s_led_brightness leds_reset) = Z.to_nat LED_COUNT)
    by reflexivity.
  pose proof (dac_set_output_masks 5000 4294967295 leds_reset H1 H2)
    as (H3 & _ & _ & H4 & _).
  repeat split; try assumption; apply H1.
Defined.

End LedClaims.

(** ** Flash patterns and the animation engine *)

Section IntegerFacts.

Lemma wrap_s32_id (x : Z) :
  -2147483648 <= x <= 2147483647 -> wrap_s32 x = x.
Proof.
  intros H. unfold wrap_s32.
  replace ((-2147483648 <=? x) && (x <=? 2147483647)) with true; [reflexivity|].
  symmetry. apply andb_true_iff. split; apply Z.leb_le; lia.
Qed.

Lemma wrap_s32_range (x : Z) : -2147483648 <= wrap_s32 x <= 2147483647.
Proof.
  unfold wrap_s32.
  destruct ((-2147483648 <=? x) && (x <=? 2147483647)) eqn:E.
  - apply andb_true_iff in E. destruct E as [E1 E2].
    apply Z.leb_le in E1. apply Z.leb_le in E2. lia.
  - pose proof (Z.mod_pos_bound (x + 2147483648) 4294967296). lia.
Qed.

Lemma wrap_s32_below (x : Z) :
  -4294967296 - 2147483648 <= x < -2147483648 ->
  wrap_s32 x = x + 4294967296.
Proof.
  intros H. unfold wrap_s32.
  replace ((-2147483648 <=? x) && (x <=? 2147483647)) with false.
  - replace (x + 2147483648)
      with ((x + 4294967296 + 2147483648) + (-1) * 4294967296) by lia.
    rewrite Z.mod_add by lia. rewrite Z.mod_small by lia. lia.
  - symmetry. apply andb_false_iff. left. apply Z.leb_gt. lia.
Qed.

Lemma wrap_s16_id (x : Z) : -32768 <= x <= 32767 -> wrap_s16 x = x.
Proof.
  intros H. unfold wrap_s16.
  replace ((-32768 <=? x) && (x <=? 32767)) with true; [reflexivity|].
  symmetry. apply andb_true_iff. split; apply Z.leb_le; lia.
Qed.

Lemma add32_id (a b : Z) :
  -2147483648 <= a + b <= 2147483647 -> add32 a b = a + b.
Proof. apply wrap_s32_id. Qed.

Lemma sub32_id (a b : Z) :
  -2147483648 <= a - b <= 2147483647 -> sub32 a b = a - b.
Proof. apply wrap_s32_id. Qed.

Lemma mul32_id (a b : Z) :
  -2147483648 <= a * b <= 2147483647 -> mul32 a b = a * b.
Proof. apply wrap_s32_id. Qed.

Lemma div32_id (a b : Z) :
  -2147483648 <= Z.quot a b <= 2147483647 -> div32 a b = Z.quot a b.
Proof. apply wrap_s32_id. Qed.

End IntegerFacts.

Section PatternFacts.

Import Fireflies.

Lemma pattern_duration_cons (p : flash_point_type) (rest : list flash_point_type) :
  pattern_duration (p :: rest)
  = time p + (if target p =? 0 then 0 else pattern_duration rest).
Proof.
  unfold pattern_duration. cbn [through_terminator].
  destruct (target p =? 0); cbn; lia.
Qed.

Lemma row_total_cons (p : flash_point_type) (rest : list flash_point_type) :
  row_total (p :: rest) = time p + row_total rest.
Proof. reflexivity. Qed.

Lemma row_total_nonneg (pts : list flash_point_type) :
  Forall point_ok pts -> 0 <= row_total pts.
Proof.
  induction 1 as [|p rest [_ Hp] _ IH]; [cbn; lia|].
  rewrite row_total_cons. lia.
Qed.

(** The loop of [calculate_flash_length] adds the durations through the
    terminator, as long as the sum fits an [int32_t]. *)
Lemma flash_length_loop_sum (pts : list flash_point_type) :
  Forall point_ok pts ->
  forall acc, 0 <= acc -> acc + row_total pts <= 2147483647 ->
              flash_length_loop pts acc = acc + pattern_duration pts.
Proof.
  induction 1 as [|p rest Hp Hrest IH]; intros acc Hacc Hsum.
  - cbn. lia.
  - cbn [flash_length_loop]. rewrite pattern_duration_cons.
    rewrite row_total_cons in Hsum. destruct Hp as [_ Hp].
    pose proof (row_total_nonneg rest Hrest).
    rewrite add32_id by lia.
    destruct (target p =? 0); [lia|].
    rewrite IH by lia. lia.
Qed.

(** The rows of the table. *)
Lemma flash_pattern_cases (flash_type : Z) :
  0 <= flash_type < FLASH_COUNT ->
  flash_type = 0 \/ flash_type = 1 \/ flash_type = 2
  \/ flash_type = 3 \/ flash_type = 4 \/ flash_type = 5.
Proof. unfold FLASH_COUNT. lia. Qed.

Lemma flash_pattern_row_ok (flash_type : Z) :
  0 <= flash_type < FLASH_COUNT ->
  Forall point_ok (flash_pattern_row flash_type)
  /\ row_total (flash_pattern_row flash_type) <= 1000
  /\ 0 <= calculate_flash_length flash_type <= 1000
  /\ exists p rest, flash_pattern_row flash_type = p :: rest.
Proof.
  intros H. apply flash_pattern_cases in H.
  repeat (destruct H as [->|H]); try rewrite H;
    (split; [|split; [|split]];
     [ repeat constructor; cbn; lia
     | vm_compute; discriminate
     | vm_compute; split; discriminate
     | eexists; eexists; reflexivity ]).
Qed.

End PatternFacts.

Section PatternClaims.

Import Fireflies.

(** C7.  For every pattern of the table, [calculate_flash_length] returns
    the sum of the durations of the points up to and including the first
    point whose target is 0.  The pattern of Photinus lewisi is
    [{(500,100),(500,800),(0,100)}], and its length is 1000. *)
Theorem calculate_flash_length_duration (flash_type : Z) :
  0 <= flash_type < FLASH_COUNT ->
  calculate_flash_length flash_type
  = pattern_duration (flash_pattern_row flash_type)
  /\ through_terminator (flash_pattern_row FLASH_PHOTINUS_LEWISI)
     = [mk_point 500 100; mk_point 500 800; mk_point 0 100]
  /\ calculate_flash_length FLASH_PHOTINUS_LEWISI = 1000.
Proof.
  intros H. split; [|split; reflexivity].
  destruct (flash_pattern_row_ok flash_type H) as (Hok & Htot & _ & _).
  unfold calculate_flash_length.
  rewrite flash_length_loop_sum by (assumption || lia). lia.
Qed.

Lemma calculate_flash_length_duration_witness :
  0 <= FLASH_PHOTINUS_XANTHOPHOTIS < FLASH_COUNT
  /\ calculate_flash_length FLASH_PHOTINUS_XANTHOPHOTIS
     = pattern_duration (flash_pattern_row FLASH_PHOTINUS_XANTHOPHOTIS).
Proof.
  assert (H : 0 <= FLASH_PHOTINUS_XANTHOPHOTIS < FLASH_COUNT)
    by (vm_compute; split; [discriminate | reflexivity]).
  split; [exact H|].
  exact (proj1 (calculate_flash_length_duration FLASH_PHOTINUS_XANTHOPHOTIS H)).
Defined.

End PatternClaims.

Section UnsmoothedFacts.

Import Fireflies.

(** What the search loop of [calculate_brightness_unsmoothed] leaves:
    either a cleared current point, or the segment that contains
    [flash_time], with the point before it. *)
Lemma find_flash_point_spec (pts : list flash_point_type) :
  Forall point_ok pts ->
  forall (prv : flash_point_type) (e t : Z),
    0 <= target prv <= 1000 ->
    0 <= e <= t ->
    e + row_total pts <= 1000000 ->
    let '(cur, prv', e') := find_flash_point pts prv e t in
    time cur = 0
    \/ (0 <= target cur <= 1000 /\ 0 <= target prv' <= 1000
        /\ 0 < time cur /\ 0 <= e' - time cur <= t /\ t < e'
        /\ e' <= 1000000).
Proof.
  induction 1 as [|p rest Hp Hrest IH]; intros prv e t Hprv He Hsum.
  - cbn. left. reflexivity.
  - cbn [find_flash_point]. rewrite row_total_cons in Hsum.
    pose proof (row_total_nonneg rest Hrest) as Hnn.
    destruct Hp as [Htp Hdp].
    rewrite add32_id by lia.
    destruct (Z.ltb_spec t (e + time p)) as [Hlt|Hge].
    + right. repeat split; lia.
    + destruct (target p =? 0); [left; reflexivity|].
      apply IH; lia.
Qed.

(** The interpolation stays between the two targets. *)
Lemma interpolation_bounds (c x d p : Z) :
  0 < c <= 1000000 -> 0 <= x < c ->
  0 <= p <= 1000 -> 0 <= p + d <= 1000 ->
  0 <= add32 (div32 (mul32 x d) c) p <= 1000.
Proof.
  intros Hc Hx Hp Hpd.
  assert (Hprod : -1000000000 <= x * d <= 1000000000) by nia.
  rewrite mul32_id by lia.
  assert (Hq : (0 <= d -> 0 <= Z.quot (x * d) c <= d)
               /\ (d < 0 -> d <= Z.quot (x * d) c <= 0)).
  { split; intros Hd.
    - rewrite Z.quot_div_nonneg by nia. split.
      + apply Z.div_pos; nia.
      + apply Z.div_le_upper_bound; nia.
    - replace (x * d) with (- (x * - d)) by lia.
      rewrite Z.quot_opp_l by lia.
      rewrite Z.quot_div_nonneg by nia.
      assert (0 <= (x * - d) / c <= - d); [|lia].
      split.
      + apply Z.div_pos; nia.
      + apply Z.div_le_upper_bound; nia. }
  destruct Hq as [Hq1 Hq2].
  destruct (Z.le_gt_cases 0 d) as [Hd|Hd].
  - specialize (Hq1 Hd). rewrite div32_id by lia. rewrite add32_id by lia. lia.
  - specialize (Hq2 Hd). rewrite div32_id by lia. rewrite add32_id by lia. lia.
Qed.

Lemma calculate_brightness_unsmoothed_bounds (flash_type flash_time : Z) :
  0 <= flash_type < FLASH_COUNT ->
  0 <= calculate_brightness_unsmoothed flash_type flash_time <= 1000.
Proof.
  intros Hid. unfold calculate_brightness_unsmoothed.
  destruct (Z.ltb_spec flash_time 0) as [Hneg|Hpos]; [lia|].
  destruct (flash_pattern_row_ok flash_type Hid) as (Hok & Htot & _ & _).
  pose proof (find_flash_point_spec (flash_pattern_row flash_type) Hok
                flash_point_clear 0 flash_time) as Hspec.
  destruct (find_flash_point (flash_pattern_row flash_type) flash_point_clear
                             0 flash_time) as [[cur prv] e'].
  destruct (Z.eqb_spec (time cur) 0) as [Hz|Hnz]; [lia|].
  destruct Hspec as [Hspec|(Hc & Hp & Ht & Hin & Hlt & He)];
    [cbn; lia | lia | lia | lia |].
  rewrite (sub32_id e' flash_time) by lia.
  rewrite (sub32_id (time cur)) by lia.
  rewrite (sub32_id (target cur)) by lia.
  apply interpolation_bounds; lia.
Qed.

End UnsmoothedFacts.

Section SmoothedFacts.

Import Fireflies.

Variable flash_id : Z.
Hypothesis flash_id_valid : 0 <= flash_id < FLASH_COUNT.

(** One trapezoid added to the running sum. *)
Lemma accumulate_bounds (br b1 b2 t1 t2 S : Z) :
  0 <= b1 <= 1000 -> 0 <= b2 <= 1000 ->
  0 <= t1 <= t2 -> t2 <= 1000000 ->
  -32767 <= S <= t1 ->
  0 <= br <= 2000 * (t1 - S) ->
  add32 br (mul32 (add32 b2 b1) (sub32 t2 t1))
  = br + (b2 + b1) * (t2 - t1)
  /\ br <= br + (b2 + b1) * (t2 - t1) <= 2000 * (t2 - S)
  /\ (1 <= b1 -> 1 <= b2 ->
      br + 2 * (t2 - t1) <= br + (b2 + b1) * (t2 - t1)).
Proof.
  intros Hb1 Hb2 Ht Ht2 HS Hbr.
  assert (Hprod : 0 <= (b2 + b1) * (t2 - t1) <= 2000 * (t2 - t1)) by nia.
  rewrite sub32_id by lia. rewrite (add32_id b2 b1) by lia.
  rewrite mul32_id by lia. rewrite add32_id by lia.
  split; [reflexivity|]. split; [lia|]. intros H1 H2. nia.
Qed.

(** The loop of [calculate_brightness_smoothed]: the running sum is at
    most 2000 times the length of the window covered so far. *)
Lemma smooth_loop_bounds (S E : Z) :
  -32767 <= S -> S < E ->
  forall pts : list flash_point_type,
    Forall point_ok pts ->
    forall fs br : Z,
      0 <= fs -> fs + row_total pts <= 1000000 -> fs <= E ->
      0 <= br <= 2000 * Z.max 0 (fs - S) ->
      br <= smooth_loop flash_id S E pts fs br <= 2000 * (E - S).
Proof.
  intros HS HSE. induction 1 as [|p rest Hp Hrest IH];
    intros fs br Hfs Hsum HfsE Hbr.
  - cbn. lia.
  - cbn [smooth_loop]. rewrite row_total_cons in Hsum.
    pose proof (row_total_nonneg rest Hrest) as Hnn.
    destruct Hp as [_ Hdp].
    rewrite add32_id by lia.
    pose proof (calculate_brightness_unsmoothed_bounds flash_id) as Hu.
    assert (Hm : min_val (fs + time p) E <= E
                 /\ min_val (fs + time p) E <= fs + time p
                 /\ (fs <= E -> fs <= min_val (fs + time p) E)
                 /\ (S < fs + time p -> S <= min_val (fs + time p) E)).
    { unfold min_val. destruct (Z.ltb_spec (fs + time p) E); lia. }
    destruct Hm as (Hm1 & Hm2 & Hm3 & Hm4).
    rewrite Z.geb_leb.
    destruct (Z.leb_spec fs S) as [HfsS|HfsS]; cbn [andb].
    + destruct (Z.ltb_spec S (fs + time p)) as [Hin|Hout].
      * (* the window starts in this segment *)
        destruct (accumulate_bounds br
                    (calculate_brightness_unsmoothed flash_id S)
                    (calculate_brightness_unsmoothed flash_id
                       (min_val (fs + time p) E))
                    S (min_val (fs + time p) E) S) as (Heq & Hb & _);
          try (apply Hu; assumption); try lia.
        rewrite Heq.
        destruct (Z.eqb_spec (min_val (fs + time p) E) E) as [HE|HE]; [lia|].
        destruct (target p =? 0); [lia|].
        pose proof (IH (min_val (fs + time p) E)
                       (br + (calculate_brightness_unsmoothed flash_id
                                (min_val (fs + time p) E)
                              + calculate_brightness_unsmoothed flash_id S)
                             * (min_val (fs + time p) E - S))
                       ltac:(lia) ltac:(lia) ltac:(lia) ltac:(lia)).
        lia.
      * (* the window starts after this segment *)
        replace (S <? fs) with false by (symmetry; apply Z.ltb_ge; lia).
        destruct (target p =? 0); [lia|].
        pose proof (IH (fs + time p) br
                       ltac:(lia) ltac:(lia) ltac:(lia) ltac:(lia)).
        lia.
    + (* the window started before this segment *)
      replace (S <? fs) with true by (symmetry; apply Z.ltb_lt; lia).
      destruct (accumulate_bounds br
                  (calculate_brightness_unsmoothed flash_id fs)
                  (calculate_brightness_unsmoothed flash_id
                     (min_val (fs + time p) E))
                  fs (min_val (fs + time p) E) S) as (Heq & Hb & _);
        try (apply Hu; assumption); try lia.
      rewrite Heq.
      destruct (Z.eqb_spec (min_val (fs + time p) E) E) as [HE|HE]; [lia|].
      destruct (target p =? 0); [lia|].
      pose proof (IH (min_val (fs + time p) E)
                     (br + (calculate_brightness_unsmoothed flash_id
                              (min_val (fs + time p) E)
                            + calculate_brightness_unsmoothed flash_id fs)
                           * (min_val (fs + time p) E - fs))
                     ltac:(lia) ltac:(lia) ltac:(lia) ltac:(lia)).
      lia.
Qed.

(** A window that lies within the times at which the unsmoothed brightness
    is at least 1: the sum is at least twice the length of the window. *)
Lemma smooth_loop_covers (S E L1 : Z) :
  (forall x, 1 <= x <= L1 -> 1 <= calculate_brightness_unsmoothed flash_id x) ->
  1 <= S -> S < E -> E <= L1 ->
  forall pts : list flash_point_type,
    Forall point_ok pts ->
    forall fs br : Z,
      0 <= fs -> fs + row_total pts <= 1000000 -> fs <= E ->
      E < fs + pattern_duration pts ->
      0 <= br <= 2000 * Z.max 0 (fs - S) ->
      2 * Z.max 0 (fs - S) <= br ->
      2 * (E - S) <= smooth_loop flash_id S E pts fs br.
Proof.
  intros Hu1 HS HSE HE1. induction 1 as [|p rest Hp Hrest IH];
    intros fs br Hfs Hsum HfsE Hend Hbr Hlow.
  - cbn in Hend. lia.
  - cbn [smooth_loop]. rewrite row_total_cons in Hsum.
    rewrite pattern_duration_cons in Hend.
    pose proof (row_total_nonneg rest Hrest) as Hnn.
    destruct Hp as [_ Hdp].
    rewrite add32_id by lia.
    pose proof (calculate_brightness_unsmoothed_bounds flash_id) as Hu.
    assert (Hm : min_val (fs + time p) E <= E
                 /\ min_val (fs + time p) E <= fs + time p
                 /\ (fs <= E -> fs <= min_val (fs + time p) E)
                 /\ (S < fs + time p -> S < min_val (fs + time p) E)
                 /\ (min_val (fs + time p) E <> E ->
                     min_val (fs + time p) E = fs + time p)).
    { unfold min_val. destruct (Z.ltb_spec (fs + time p) E); lia. }
    destruct Hm as (Hm1 & Hm2 & Hm3 & Hm4 & Hm5).
    rewrite Z.geb_leb.
    destruct (Z.leb_spec fs S) as [HfsS|HfsS]; cbn [andb].
    + destruct (Z.ltb_spec S (fs + time p)) as [Hin|Hout].
      * destruct (accumulate_bounds br
                    (calculate_brightness_unsmoothed flash_id S)
                    (calculate_brightness_unsmoothed flash_id
                       (min_val (fs + time p) E))
                    S (min_val (fs + time p) E) S) as (Heq & Hb & Hlb);
          try (apply Hu; assumption); try lia.
        specialize (Hlb (Hu1 S ltac:(lia))
                        (Hu1 (min_val (fs + time p) E) ltac:(lia))).
        rewrite Heq.
        destruct (Z.eqb_spec (min_val (fs + time p) E) E) as [HE|HE]; [lia|].
        specialize (Hm5 HE).
        destruct (Z.eqb_spec (target p) 0) as [Ht|Ht]; [lia|].
        apply IH; lia.
      * replace (S <? fs) with false by (symmetry; apply Z.ltb_ge; lia).
        destruct (Z.eqb_spec (target p) 0) as [Ht|Ht]; [lia|].
        apply IH; lia.
    + replace (S <? fs) with true by (symmetry; apply Z.ltb_lt; lia).
      destruct (accumulate_bounds br
                  (calculate_brightness_unsmoothed flash_id fs)
                  (calculate_brightness_unsmoothed flash_id
                     (min_val (fs + time p) E))
                  fs (min_val (fs + time p) E) S) as (Heq & Hb & Hlb);
        try (apply Hu; assumption); try lia.
      specialize (Hlb (Hu1 fs ltac:(lia))
                      (Hu1 (min_val (fs + time p) E) ltac:(lia))).
      rewrite Heq.
      destruct (Z.eqb_spec (min_val (fs + time p) E) E) as [HE|HE]; [lia|].
      specialize (Hm5 HE).
      destruct (Z.eqb_spec (target p) 0) as [Ht|Ht]; [lia|].
      apply IH; lia.
Qed.

Lemma row_total_app (l1 l2 : list flash_point_type) :
  row_total (l1 ++ l2) = row_total l1 + row_total l2.
Proof.
  induction l1 as [|p l1 IH]; [reflexivity|].
  cbn [app]. rewrite !row_total_cons, IH. lia.
Qed.

(** A window that starts at or before the last segment of the pattern and
    ends at or after its end: the sum is at least the trapezoid of the last
    segment. *)
Lemma smooth_loop_last_segment (S E : Z)
      (last : flash_point_type) (tail : list flash_point_type) :
  -32767 <= S -> S < E ->
  point_ok last -> 0 < time last -> Forall point_ok tail ->
  forall pre : list flash_point_type,
    Forall point_ok pre ->
    Forall (fun p => target p <> 0) pre ->
    forall fs br : Z,
      0 <= fs ->
      fs + row_total (pre ++ last :: tail) <= 1000000 ->
      S <= fs + row_total pre ->
      fs + row_total pre + time last <= E ->
      0 <= br <= 2000 * Z.max 0 (fs - S) ->
      (calculate_brightness_unsmoothed
         flash_id (fs + row_total pre + time last)
       + calculate_brightness_unsmoothed flash_id (fs + row_total pre))
      * time last
      <= smooth_loop flash_id S E (pre ++ last :: tail) fs br.
Proof.
  intros HS HSE Hlast Htl Htail.
  pose proof (calculate_brightness_unsmoothed_bounds flash_id) as Hu.
  pose proof (row_total_nonneg tail Htail) as Hnt.
  induction pre as [|p pre IH]; intros Hpre Hnz fs br Hfs Hsum HSfs HE Hbr.
  - cbn [app] in *. change (row_total []) with 0 in *.
    rewrite row_total_cons in Hsum.
    replace (fs + 0) with fs in * by lia.
    cbn [smooth_loop]. rewrite add32_id by lia.
    assert (Hm : min_val (fs + time last) E = fs + time last).
    { unfold min_val. destruct (Z.ltb_spec (fs + time last) E); lia. }
    rewrite Hm.
    assert (Hstart :
              (if (S >=? fs) && (S <? fs + time last) then Some S
               else if S <? fs then Some fs else None) = Some fs).
    { rewrite Z.geb_leb.
      destruct (Z.leb_spec fs S); cbn [andb].
      - replace S with fs by lia.
        replace (fs <? fs + time last) with true
          by (symmetry; apply Z.ltb_lt; lia).
        reflexivity.
      - replace (S <? fs) with true by (symmetry; apply Z.ltb_lt; lia).
        reflexivity. }
    rewrite Hstart.
    destruct (accumulate_bounds br
                (calculate_brightness_unsmoothed flash_id fs)
                (calculate_brightness_unsmoothed flash_id (fs + time last))
                fs (fs + time last) S) as (Heq & Hb & _);
      try (apply Hu; assumption); try lia.
    rewrite Heq.
    replace (fs + time last - fs) with (time last) in * by lia.
    destruct (fs + time last =? E); [lia|].
    destruct (target last =? 0); [lia|].
    pose proof (smooth_loop_bounds S E HS HSE tail Htail (fs + time last)
                  (br + (calculate_brightness_unsmoothed
                           flash_id (fs + time last)
                         + calculate_brightness_unsmoothed flash_id fs)
                        * time last)
                  ltac:(lia) ltac:(lia) ltac:(lia) ltac:(lia)).
    lia.
  - cbn [app] in *. rewrite row_total_cons in Hsum, HSfs, HE |- *.
    rewrite row_total_app, row_total_cons in Hsum.
    inversion Hpre as [|? ? [_ Hdp] Hpre']; subst.
    inversion Hnz as [|? ? Hnzp Hnz']; subst.
    pose proof (row_total_nonneg pre Hpre') as Hnp.
    cbn [smooth_loop]. rewrite add32_id by lia.
    replace (target p =? 0) with false by (symmetry; now apply Z.eqb_neq).
    assert (Hm : min_val (fs + time p) E = fs + time p).
    { unfold min_val. destruct (Z.ltb_spec (fs + time p) E); lia. }
    rewrite Hm.
    replace (fs + time p =? E) with false by (symmetry; apply Z.eqb_neq; lia).
    assert (Hrec : forall br',
               0 <= br' <= 2000 * Z.max 0 (fs + time p - S) ->
               (calculate_brightness_unsmoothed
                  flash_id (fs + (time p + row_total pre) + time last)
                + calculate_brightness_unsmoothed
                    flash_id (fs + (time p + row_total pre)))
               * time last
               <= smooth_loop flash_id S E (pre ++ last :: tail)
                              (fs + time p) br').
    { intros br' Hbr'.
      replace (fs + (time p + row_total pre))
        with (fs + time p + row_total pre) by lia.
      apply IH; try assumption; try lia.
      rewrite row_total_app, row_total_cons. lia. }
    rewrite Z.geb_leb.
    destruct (Z.leb_spec fs S) as [HfsS|HfsS]; cbn [andb].
    + destruct (Z.ltb_spec S (fs + time p)) as [Hin|Hout].
      * destruct (accumulate_bounds br
                    (calculate_brightness_unsmoothed flash_id S)
                    (calculate_brightness_unsmoothed flash_id (fs + time p))
                    S (fs + time p) S) as (Heq & Hb & _);
          try (apply Hu; assumption); try lia.
        rewrite Heq. apply Hrec. lia.
      * replace (S <? fs) with false by (symmetry; apply Z.ltb_ge; lia).
        apply Hrec. lia.
    + replace (S <? fs) with true by (symmetry; apply Z.ltb_lt; lia).
      destruct (accumulate_bounds br
                  (calculate_brightness_unsmoothed flash_id fs)
                  (calculate_brightness_unsmoothed flash_id (fs + time p))
                  fs (fs + time p) S) as (Heq & Hb & _);
        try (apply Hu; assumption); try lia.
      rewrite Heq. apply Hrec. lia.
Qed.

(** The window of a smoothing that is not negative. *)
Lemma smoothing_window (smoothing : Z) :
  0 <= smoothing <= 32767 ->
  0 <= Z.shiftr smoothing 1 <= 16383
  /\ wrap_s16 (add32 (Z.shiftl (Z.shiftr smoothing 1) 1) 1)
     = 2 * Z.shiftr smoothing 1 + 1.
Proof.
  intros H.
  assert (Hh : 0 <= Z.shiftr smoothing 1 <= 16383).
  { rewrite Z.shiftr_div_pow2 by lia. change (2 ^ 1) with 2.
    pose proof (Z.div_pos smoothing 2).
    pose proof (Z.div_lt_upper_bound smoothing 2 16384). lia. }
  split; [exact Hh|].
  rewrite Z.shiftl_mul_pow2 by lia. change (2 ^ 1) with 2.
  rewrite add32_id by lia. rewrite wrap_s16_id by lia. lia.
Qed.

Lemma calculate_brightness_smoothed_bounds (flash_time smoothing : Z) :
  0 <= smoothing <= 32767 ->
  0 <= calculate_brightness_smoothed flash_id flash_time smoothing <= 1000.
Proof.
  intros Hs. unfold calculate_brightness_smoothed.
  destruct (smoothing_window smoothing Hs) as [Hh Hw]. rewrite Hw.
  set (half := Z.shiftr smoothing 1) in *.
  set (S := sub32 flash_time half).
  destruct (flash_pattern_row_ok flash_id flash_id_valid)
    as (Hok & Htot & HL & _).
  destruct (Z.ltb_spec (add32 S (2 * half + 1)) 0) as [Hend|Hend];
    cbn [orb]; [lia|].
  rewrite Z.gtb_ltb.
  destruct (Z.ltb_spec (calculate_flash_length flash_id) S) as [Hst|Hst];
    [lia|].
  pose proof (wrap_s32_range (flash_time - half)) as HS. fold (sub32 flash_time half) in HS.
  fold S in HS.
  rewrite add32_id in * by lia.
  rewrite mul32_id by lia.
  pose proof (smooth_loop_bounds S (S + (2 * half + 1)) ltac:(lia) ltac:(lia)
                (flash_pattern_row flash_id) Hok 0 0
                ltac:(lia) ltac:(lia) ltac:(lia) ltac:(lia)) as Hloop.
  set (br := smooth_loop flash_id S (S + (2 * half + 1))
                         (flash_pattern_row flash_id) 0 0) in *.
  assert (Hq : 0 <= Z.quot br (2 * (2 * half + 1)) <= 1000).
  { rewrite Z.quot_div_nonneg by lia. split.
    - apply Z.div_pos; lia.
    - apply Z.div_le_upper_bound; lia. }
  rewrite div32_id by lia. exact Hq.
Qed.

End SmoothedFacts.

Section BrightnessClaims.

Import Fireflies.

(** C9.  For every pattern of the table, every flash time and every
    smoothing that is not negative, the two brightness functions return a
    value in [0, 1000]. *)
Theorem brightness_in_range (flash_id flash_time smoothing : Z) :
  0 <= flash_id < FLASH_COUNT ->
  INT32_MIN <= flash_time <= INT32_MAX ->
  0 <= smoothing <= INT16_MAX ->
  0 <= calculate_brightness_unsmoothed flash_id flash_time <= 1000
  /\ 0 <= calculate_brightness_smoothed flash_id flash_time smoothing <= 1000.
Proof.
  intros Hid _ Hs. unfold INT16_MAX in Hs. split.
  - now apply calculate_brightness_unsmoothed_bounds.
  - now apply calculate_brightness_smoothed_bounds.
Qed.

Lemma brightness_in_range_witness :
  0 <= FLASH_PHOTINUS_AMPLUS < FLASH_COUNT
  /\ INT32_MIN <= 250 <= INT32_MAX
  /\ 0 <= 500 <= INT16_MAX
  /\ 0 <= calculate_brightness_unsmoothed FLASH_PHOTINUS_AMPLUS 250 <= 1000
  /\ 0 <= calculate_brightness_smoothed FLASH_PHOTINUS_AMPLUS 250 500 <= 1000.
Proof.
  assert (H1 : 0 <= FLASH_PHOTINUS_AMPLUS < FLASH_COUNT)
    by (vm_compute; split; [discriminate | reflexivity]).
  assert (H2 : INT32_MIN <= 250 <= INT32_MAX)
    by (vm_compute; split; discriminate).
  assert (H3 : 0 <= 500 <= INT16_MAX) by (vm_compute; split; discriminate).
  split; [exact H1|]. split; [exact H2|]. split; [exact H3|].
  exact (brightness_in_range FLASH_PHOTINUS_AMPLUS 250 500 H1 H2 H3).
Defined.

(** With the window ending at 0 the test of the source does not reject
    (it tests [smooth_end < 0]); the loop then adds one trapezoid of
    length 0 and stops. *)
Lemma smooth_loop_window_ends_at_0 (flash_id S : Z)
      (p : flash_point_type) (rest : list flash_point_type) :
  S < 0 -> 0 <= time p <= 1000000 ->
  smooth_loop flash_id S 0 (p :: rest) 0 0 = 0.
Proof.
  intros HS Hp. cbn [smooth_loop]. rewrite add32_id by lia.
  rewrite Z.geb_leb.
  replace (0 <=? S) with false by (symmetry; apply Z.leb_gt; lia).
  cbn [andb].
  replace (S <? 0) with true by (symmetry; apply Z.ltb_lt; lia).
  replace (min_val (0 + time p) 0) with 0
    by (unfold min_val; destruct (Z.ltb_spec (0 + time p) 0); lia).
  cbn [Z.eqb]. unfold sub32, mul32, add32.
  change (0 - 0) with 0. rewrite (wrap_s32_id 0) by lia.
  rewrite Z.mul_0_r. rewrite (wrap_s32_id 0) by lia. reflexivity.
Qed.

(** C4 as the specification words it fails for a negative smoothing: with
    [smoothing = -1] the window [1, 0) has no point at all, and the
    function returns 2 for the pattern of Photinus lewisi at time 0. *)
Lemma smoothing_window_counterexample :
  window_outside 0 (-1) (calculate_flash_length FLASH_PHOTINUS_LEWISI)
  /\ calculate_brightness_smoothed FLASH_PHOTINUS_LEWISI 0 (-1) = 2
  /\ calculate_brightness_smoothed FLASH_PHOTINUS_LEWISI 0 (-1) <> 0.
Proof.
  split; [|split].
  - unfold window_outside. cbv zeta.
    change (Z.shiftr (-1) 1) with (-1). intros x Hx. lia.
  - reflexivity.
  - vm_compute. discriminate.
Qed.

(** C4, for a smoothing that is not negative.  When no point of the
    window [t - half, t - half + width) lies in [0, pattern_length], the
    smoothed brightness is 0. *)
Theorem smoothed_zero_outside_window (flash_id flash_time smoothing : Z) :
  0 <= flash_id < FLASH_COUNT ->
  INT32_MIN <= flash_time <= INT32_MAX ->
  0 <= smoothing <= INT16_MAX ->
  window_outside flash_time smoothing (calculate_flash_length flash_id) ->
  calculate_brightness_smoothed flash_id flash_time smoothing = 0.
Proof.
  intros Hid Ht Hs Hout. unfold INT32_MIN, INT32_MAX in Ht.
  unfold INT16_MAX in Hs. unfold window_outside in Hout. cbv zeta in Hout.
  unfold calculate_brightness_smoothed.
  destruct (smoothing_window smoothing Hs) as [Hh Hw]. rewrite Hw.
  set (half := Z.shiftr smoothing 1) in *.
  destruct (flash_pattern_row_ok flash_id Hid) as (Hok & Htot & HL & p & rest & Hrow).
  set (L := calculate_flash_length flash_id) in *.
  (* the first and the last point of the window, and 0, are outside *)
  pose proof (Hout (flash_time - half) ltac:(lia)) as Hfirst.
  pose proof (Hout (flash_time + half) ltac:(lia)) as Hlast.
  assert (Hside : flash_time + half < 0 \/ L < flash_time - half).
  { destruct Hfirst as [Hf|Hf]; [|right; exact Hf].
    destruct Hlast as [Hl|Hl]; [left; exact Hl|].
    exfalso. destruct (Hout 0 ltac:(lia)); lia. }
  destruct Hside as [Hleft|Hright].
  - (* the window ends at or before 0 *)
    destruct (Z.le_gt_cases (-2147483648) (flash_time - half)) as [Hin|Hunder].
    + rewrite (sub32_id flash_time half) by lia.
      rewrite add32_id by lia.
      destruct (Z.ltb_spec (flash_time - half + (2 * half + 1)) 0) as [Hneg|Hz];
        cbn [orb]; [reflexivity|].
      destruct (flash_time - half >? L); [reflexivity|].
      assert (Hend : flash_time - half + (2 * half + 1) = 0) by lia.
      rewrite Hend, Hrow.
      rewrite smooth_loop_window_ends_at_0.
      * unfold div32. rewrite Z.quot_0_l; [apply wrap_s32_id; lia|].
        rewrite mul32_id by lia. lia.
      * lia.
      * rewrite Hrow in Hok, Htot. inversion Hok as [|? ? [_ Hp] Hr]; subst.
        rewrite row_total_cons in Htot.
        pose proof (row_total_nonneg rest Hr). lia.
    + unfold sub32 at 1 2. rewrite (wrap_s32_below (flash_time - half)) by lia.
      replace (flash_time - half + 4294967296 >? L) with true
        by (symmetry; apply Z.gtb_lt; lia).
      now rewrite orb_true_r.
  - (* the window starts after the pattern *)
    rewrite (sub32_id flash_time half) by lia.
    replace (flash_time - half >? L) with true
      by (symmetry; apply Z.gtb_lt; lia).
    now rewrite orb_true_r.
Qed.

Lemma smoothed_zero_outside_window_witness :
  0 <= FLASH_PHOTINUS_LEWISI < FLASH_COUNT
  /\ INT32_MIN <= -26 <= INT32_MAX
  /\ 0 <= 50 <= INT16_MAX
  /\ window_outside (-26) 50 (calculate_flash_length FLASH_PHOTINUS_LEWISI)
  /\ calculate_brightness_smoothed FLASH_PHOTINUS_LEWISI (-26) 50 = 0.
Proof.
  assert (H1 : 0 <= FLASH_PHOTINUS_LEWISI < FLASH_COUNT)
    by (vm_compute; split; [discriminate | reflexivity]).
  assert (H2 : INT32_MIN <= -26 <= INT32_MAX)
    by (vm_compute; split; discriminate).
  assert (H3 : 0 <= 50 <= INT16_MAX) by (vm_compute; split; discriminate).
  assert (H4 : window_outside (-26) 50
                 (calculate_flash_length FLASH_PHOTINUS_LEWISI))
    by (unfold window_outside; cbv zeta;
        change (Z.shiftr 50 1) with 25; intros x Hx; lia).
  split; [exact H1|]. split; [exact H2|]. split; [exact H3|].
  split; [exact H4|].
  exact (smoothed_zero_outside_window FLASH_PHOTINUS_LEWISI (-26) 50
           H1 H2 H3 H4).
Defined.

End BrightnessClaims.

Section EngineFacts.

Import Fireflies.

Lemma in_zrange (lo x : Z) (n : nat) :
  lo <= x < lo + Z.of_nat n -> In x (zrange lo n).
Proof.
  intros H. unfold zrange. apply in_map_iff.
  exists (Z.to_nat (x - lo)). split; [lia|].
  apply in_seq. lia.
Qed.

Lemma before_from_terminator (pts : list flash_point_type) :
  pts = before_terminator pts ++ from_terminator pts.
Proof.
  induction pts as [|p rest IH]; [reflexivity|].
  cbn [before_terminator from_terminator].
  destruct (target p =? 0); [reflexivity|]. cbn [app]. now rewrite <- IH.
Qed.

Lemma before_terminator_nonzero (pts : list flash_point_type) :
  Forall (fun p => target p <> 0) (before_terminator pts).
Proof.
  induction pts as [|p rest IH]; [constructor|].
  cbn [before_terminator].
  destruct (Z.eqb_spec (target p) 0); [constructor|].
  constructor; assumption.
Qed.

Lemma terminator_split_ok (pts : list flash_point_type) :
  Forall point_ok pts ->
  Forall point_ok (before_terminator pts)
  /\ Forall point_ok (from_terminator pts).
Proof.
  induction 1 as [|p rest Hp Hrest [IH1 IH2]]; [split; constructor|].
  cbn [before_terminator from_terminator].
  destruct (target p =? 0); split;
    try constructor; try assumption; constructor.
Qed.

(** Checked by evaluation, over the six patterns and the times from 1 to
    the last one before the end of each. *)
Lemma inside_checks :
  forallb inside_check (zrange 0 (Z.to_nat FLASH_COUNT)) = true.
Proof. vm_compute. reflexivity. Qed.

Lemma unsmoothed_inside (id x : Z) :
  0 <= id < FLASH_COUNT ->
  1 <= x <= calculate_flash_length id - 1 ->
  1 <= calculate_brightness_unsmoothed id x.
Proof.
  intros Hid Hx.
  assert (Hin1 : In id (zrange 0 (Z.to_nat FLASH_COUNT)))
    by (apply in_zrange; unfold FLASH_COUNT in *; lia).
  assert (Hin2 : In x (zrange 1 (Z.to_nat (calculate_flash_length id - 1))))
    by (apply in_zrange; lia).
  pose proof (proj1 (forallb_forall inside_check
                       (zrange 0 (Z.to_nat FLASH_COUNT)))
                    inside_checks id Hin1) as H1.
  unfold inside_check in H1.
  pose proof (proj1 (forallb_forall _ _) H1 x Hin2) as H2.
  cbv beta in H2. now apply Z.leb_le in H2.
Qed.

(** The last segment of every pattern starts at 250 or later, and its
    trapezoid is at least 1002, twice the widest window. *)
Lemma pattern_last_segment (id : Z) :
  0 <= id < FLASH_COUNT ->
  exists last tail,
    from_terminator (flash_pattern_row id) = last :: tail
    /\ 0 < time last
    /\ 250 <= row_total (before_terminator (flash_pattern_row id))
    /\ row_total (before_terminator (flash_pattern_row id)) + time last
       = calculate_flash_length id
    /\ pattern_duration (flash_pattern_row id) = calculate_flash_length id
    /\ 1002 <= (calculate_brightness_unsmoothed
                  id (0 + row_total (before_terminator (flash_pattern_row id))
                      + time last)
                + calculate_brightness_unsmoothed
                    id (0 + row_total (before_terminator
                                         (flash_pattern_row id))))
               * time last.
Proof.
  intros H. apply flash_pattern_cases in H.
  repeat (destruct H as [->|H]); try rewrite H;
    (eexists; eexists; split; [reflexivity|];
     repeat split; vm_compute; congruence).
Qed.

(** In the configured range of smoothing, the smoothed brightness is not
    0 at a flash time above half the smoothing and up to the smoothing:
    the window then starts between 1 and 250, inside every pattern. *)
Lemma smoothed_nonzero_up_to_smoothing (id s t : Z) :
  0 <= id < FLASH_COUNT ->
  FIREFLY_SMOOTHING_MIN <= s <= FIREFLY_SMOOTHING_MAX ->
  Z.shiftr s 1 < t <= s ->
  calculate_brightness_smoothed id t (wrap_s16 s) <> 0.
Proof.
  intros Hid Hs Ht.
  unfold FIREFLY_SMOOTHING_MIN, FIREFLY_SMOOTHING_MAX in Hs.
  rewrite wrap_s16_id by lia.
  unfold calculate_brightness_smoothed.
  destruct (smoothing_window s ltac:(lia)) as [Hh Hw]. rewrite Hw.
  assert (Hhalf : s - 250 <= Z.shiftr s 1 <= 250).
  { rewrite Z.shiftr_div_pow2 by lia. change (2 ^ 1) with 2.
    pose proof (Z.div_le_lower_bound s 2 (s - 250)).
    pose proof (Z.div_le_upper_bound s 2 250). lia. }
  set (half := Z.shiftr s 1) in *.
  destruct (flash_pattern_row_ok id Hid) as (Hok & Htot & HL & _).
  destruct (pattern_last_segment id Hid)
    as (last & tail & Hfrom & Htl & Hrt & HrtL & Hdur & Hk).
  set (L := calculate_flash_length id) in *.
  rewrite (sub32_id t half) by lia.
  rewrite add32_id by lia.
  replace (t - half + (2 * half + 1) <? 0) with false
    by (symmetry; apply Z.ltb_ge; lia).
  replace (t - half >? L) with false
    by (symmetry; rewrite Z.gtb_ltb; apply Z.ltb_ge; lia).
  cbn [orb]. rewrite mul32_id by lia.
  set (S := t - half) in *. set (E := S + (2 * half + 1)) in *.
  pose proof (smooth_loop_bounds id Hid S E ltac:(lia) ltac:(lia)
                (flash_pattern_row id) Hok 0 0
                ltac:(lia) ltac:(lia) ltac:(lia) ltac:(lia)) as [_ Hup].
  assert (Hlow : 2 * (2 * half + 1)
                 <= smooth_loop id S E (flash_pattern_row id) 0 0).
  { destruct (Z.le_gt_cases E (L - 1)) as [Hin|Hbeyond].
    - pose proof (smooth_loop_covers id Hid S E (L - 1)
                    (fun x Hx => unsmoothed_inside id x Hid Hx)
                    ltac:(lia) ltac:(lia) Hin
                    (flash_pattern_row id) Hok 0 0
                    ltac:(lia) ltac:(lia) ltac:(lia) ltac:(lia)
                    ltac:(lia) ltac:(lia)).
      lia.
    - destruct (terminator_split_ok _ Hok) as [Hpre Hsuf].
      rewrite Hfrom in Hsuf.
      inversion Hsuf as [|? ? Hlast Htail]; subst.
      pose proof (smooth_loop_last_segment id Hid S E last tail
                    ltac:(lia) ltac:(lia) Hlast Htl Htail
                    (before_terminator (flash_pattern_row id)) Hpre
                    (before_terminator_nonzero _) 0 0 ltac:(lia)) as Hseg.
      rewrite <- Hfrom, <- before_from_terminator in Hseg.
      specialize (Hseg ltac:(lia) ltac:(lia) ltac:(lia) ltac:(lia)).
      lia. }
  set (br := smooth_loop id S E (flash_pattern_row id) 0 0) in *.
  assert (Hq : 1 <= Z.quot br (2 * (2 * half + 1)) <= 1000).
  { rewrite Z.quot_div_nonneg by lia. split.
    - apply Z.div_le_lower_bound; lia.
    - apply Z.div_le_upper_bound; lia. }
  rewrite div32_id by lia. lia.
Qed.

(** *** firefly_step *)

Lemma firefly_step_fields (firefly : firefly_type) (time_step : Z) :
  flash_time (firefly_step firefly time_step)
  = add32 (flash_time firefly) time_step
  /\ brightness (firefly_step firefly time_step)
     = calculate_brightness_smoothed
         (flash_id firefly)
         (add32 (flash_time firefly) time_step)
         (wrap_s16 (smoothing firefly))
  /\ smoothing (firefly_step firefly time_step) = smoothing firefly
  /\ flash_id (firefly_step firefly time_step) = flash_id firefly.
Proof. repeat split. Qed.

(** The flag after a step of a flashing firefly. *)
Lemma firefly_step_flag (firefly : firefly_type) (time_step : Z) :
  flashing firefly = true ->
  (flashing (firefly_step firefly time_step) = false
   <-> brightness (firefly_step firefly time_step) = 0
       /\ smoothing (firefly_step firefly time_step)
          < flash_time (firefly_step firefly time_step)).
Proof.
  intros Hf. unfold firefly_step.
  cbn [flashing brightness smoothing flash_time]. rewrite Hf.
  destruct (Z.eqb_spec
              (calculate_brightness_smoothed
                 (flash_id firefly) (add32 (flash_time firefly) time_step)
                 (wrap_s16 (smoothing firefly))) 0) as [Hb|Hb];
    destruct (Z.ltb_spec (smoothing firefly)
                         (add32 (flash_time firefly) time_step)) as [Hl|Hl];
    cbn [andb]; split; intros H; try discriminate; try reflexivity;
    try (split; assumption); destruct H; lia.
Qed.

(** *** firefly_periodic_callback *)

Variable rand_value : nat -> Z.

(** An iteration writes firefly [i] and no other. *)
Lemma firefly_callback_body_writes (i : nat) (w : world) :
  (firefly_callback_body rand_value i w = Break w
   /\ s_fireflies w !! i = None)
  \/ (exists w' f g,
        firefly_callback_body rand_value i w = Next w'
        /\ s_fireflies w !! i = Some f
        /\ s_fireflies w' = <[i := g]> (s_fireflies w)
        /\ (flashing f = true -> g = firefly_step f FIREFLY_TIMESTEP)).
Proof.
  unfold firefly_callback_body.
  destruct (s_fireflies w !! i) as [f|] eqn:Hf; [right|left; split; reflexivity].
  destruct (flashing f) eqn:Hfl.
  - eexists; eexists; eexists. split; [reflexivity|].
    split; [reflexivity|]. split; [reflexivity|]. intros _. reflexivity.
  - destruct (delay_len f <=? delay_time f);
      (eexists; eexists; eexists; split; [reflexivity|];
       split; [reflexivity|]; split; [reflexivity|];
       intros H; congruence).
Qed.

Lemma rand_range_bounds (r lo hi : Z) :
  0 <= r -> 0 <= lo <= hi -> hi <= 1000000 ->
  lo <= rand_range r lo hi <= hi.
Proof.
  intros Hr Hlo Hhi. unfold rand_range.
  rewrite sub32_id by lia. rewrite (add32_id (hi - lo) 1) by lia.
  pose proof (Z.rem_bound_pos r (hi - lo + 1) Hr ltac:(lia)).
  rewrite add32_id by lia. lia.
Qed.

(** [rand()] returns a value that is not negative. *)
Hypothesis rand_value_nonneg : forall n, 0 <= rand_value n.

Lemma firefly_callback_body_ok (i : nat) (w w' : world) :
  Forall firefly_ok (s_fireflies w) ->
  firefly_callback_body rand_value i w = Next w'
  \/ firefly_callback_body rand_value i w = Break w' ->
  Forall firefly_ok (s_fireflies w').
Proof.
  intros Hok. unfold firefly_callback_body.
  destruct (s_fireflies w !! i) as [f|] eqn:Hf.
  - pose proof (Forall_lookup_1 _ _ _ _ Hok Hf) as [Hid Hsm].
    destruct (flashing f); [|destruct (delay_len f <=? delay_time f)];
      (intros [H|H]; [|discriminate H]); injection H as <-;
      cbn [s_fireflies]; (apply Forall_insert; [exact Hok|]);
      unfold firefly_ok; cbn [flash_id smoothing firefly_step];
      try (split; assumption).
    split.
    + pose proof (rand_range_bounds (rand_value (rand_calls w))
                    FLASH_FIRST FLASH_LAST (rand_value_nonneg _)
                    ltac:(vm_compute; split; discriminate)
                    ltac:(vm_compute; discriminate)) as Hr.
      unfold FLASH_FIRST, FLASH_LAST, FLASH_PHOTINUS_PALLENS,
        FLASH_PHOTINUS_LEUCOPYGE, FLASH_COUNT in *.
      unfold wrap_u8. rewrite Z.mod_small by lia. lia.
    + apply rand_range_bounds;
        [apply rand_value_nonneg
        | vm_compute; split; discriminate
        | vm_compute; discriminate].
  - intros [H|H]; [discriminate H|]. injection H as <-. exact Hok.
Qed.

(** The callback keeps every firefly within the table and the range. *)
Lemma firefly_periodic_callback_ok (w : world) :
  Forall firefly_ok (s_fireflies w) ->
  Forall firefly_ok (s_fireflies (firefly_periodic_callback rand_value w)).
Proof.
  unfold firefly_periodic_callback.
  generalize 0%nat as lo. revert w.
  induction (Z.to_nat NUMBER_OF_FIREFLIES) as [|n IH]; intros w lo Hok;
    [exact Hok|].
  cbn [for_range].
  destruct (firefly_callback_body rand_value lo w) as [w'|w'] eqn:Hb.
  - apply IH. apply (firefly_callback_body_ok lo w w' Hok). now left.
  - apply (firefly_callback_body_ok lo w w' Hok). now right.
Qed.

Lemma firefly_init_ok (d : Leds.leds) :
  Forall firefly_ok (s_fireflies (firefly_init rand_value d)).
Proof.
  unfold firefly_init. cbn [s_fireflies]. apply List.Forall_forall.
  intros f Hin. apply in_map_iff in Hin.
  destruct Hin as (k & <- & _). unfold firefly_ok. cbn [flash_id smoothing].
  vm_compute. repeat split; discriminate.
Qed.

Lemma firefly_callback_loop_before (n : nat) :
  forall (lo : nat) (w : world) (i : nat),
    (i < lo)%nat ->
    s_fireflies (for_range lo n (firefly_callback_body rand_value) w) !! i
    = s_fireflies w !! i.
Proof.
  induction n as [|n IH]; intros lo w i Hi; [reflexivity|].
  cbn [for_range].
  destruct (firefly_callback_body_writes lo w)
    as [[Hb _]|(w' & f & g & Hb & _ & Hw & _)]; rewrite Hb; [reflexivity|].
  rewrite IH by lia. rewrite Hw.
  apply list_lookup_insert_ne. lia.
Qed.

Lemma firefly_callback_loop_flashing (n : nat) :
  forall (lo : nat) (w : world) (i : nat) (f : firefly_type),
    (lo <= i < lo + n)%nat ->
    s_fireflies w !! i = Some f ->
    flashing f = true ->
    s_fireflies (for_range lo n (firefly_callback_body rand_value) w) !! i
    = Some (firefly_step f FIREFLY_TIMESTEP).
Proof.
  induction n as [|n IH]; intros lo w i f Hi Hf Hfl; [lia|].
  cbn [for_range].
  destruct (firefly_callback_body_writes lo w)
    as [[Hb Hnone]|(w' & f0 & g & Hb & Hf0 & Hw & Hg)]; rewrite Hb.
  - exfalso. apply lookup_ge_None in Hnone.
    apply lookup_lt_Some in Hf. lia.
  - destruct (Nat.eq_dec lo i) as [->|Hne].
    + rewrite firefly_callback_loop_before by lia.
      assert (Hff : f0 = f) by congruence. subst f0.
      rewrite Hw. rewrite (Hg Hfl).
      apply list_lookup_insert_eq. now apply lookup_lt_Some in Hf.
    + apply IH; [lia| |assumption].
      rewrite Hw. rewrite list_lookup_insert_ne by lia. exact Hf.
Qed.

End EngineFacts.

Section EngineClaims.

Import Fireflies.

(** C3.  A flashing firefly of the engine (its pattern is one of the
    table, its smoothing lies in the configured range) is stepped by the
    callback, which recomputes the smoothed brightness at the advanced
    flash time.  The flashing flag is cleared if and only if that
    brightness is 0 and the flash time exceeds the [smoothing] field, which
    the specification calls the smoothing half-width.  For the fireflies
    of the engine this is also the case exactly when the brightness is 0
    and the flash time exceeds [smoothing >> 1], half the window. *)
Theorem firefly_flash_ends_iff
        (rand_value : nat -> Z) (w : world) (i : nat) (firefly : firefly_type) :
  s_fireflies w !! i = Some firefly ->
  (i < Z.to_nat NUMBER_OF_FIREFLIES)%nat ->
  flashing firefly = true ->
  firefly_ok firefly ->
  s_fireflies (firefly_periodic_callback rand_value w) !! i
  = Some (firefly_step firefly FIREFLY_TIMESTEP)
  /\ brightness (firefly_step firefly FIREFLY_TIMESTEP)
     = calculate_brightness_smoothed
         (flash_id firefly)
         (flash_time (firefly_step firefly FIREFLY_TIMESTEP))
         (wrap_s16 (smoothing firefly))
  /\ (flashing (firefly_step firefly FIREFLY_TIMESTEP) = false
      <-> brightness (firefly_step firefly FIREFLY_TIMESTEP) = 0
          /\ smoothing (firefly_step firefly FIREFLY_TIMESTEP)
             < flash_time (firefly_step firefly FIREFLY_TIMESTEP))
  /\ (flashing (firefly_step firefly FIREFLY_TIMESTEP) = false
      <-> brightness (firefly_step firefly FIREFLY_TIMESTEP) = 0
          /\ Z.shiftr (smoothing (firefly_step firefly FIREFLY_TIMESTEP)) 1
             < flash_time (firefly_step firefly FIREFLY_TIMESTEP)).
Proof.
  intros Hf Hi Hfl [Hid Hs].
  split; [|split; [reflexivity|]].
  - unfold firefly_periodic_callback.
    apply firefly_callback_loop_flashing; [lia|assumption|assumption].
  - pose proof (firefly_step_flag firefly FIREFLY_TIMESTEP Hfl) as Hflag.
    split; [exact Hflag|].
    rewrite Hflag.
    destruct (firefly_step_fields firefly FIREFLY_TIMESTEP)
      as (Ht & Hb & Hsm & _).
    rewrite Hsm, Hb, Ht.
    assert (Hhalf : Z.shiftr (smoothing firefly) 1 <= smoothing firefly).
    { unfold FIREFLY_SMOOTHING_MIN in Hs.
      rewrite Z.shiftr_div_pow2 by lia. change (2 ^ 1) with 2.
      pose proof (Z.div_le_upper_bound (smoothing firefly) 2 (smoothing firefly)).
      lia. }
    split; intros [H0 Hlt]; (split; [exact H0|]); [lia|].
    destruct (Z.lt_ge_cases (smoothing firefly)
                            (add32 (flash_time firefly) FIREFLY_TIMESTEP))
      as [Hok|Hle]; [exact Hok|].
    exfalso.
    exact (smoothed_nonzero_up_to_smoothing
             (flash_id firefly) (smoothing firefly)
             (add32 (flash_time firefly) FIREFLY_TIMESTEP)
             Hid Hs (conj Hlt Hle) H0).
Qed.

Lemma firefly_flash_ends_iff_witness :
  s_fireflies world_starting !! 3%nat = Some firefly_starting
  /\ (3 < Z.to_nat NUMBER_OF_FIREFLIES)%nat
  /\ flashing firefly_starting = true
  /\ firefly_ok firefly_starting
  /\ s_fireflies (firefly_periodic_callback (fun _ => 0) world_starting)
        !! 3%nat
     = Some (firefly_step firefly_starting FIREFLY_TIMESTEP).
Proof.
  assert (H1 : s_fireflies world_starting !! 3%nat = Some firefly_starting)
    by reflexivity.
  assert (H2 : (3 < Z.to_nat NUMBER_OF_FIREFLIES)%nat)
    by (vm_compute; lia).
  assert (H3 : flashing firefly_starting = true) by reflexivity.
  assert (H4 : firefly_ok firefly_starting)
    by (vm_compute; repeat split; discriminate).
  split; [exact H1|]. split; [exact H2|]. split; [exact H3|].
  split; [exact H4|].
  exact (proj1 (firefly_flash_ends_iff (fun _ => 0) world_starting 3
                  firefly_starting H1 H2 H3 H4)).
Defined.

End EngineClaims.

(** * Further properties of the code *)

(** ** Scheduler: registration and removal *)

Section SchedulerMore.

Import System SystemProps.

Lemma add_loop_first_free (tsk : task_ptr_type) (prd : Z)
      (l : list task_list_type) (j : nat) (e : task_list_type) :
  l !! j = Some e -> task e = NULL ->
  forall (n lo : nat),
    (lo <= j < lo + n)%nat ->
    (forall i e', (lo <= i < j)%nat -> l !! i = Some e' ->
                  task e' <> NULL /\ task e' <> tsk) ->
    for_range lo n (add_task_body tsk prd) l
    = <[j := mk_task tsk (max_val prd 1)]> l.
Proof.
  intros Hj He. induction n as [|n IH]; intros lo Hlo Hbefore; [lia|].
  cbn [for_range]. unfold add_task_body at 1.
  destruct (Nat.eq_dec lo j) as [->|Hne].
  - rewrite Hj. destruct (decide (task e = NULL)); [reflexivity|congruence].
  - destruct (l !! lo) as [e'|] eqn:He'.
    + destruct (Hbefore lo e' ltac:(lia) He') as [H1 H2].
      destruct (decide (task e' = NULL)); [congruence|].
      destruct (decide (task e' = tsk)); [congruence|].
      apply IH; [lia|]. intros i e'' Hi. apply Hbefore. lia.
    + exfalso. apply lookup_ge_None in He'. apply lookup_lt_Some in Hj. lia.
Qed.

(** X1.  [system_add_task] stores the task, with its period raised to at
    least 1, in the first empty slot, when the task is not registered in a
    slot before it; no other slot changes, nor the counter. *)
Theorem system_add_task_first_free
        (tsk : task_ptr_type) (prd : Z) (s : sched) (j : nat) :
  (j < SYSTEM_TASKS_MAX)%nat ->
  (exists e, s_task_list s !! j = Some e /\ task e = NULL) ->
  (forall i e', (i < j)%nat -> s_task_list s !! i = Some e' ->
                task e' <> NULL /\ task e' <> tsk) ->
  s_task_list (system_add_task tsk prd s)
  = <[j := mk_task tsk (max_val prd 1)]> (s_task_list s)
  /\ 1 <= max_val prd 1
  /\ counter (system_add_task tsk prd s) = counter s.
Proof.
  intros Hj (e & He & Hnull) Hbefore. split; [|split; [|reflexivity]].
  - unfold system_add_task. cbn [s_task_list].
    apply (add_loop_first_free tsk prd _ j e He Hnull); [lia|].
    intros i e' Hi. apply Hbefore. lia.
  - unfold max_val. destruct (Z.gtb_spec prd 1); lia.
Qed.

Lemma system_add_task_first_free_witness :
  (2 < SYSTEM_TASKS_MAX)%nat
  /\ s_task_list (system_add_task callback_c 0 two_tasks_of_period_5)
     = <[2%nat := mk_task callback_c 1]> (s_task_list two_tasks_of_period_5).
Proof.
  assert (H1 : (2 < SYSTEM_TASKS_MAX)%nat) by (unfold SYSTEM_TASKS_MAX; lia).
  split; [exact H1|].
  refine (proj1 (system_add_task_first_free callback_c 0 two_tasks_of_period_5
                   2 H1 _ _)).
  - exists (mk_task NULL 0). split; reflexivity.
  - intros i e' Hi He'.
    destruct i as [|[|i]]; [| |lia]; vm_compute in He';
      injection He' as <-; split; discriminate.
Defined.

(** X2.  With every slot occupied, [system_add_task] changes nothing,
    whatever the task and the period. *)
Theorem system_add_task_at_capacity
        (tsk : task_ptr_type) (prd : Z) (s : sched) :
  Forall (fun e => task e <> NULL) (s_task_list s) ->
  system_add_task tsk prd s = s.
Proof.
  intros Hfull. destruct s as [l c]. unfold system_add_task.
  cbn [s_task_list counter] in *. f_equal.
  apply add_loop_no_empty_slot.
  intros i e _ He. exact (Forall_lookup_1 _ _ _ _ Hfull He).
Qed.

Lemma system_add_task_at_capacity_witness :
  Forall (fun e => task e <> NULL) (s_task_list sched_full)
  /\ system_add_task (task_at 11) 3 sched_full = sched_full.
Proof.
  assert (H : Forall (fun e => task e <> NULL) (s_task_list sched_full))
    by (set (l := s_task_list sched_full); vm_compute in l; subst l;
        repeat (apply Forall_cons; [cbn; discriminate|]); apply Forall_nil).
  split; [exact H|].
  exact (system_add_task_at_capacity (task_at 11) 3 sched_full H).
Defined.

(** X3.  Registering a task that is already registered changes nothing,
    when no empty slot lies before its registration. *)
Theorem system_add_task_again
        (tsk : task_ptr_type) (prd : Z) (s : sched) (j : nat) :
  (j < SYSTEM_TASKS_MAX)%nat ->
  tsk <> NULL ->
  (exists e, s_task_list s !! j = Some e /\ task e = tsk) ->
  (forall i e, (i < j)%nat -> s_task_list s !! i = Some e -> task e <> NULL) ->
  system_add_task tsk prd s = s.
Proof.
  intros Hj Hnn (e & He & Ht) Hbefore. destruct s as [l c].
  unfold system_add_task. cbn [s_task_list counter] in *. f_equal.
  apply (add_loop_registered tsk prd l j e He Ht); [lia| |assumption].
  intros i e' Hi. apply Hbefore. lia.
Qed.

Lemma system_add_task_again_witness :
  (1 < SYSTEM_TASKS_MAX)%nat
  /\ callback_b <> NULL
  /\ system_add_task callback_b 7 two_tasks_of_period_5 = two_tasks_of_period_5.
Proof.
  assert (H1 : (1 < SYSTEM_TASKS_MAX)%nat) by (unfold SYSTEM_TASKS_MAX; lia).
  assert (H2 : callback_b <> NULL) by discriminate.
  split; [exact H1|]. split; [exact H2|].
  refine (system_add_task_again callback_b 7 two_tasks_of_period_5 1 H1 H2 _ _).
  - exists (mk_task callback_b 5). split; reflexivity.
  - intros i e Hi He. destruct i as [|i]; [|lia].
    vm_compute in He. injection He as <-. discriminate.
Defined.


Lemma remove_loop_lookup (tsk : task_ptr_type) (n : nat) :
  forall (lo : nat) (l : list task_list_type) (i : nat),
    for_range lo n (remove_task_body tsk) l !! i
    = if bool_decide (lo <= i < lo + n)%nat
      then remove_entry tsk <$> l !! i
      else l !! i.
Proof.
  induction n as [|n IH]; intros lo l i.
  - cbn [for_range]. rewrite bool_decide_eq_false_2 by lia. reflexivity.
  - cbn [for_range]. unfold remove_task_body at 1.
    destruct (l !! lo) as [e|] eqn:He.
    + destruct (decide (task e = tsk)) as [Ht|Ht]; rewrite IH.
      * destruct (bool_decide_reflect (S lo <= i < S lo + n)%nat) as [Hin|Hout].
        -- rewrite bool_decide_eq_true_2 by lia.
           rewrite list_lookup_insert_ne by lia. reflexivity.
        -- destruct (Nat.eq_dec lo i) as [<-|Hne].
           ++ rewrite bool_decide_eq_true_2 by lia.
              rewrite list_lookup_insert_eq by (now apply lookup_lt_Some in He).
              rewrite He. cbn. unfold remove_entry.
              destruct (decide (task e = tsk)); [reflexivity|contradiction].
           ++ rewrite bool_decide_eq_false_2 by lia.
              now rewrite list_lookup_insert_ne.
      * destruct (bool_decide_reflect (S lo <= i < S lo + n)%nat) as [Hin|Hout].
        -- rewrite bool_decide_eq_true_2 by lia. reflexivity.
        -- destruct (Nat.eq_dec lo i) as [<-|Hne].
           ++ rewrite bool_decide_eq_true_2 by lia.
              rewrite He. cbn. unfold remove_entry.
              destruct (decide (task e = tsk)); [contradiction|reflexivity].
           ++ rewrite bool_decide_eq_false_2 by lia. reflexivity.
    + destruct (bool_decide_reflect (lo <= i < lo + S n)%nat) as [Hin|Hout];
        [|reflexivity].
      apply lookup_ge_None in He.
      rewrite (proj2 (lookup_ge_None l i)) by lia. reflexivity.
Qed.

Lemma remove_loop_map (tsk : task_ptr_type) (l : list task_list_type) :
  length l = SYSTEM_TASKS_MAX ->
  for_range 0 SYSTEM_TASKS_MAX (remove_task_body tsk) l
  = map (remove_entry tsk) l.
Proof.
  intros Hlen. apply list_eq. intros i.
  rewrite remove_loop_lookup, list_lookup_fmap.
  destruct (bool_decide_reflect (0 <= i < 0 + SYSTEM_TASKS_MAX)%nat) as [Hin|Hout];
    [reflexivity|].
  rewrite (proj2 (lookup_ge_None l i)) by lia. reflexivity.
Qed.

Lemma registrations_cons (tsk : task_ptr_type) (e : task_list_type)
      (l : list task_list_type) :
  registrations tsk (e :: l)
  = ((if decide (task e = tsk) then 1 else 0) + registrations tsk l)%nat.
Proof.
  unfold registrations. rewrite filter_cons.
  destruct (decide (task e = tsk)); reflexivity.
Qed.

(** X4.  [system_remove_task] clears every slot that holds the task, to
    [{ NULL, 0 }], and leaves the other slots and the counter as they are;
    afterwards the task has no registration, also when it had several. *)
Theorem system_remove_task_clears (tsk : task_ptr_type) (s : sched) :
  length (s_task_list s) = SYSTEM_TASKS_MAX ->
  tsk <> NULL ->
  s_task_list (system_remove_task tsk s)
  = map (remove_entry tsk) (s_task_list s)
  /\ registrations tsk (s_task_list (system_remove_task tsk s)) = 0%nat
  /\ counter (system_remove_task tsk s) = counter s.
Proof.
  intros Hlen Hnn. unfold system_remove_task. cbn [s_task_list counter].
  rewrite remove_loop_map by assumption.
  split; [reflexivity|]. split; [|reflexivity].
  clear Hlen. generalize (s_task_list s) as l.
  induction l as [|e l IH]; [reflexivity|].
  cbn [map]. rewrite registrations_cons, IH.
  unfold remove_entry. destruct (decide (task e = tsk)) as [Ht|Ht]; cbn [task].
  - destruct (decide (NULL = tsk)); [congruence|reflexivity].
  - destruct (decide (task e = tsk)); [contradiction|reflexivity].
Qed.

Lemma system_remove_task_clears_witness :
  length (s_task_list reregistered_after_remove) = SYSTEM_TASKS_MAX
  /\ callback_b <> NULL
  /\ registrations callback_b (s_task_list reregistered_after_remove) = 2%nat
  /\ registrations callback_b
       (s_task_list (system_remove_task callback_b reregistered_after_remove))
     = 0%nat.
Proof.
  assert (H1 : length (s_task_list reregistered_after_remove)
               = SYSTEM_TASKS_MAX) by reflexivity.
  assert (H2 : callback_b <> NULL) by discriminate.
  split; [exact H1|]. split; [exact H2|]. split; [reflexivity|].
  exact (proj1 (proj2 (system_remove_task_clears
                         callback_b reregistered_after_remove H1 H2))).
Defined.

Lemma add_loop_inv (tsk : task_ptr_type) (prd : Z) (n : nat) :
  forall (lo : nat) (l : list task_list_type),
    sched_inv l -> sched_inv (for_range lo n (add_task_body tsk prd) l).
Proof.
  induction n as [|n IH]; intros lo l Hinv; [exact Hinv|].
  cbn [for_range]. unfold add_task_body at 1.
  destruct (l !! lo) as [e|]; [|exact Hinv].
  destruct (decide (task e = NULL)).
  - destruct Hinv as [Hlen Hper]. split.
    + now rewrite length_insert.
    + apply Forall_insert; [exact Hper|]. cbn [task period]. intros _.
      unfold max_val. destruct (Z.gtb_spec prd 1); lia.
  - destruct (decide (task e = tsk)); [exact Hinv|]. now apply IH.
Qed.

Lemma remove_loop_inv (tsk : task_ptr_type) (n : nat) :
  forall (lo : nat) (l : list task_list_type),
    sched_inv l -> sched_inv (for_range lo n (remove_task_body tsk) l).
Proof.
  induction n as [|n IH]; intros lo l Hinv; [exact Hinv|].
  cbn [for_range]. unfold remove_task_body at 1.
  destruct (l !! lo) as [e|]; [|exact Hinv].
  destruct (decide (task e = tsk)); apply IH; [|exact Hinv].
  destruct Hinv as [Hlen Hper]. split.
  - now rewrite length_insert.
  - apply Forall_insert; [exact Hper|]. cbn [task period]. congruence.
Qed.

(** X5.  The task list keeps its size, and every occupied slot keeps a
    period of at least 1, through every registration and removal; the list
    after reset is such a list.  A tick therefore never takes a remainder
    by zero for an occupied slot. *)
Theorem scheduler_invariant
        (tsk : task_ptr_type) (prd : Z) (s : sched) :
  sched_inv (s_task_list s) ->
  sched_inv (s_task_list (system_add_task tsk prd s))
  /\ sched_inv (s_task_list (system_remove_task tsk s))
  /\ sched_inv (s_task_list sched_reset).
Proof.
  intros Hinv. split; [|split].
  - now apply add_loop_inv.
  - now apply remove_loop_inv.
  - split; [reflexivity|]. apply Forall_replicate. cbn. congruence.
Qed.

Lemma scheduler_invariant_witness :
  sched_inv (s_task_list two_tasks_of_period_5)
  /\ sched_inv (s_task_list (system_add_task callback_c 0
                               two_tasks_of_period_5)).
Proof.
  assert (H : sched_inv (s_task_list two_tasks_of_period_5)).
  { split; [reflexivity|].
    set (l := s_task_list two_tasks_of_period_5). vm_compute in l. subst l.
    repeat (apply Forall_cons; [cbn; intros; first [lia|congruence]|]).
    apply Forall_nil. }
  split; [exact H|].
  exact (proj1 (scheduler_invariant callback_c 0 two_tasks_of_period_5 H)).
Defined.

Lemma map_remove_entry_absent (tsk : task_ptr_type) (l : list task_list_type) :
  Forall (fun e => task e <> tsk) l -> map (remove_entry tsk) l = l.
Proof.
  induction 1 as [|e l He _ IH]; [reflexivity|].
  cbn [map]. rewrite IH. unfold remove_entry.
  destruct (decide (task e = tsk)); [contradiction|reflexivity].
Qed.

(** X6.  Registering a task that was not registered and removing it again
    gives back the scheduler as it was, when the slot it took was empty
    with period 0 (as after reset or after a removal). *)
Theorem system_add_then_remove
        (tsk : task_ptr_type) (prd : Z) (s : sched) (j : nat) :
  length (s_task_list s) = SYSTEM_TASKS_MAX ->
  tsk <> NULL ->
  Forall (fun e => task e <> tsk) (s_task_list s) ->
  s_task_list s !! j = Some (mk_task NULL 0) ->
  (forall i e, (i < j)%nat -> s_task_list s !! i = Some e -> task e <> NULL) ->
  system_remove_task tsk (system_add_task tsk prd s) = s.
Proof.
  intros Hlen Hnn Habsent Hj Hbefore. destruct s as [l c].
  cbn [s_task_list] in *.
  assert (Hjlt : (j < SYSTEM_TASKS_MAX)%nat)
    by (apply lookup_lt_Some in Hj; lia).
  assert (Hadd : for_range 0 SYSTEM_TASKS_MAX (add_task_body tsk prd) l
                 = <[j := mk_task tsk (max_val prd 1)]> l).
  { apply (add_loop_first_free tsk prd l j _ Hj eq_refl); [lia|].
    intros i e' Hi He'. split; [apply (Hbefore i e'); [lia|exact He']|].
    exact (Forall_lookup_1 _ _ _ _ Habsent He'). }
  unfold system_remove_task, system_add_task. cbn [s_task_list counter].
  f_equal. rewrite Hadd.
  rewrite remove_loop_map by (now rewrite length_insert).
  rewrite list_fmap_insert.
  change (map (remove_entry tsk) l) with (remove_entry tsk <$> l).
  change (remove_entry tsk <$> l) with (map (remove_entry tsk) l).
  rewrite map_remove_entry_absent by assumption.
  unfold remove_entry. cbn [task].
  destruct (decide (tsk = tsk)); [|contradiction].
  now apply list_insert_id.
Qed.

Lemma system_add_then_remove_witness :
  length (s_task_list two_tasks_of_period_5) = SYSTEM_TASKS_MAX
  /\ callback_c <> NULL
  /\ system_remove_task callback_c
       (system_add_task callback_c 4 two_tasks_of_period_5)
     = two_tasks_of_period_5.
Proof.
  assert (H1 : length (s_task_list two_tasks_of_period_5) = SYSTEM_TASKS_MAX)
    by reflexivity.
  assert (H2 : callback_c <> NULL) by discriminate.
  split; [exact H1|]. split; [exact H2|].
  refine (system_add_then_remove callback_c 4 two_tasks_of_period_5 2
            H1 H2 _ _ _).
  - set (l := s_task_list two_tasks_of_period_5). vm_compute in l. subst l.
    repeat (apply Forall_cons; [cbn; discriminate|]). apply Forall_nil.
  - reflexivity.
  - intros i e Hi He. destruct i as [|[|i]]; [| |lia]; vm_compute in He;
      injection He as <-; discriminate.
Defined.

End SchedulerMore.

(** ** Scheduler: ticks *)

Section SchedulerTicks.

Import System SystemProps.

Variable rem_by_zero : Z -> Z.

(** Whether the tick that follows [s] calls slot [i]. *)
Lemma called_tick (s : sched) (i : nat) (tsk : task_ptr_type) (P : Z) :
  s_task_list s !! i = Some (mk_task tsk P) ->
  (i < SYSTEM_TASKS_MAX)%nat -> tsk <> NULL -> 1 <= P ->
  called i (snd (execute_tasks rem_by_zero s))
  = (wrap_u32 (wrap_u32 (counter s + 1) + Z.of_nat i) mod P =? 0).
Proof.
  intros He Hi Htsk HP. rewrite execute_tasks_trace. cbn [snd].
  rewrite (called_flat_map rem_by_zero _ _ i _ He).
  cbn [period task]. unfold urem32.
  replace (P =? 0) with false by (symmetry; apply Z.eqb_neq; lia).
  rewrite (bool_decide_eq_false_2 _ Htsk).
  replace (Nat.leb 0 i) with true by (symmetry; apply Nat.leb_le; lia).
  replace (Nat.ltb i (0 + SYSTEM_TASKS_MAX)) with true
    by (symmetry; apply Nat.ltb_lt; simpl; lia).
  cbn [andb negb]. now rewrite andb_true_r.
Qed.

Lemma calls_of_app (t1 t2 : list event) :
  calls_of (t1 ++ t2) = calls_of t1 ++ calls_of t2.
Proof. apply omap_app. Qed.

Lemma calls_of_slot_events (cnt : Z) (j : nat) (e : task_list_type) :
  calls_of (slot_events rem_by_zero cnt j e)
  = if called j (slot_events rem_by_zero cnt j e) then [(j, task e)] else [].
Proof.
  rewrite called_slot_events, Nat.eqb_refl. cbn [andb]. unfold slot_events.
  destruct ((urem32 rem_by_zero (wrap_u32 (cnt + Z.of_nat j)) (period e) =? 0)
            && negb (bool_decide (task e = NULL))); reflexivity.
Qed.

Lemma calls_of_tick_from (cnt : Z) (l : list task_list_type) (n : nat) :
  forall lo : nat,
    let tr := flat_map (fun j => match l !! j with
                                 | Some e => slot_events rem_by_zero cnt j e
                                 | None => []
                                 end) (seq lo n) in
    map fst (calls_of tr) = List.filter (fun i => called i tr) (seq lo n)
    /\ (forall i, (i < lo)%nat -> called i tr = false)
    /\ (forall i t, In (i, t) (calls_of tr) ->
                    t <> NULL /\ exists P, l !! i = Some (mk_task t P)).
Proof.
  induction n as [|n IH]; intros lo; cbn zeta.
  - cbn. split; [reflexivity|]. split; [reflexivity|]. intros i t [].
  - cbn [seq flat_map]. destruct (IH (S lo)) as (IH1 & IH2 & IH3).
    cbn zeta in IH1, IH2, IH3.
    set (rest := flat_map _ (seq (S lo) n)) in *.
    assert (Hhead : forall i, i <> lo ->
               called i match l !! lo with
                        | Some e => slot_events rem_by_zero cnt lo e
                        | None => []
                        end = false).
    { intros i Hi. destruct (l !! lo); [|reflexivity].
      rewrite called_slot_events.
      replace (Nat.eqb lo i) with false; [reflexivity|].
      symmetry. apply Nat.eqb_neq. congruence. }
    split; [|split].
    + rewrite calls_of_app, map_app, IH1. cbn [List.filter].
      rewrite called_app, (IH2 lo) by lia. rewrite orb_false_r.
      assert (Hext : List.filter
                       (fun i => called i (match l !! lo with
                                           | Some e =>
                                               slot_events rem_by_zero cnt lo e
                                           | None => []
                                           end ++ rest)) (seq (S lo) n)
                     = List.filter (fun i => called i rest) (seq (S lo) n)).
      { apply List.filter_ext_in. intros i Hin. apply in_seq in Hin.
        rewrite called_app, Hhead by lia. reflexivity. }
      rewrite Hext.
      destruct (l !! lo) as [e|]; [|reflexivity].
      rewrite calls_of_slot_events.
      destruct (called lo (slot_events rem_by_zero cnt lo e)); reflexivity.
    + intros i Hi. rewrite called_app, Hhead, IH2 by lia. reflexivity.
    + intros i t Hin. rewrite calls_of_app in Hin.
      apply in_app_or in Hin. destruct Hin as [Hin|Hin]; [|now apply IH3].
      destruct (l !! lo) as [e|] eqn:He; [|destruct Hin].
      rewrite calls_of_slot_events in Hin.
      rewrite called_slot_events, Nat.eqb_refl in Hin. cbn [andb] in Hin.
      destruct (urem32 rem_by_zero (wrap_u32 (cnt + Z.of_nat lo)) (period e) =? 0);
        cbn [andb] in Hin; [|destruct Hin].
      destruct (bool_decide_reflect (task e = NULL)) as [Hn|Hn];
        cbn [negb] in Hin; [destruct Hin|].
      destruct Hin as [Heq|[]]. injection Heq as <- <-.
      split; [exact Hn|]. exists (period e). rewrite He. now destruct e.
Qed.

(** X7.  A tick calls the slots in increasing order of their index and
    each at most once; every call goes to a pointer that is not [NULL] and
    that the called slot holds. *)
Theorem execute_tasks_calls_in_order (s : sched) :
  map fst (calls_of (snd (execute_tasks rem_by_zero s)))
  = List.filter (fun i => called i (snd (execute_tasks rem_by_zero s)))
                (seq 0 SYSTEM_TASKS_MAX)
  /\ (forall i t,
        In (i, t) (calls_of (snd (execute_tasks rem_by_zero s))) ->
        t <> NULL /\ exists P, s_task_list s !! i = Some (mk_task t P)).
Proof.
  rewrite execute_tasks_trace. cbn [snd].
  destruct (calls_of_tick_from (wrap_u32 (counter s + 1)) (s_task_list s)
              SYSTEM_TASKS_MAX 0) as (H1 & _ & H3).
  split; assumption.
Qed.

Lemma advance_advance (a b : Z) (s : sched) :
  advance a (advance b s) = advance (b + a) s.
Proof.
  unfold advance. cbn [s_task_list counter]. f_equal.
  unfold wrap_u32. rewrite Zplus_mod_idemp_l. f_equal. lia.
Qed.

Lemma execute_tasks_advance (s : sched) :
  fst (execute_tasks rem_by_zero s) = advance 1 s.
Proof. rewrite execute_tasks_trace. reflexivity. Qed.

Lemma execute_tasks_wrapped (s : sched) :
  snd (execute_tasks rem_by_zero (advance 0 s))
  = snd (execute_tasks rem_by_zero s).
Proof.
  rewrite !execute_tasks_trace. cbn [snd advance s_task_list counter].
  unfold wrap_u32. rewrite Z.add_0_r, Zplus_mod_idemp_l. reflexivity.
Qed.

Lemma run_ticks_kth (n : nat) :
  forall (s : sched) (k : nat),
    (k < n)%nat ->
    snd (run_ticks rem_by_zero n s) !! k
    = Some (snd (execute_tasks rem_by_zero (advance (Z.of_nat k) s)))
    /\ fst (run_ticks rem_by_zero n s) = advance (Z.of_nat n) s.
Proof.
  induction n as [|n IH]; intros s k Hk; [lia|].
  cbn [run_ticks]. unfold SysTick_Handler.
  pose proof (execute_tasks_advance s) as Hs1.
  destruct (execute_tasks rem_by_zero s) as [s1 tr] eqn:E. cbn [fst] in Hs1.
  destruct (run_ticks rem_by_zero n s1) as [s2 trs] eqn:E2.
  cbn [fst snd]. split.
  - destruct k as [|k].
    + cbn. f_equal. change tr with (snd (s1, tr)). rewrite <- E.
      symmetry. apply execute_tasks_wrapped.
    + cbn [lookup]. destruct (IH s1 k ltac:(lia)) as [IHk _].
      rewrite E2 in IHk. cbn [snd] in IHk.
      change (trs !! k = Some (snd (execute_tasks rem_by_zero
                                      (advance (Z.of_nat (S k)) s)))).
      rewrite IHk, Hs1, advance_advance. repeat f_equal. lia.
  - destruct n as [|n].
    + cbn in E2. injection E2 as <- <-. exact Hs1.
    + destruct (IH s1 0%nat ltac:(lia)) as [_ IHn].
      rewrite E2 in IHn. cbn [fst] in IHn.
      rewrite IHn, Hs1, advance_advance. f_equal. lia.
Qed.

(** X8.  In a run of [n] ticks, tick number [k] (from 0) is the tick taken
    with the counter moved forward by [k]: it calls an occupied slot [i] of
    period [P] if and only if [((c + k + 1 + i) mod 2^32) mod P = 0] for the
    counter [c] at the start of the run; the task list is the same after
    the run, and the counter has moved forward by [n]. *)
Theorem run_ticks_calls_iff
        (n : nat) (s : sched) (k i : nat) (tsk : task_ptr_type) (P : Z) :
  (k < n)%nat ->
  s_task_list s !! i = Some (mk_task tsk P) ->
  (i < SYSTEM_TASKS_MAX)%nat -> tsk <> NULL -> 1 <= P ->
  (exists tr, snd (run_ticks rem_by_zero n s) !! k = Some tr
              /\ (called i tr = true
                  <-> wrap_u32 (wrap_u32 (counter s + Z.of_nat k + 1)
                                + Z.of_nat i) mod P = 0))
  /\ s_task_list (fst (run_ticks rem_by_zero n s)) = s_task_list s
  /\ counter (fst (run_ticks rem_by_zero n s))
     = wrap_u32 (counter s + Z.of_nat n).
Proof.
  intros Hk He Hi Htsk HP.
  destruct (run_ticks_kth n s k Hk) as [Hkth Hfin].
  split; [|rewrite Hfin; split; reflexivity].
  eexists. split; [exact Hkth|].
  rewrite (called_tick (advance (Z.of_nat k) s) i tsk P He Hi Htsk HP).
  cbn [advance counter]. rewrite Z.eqb_eq.
  replace (wrap_u32 (wrap_u32 (counter s + Z.of_nat k) + 1))
    with (wrap_u32 (counter s + Z.of_nat k + 1))
    by (unfold wrap_u32; now rewrite Zplus_mod_idemp_l).
  reflexivity.
Qed.

Lemma wrap_u32_id (x : Z) : 0 <= x < 4294967296 -> wrap_u32 x = x.
Proof. intros H. unfold wrap_u32. apply Z.mod_small. exact H. Qed.

(** X9.  As long as the counter does not wrap, a task of period [P] is
    called every [P]-th tick: the tick [P] ticks later calls it exactly
    when this one does, and after a tick that calls it, none of the next
    [P - 1] ticks does. *)
Theorem task_called_every_period
        (s : sched) (i : nat) (tsk : task_ptr_type) (P : Z) :
  s_task_list s !! i = Some (mk_task tsk P) ->
  (i < SYSTEM_TASKS_MAX)%nat -> tsk <> NULL -> 1 <= P ->
  0 <= counter s ->
  counter s + 1 + Z.of_nat i + P < 4294967296 ->
  called i (snd (execute_tasks rem_by_zero (advance P s)))
  = called i (snd (execute_tasks rem_by_zero s))
  /\ (called i (snd (execute_tasks rem_by_zero s)) = true ->
      forall d, 0 < d < P ->
                called i (snd (execute_tasks rem_by_zero (advance d s)))
                = false).
Proof.
  intros He Hi Htsk HP Hc Hmax.
  assert (Hi' : Z.of_nat i < 10) by (unfold SYSTEM_TASKS_MAX in Hi; lia).
  assert (Hcalled : forall d, 0 <= d <= P ->
             called i (snd (execute_tasks rem_by_zero (advance d s)))
             = ((counter s + 1 + Z.of_nat i + d) mod P =? 0)).
  { intros d Hd.
    rewrite (called_tick (advance d s) i tsk P He Hi Htsk HP).
    cbn [advance counter].
    rewrite (wrap_u32_id (counter s + d)) by lia.
    rewrite (wrap_u32_id (counter s + d + 1)) by lia.
    rewrite wrap_u32_id by lia.
    do 2 f_equal. lia. }
  assert (Hnow : called i (snd (execute_tasks rem_by_zero s))
                 = ((counter s + 1 + Z.of_nat i) mod P =? 0)).
  { rewrite (called_tick s i tsk P He Hi Htsk HP).
    rewrite (wrap_u32_id (counter s + 1)) by lia.
    rewrite wrap_u32_id by lia. reflexivity. }
  split.
  - rewrite Hcalled, Hnow by lia.
    replace (counter s + 1 + Z.of_nat i + P)
      with (counter s + 1 + Z.of_nat i + 1 * P) by lia.
    now rewrite Z_mod_plus_full.
  - intros Hfire d Hd. rewrite Hcalled by lia. rewrite Hnow in Hfire.
    apply Z.eqb_eq in Hfire. apply Z.eqb_neq.
    rewrite Zplus_mod, Hfire, Z.add_0_l, Z.mod_mod by lia.
    rewrite Z.mod_small by lia. lia.
Qed.

End SchedulerTicks.

Section SchedulerTicksWitness.

Import System SystemProps.

Lemma run_ticks_calls_iff_witness :
  (4 < 10)%nat
  /\ s_task_list two_tasks_of_period_5 !! 0%nat = Some (mk_task callback_a 5)
  /\ (0 < SYSTEM_TASKS_MAX)%nat /\ callback_a <> NULL /\ 1 <= 5
  /\ counter (fst (run_ticks rem_by_zero_target 10 two_tasks_of_period_5))
     = wrap_u32 (counter two_tasks_of_period_5 + Z.of_nat 10).
Proof.
  assert (H1 : (4 < 10)%nat) by lia.
  assert (H2 : s_task_list two_tasks_of_period_5 !! 0%nat
               = Some (mk_task callback_a 5)) by reflexivity.
  assert (H3 : (0 < SYSTEM_TASKS_MAX)%nat) by (unfold SYSTEM_TASKS_MAX; lia).
  assert (H4 : callback_a <> NULL) by discriminate.
  assert (H5 : 1 <= 5) by lia.
  repeat (split; [assumption|]).
  exact (proj2 (proj2 (run_ticks_calls_iff rem_by_zero_target 10
                         two_tasks_of_period_5 4 0 callback_a 5
                         H1 H2 H3 H4 H5))).
Defined.

Lemma task_called_every_period_witness :
  s_task_list two_tasks_of_period_5 !! 1%nat = Some (mk_task callback_b 5)
  /\ (1 < SYSTEM_TASKS_MAX)%nat /\ callback_b <> NULL /\ 1 <= 5
  /\ 0 <= counter two_tasks_of_period_5
  /\ counter two_tasks_of_period_5 + 1 + Z.of_nat 1 + 5 < 4294967296
  /\ called 1 (snd (execute_tasks rem_by_zero_target
                      (advance 5 two_tasks_of_period_5)))
     = called 1 (snd (execute_tasks rem_by_zero_target two_tasks_of_period_5)).
Proof.
  assert (H1 : s_task_list two_tasks_of_period_5 !! 1%nat
               = Some (mk_task callback_b 5)) by reflexivity.
  assert (H2 : (1 < SYSTEM_TASKS_MAX)%nat) by (unfold SYSTEM_TASKS_MAX; lia).
  assert (H3 : callback_b <> NULL) by discriminate.
  assert (H4 : 1 <= 5) by lia.
  assert (H5 : 0 <= counter two_tasks_of_period_5) by (cbn; lia).
  assert (H6 : counter two_tasks_of_period_5 + 1 + Z.of_nat 1 + 5 < 4294967296)
    by (cbn; lia).
  repeat (split; [assumption|]).
  exact (proj1 (task_called_every_period rem_by_zero_target
                  two_tasks_of_period_5 1 callback_b 5 H1 H2 H3 H4 H5 H6)).
Defined.

End SchedulerTicksWitness.

(** ** leds.c: what the analog switch sees *)

Section LedsMore.

Import Leds LedsProps.

Lemma shown_app (t1 t2 : list event) :
  forall o, shown o (t1 ++ t2) = shown o t1 ++ shown (output_run t1 o) t2.
Proof.
  induction t1 as [|e t1 IH]; intros o; [reflexivity|].
  cbn [shown app output_run fold_left]. rewrite IH, <- app_assoc. reflexivity.
Qed.

Lemma steady_app (t1 t2 : list event) :
  forall o, steady o (t1 ++ t2) = steady o t1 && steady (output_run t1 o) t2.
Proof.
  induction t1 as [|e t1 IH]; intros o; [reflexivity|].
  cbn [steady app output_run fold_left]. rewrite IH, andb_assoc. reflexivity.
Qed.

Lemma pointer_cases (k : Z) :
  0 <= k < LED_COUNT ->
  k = 0 \/ k = 1 \/ k = 2 \/ k = 3 \/ k = 4 \/ k = 5 \/ k = 6 \/ k = 7.
Proof. unfold LED_COUNT. lia. Qed.

Lemma pointer_next (k : Z) :
  0 <= k < LED_COUNT -> 0 <= Z.rem (k + 1) LED_COUNT < LED_COUNT.
Proof.
  intros H. destruct (pointer_cases k H) as [->|[->|[->|[->|[->|[->|[->| ->]]]]]]];
    vm_compute; split; congruence.
Qed.

Ltac bool_simpl :=
  rewrite ?orb_true_r, ?orb_false_r, ?andb_true_r, ?andb_false_r,
    ?orb_true_l, ?orb_false_l, ?andb_true_l, ?andb_false_l.

(** One invocation, seen from the switch. *)
Lemma led_periodic_callback_shown (s : leds) (o : outputs) :
  0 <= led_id_static s < LED_COUNT ->
  shown o (trace (led_periodic_callback s))
  = shown o (trace s) ++ [(led_id_static s, table_value s (led_id_static s))].
Proof.
  intros Hk. rewrite led_periodic_callback_state. cbn [trace].
  rewrite shown_app. f_equal. unfold table_value.
  rewrite <- (mod_2_32_mod_4096 (default 0 _)), <- land_0xFFF.
  fold (wrap_u32 (default 0 (s_led_brightness s
                               !! Z.to_nat (led_id_static s)))).
  generalize (wrap_u32 (default 0 (s_led_brightness s
                                     !! Z.to_nat (led_id_static s)))) as b.
  generalize (output_run (trace s) o) as o1.
  intros o1 b. generalize (Z.land b 0xFFF) as v. intros v.
  destruct (pointer_cases _ Hk) as [->|[->|[->|[->|[->|[->|[->| ->]]]]]]];
    cbn; unfold selected; cbn; repeat bool_simpl; reflexivity.
Qed.

Lemma led_periodic_callback_steady (s : leds) (o : outputs) :
  steady o (trace (led_periodic_callback s)) = steady o (trace s).
Proof.
  rewrite led_periodic_callback_state. cbn [trace].
  rewrite steady_app.
  generalize (Z.land (wrap_u32 (default 0 (s_led_brightness s
                         !! Z.to_nat (led_id_static s)))) 0xFFF) as v.
  generalize (wrap_u32 (default 0 (s_led_brightness s
                                     !! Z.to_nat (led_id_static s)))) as b.
  generalize (output_run (trace s) o) as o1.
  intros o1 b v.
  destruct (Z.testbit (led_id_static s) 0), (Z.testbit (led_id_static s) 1),
    (Z.testbit (led_id_static s) 2);
    cbn; unfold enabled; cbn; repeat bool_simpl; reflexivity.
Qed.

(** X10.  The driver never changes the converter output or a select pin
    while the analog switch is enabled: whatever the levels of the pins
    before, any number of invocations adds no such write to the trace
    ("Disable analog switch output during voltage transition"). *)
Theorem led_callbacks_steady (n : nat) :
  forall (s : leds) (o : outputs),
    steady o (trace (led_callbacks n s)) = steady o (trace s).
Proof.
  induction n as [|n IH]; intros s o; [reflexivity|].
  cbn [led_callbacks]. rewrite IH. apply led_periodic_callback_steady.
Qed.

(** Any number of invocations, seen from the switch. *)
Lemma led_callbacks_table (n : nat) :
  forall (s : leds) (o : outputs),
    0 <= led_id_static s < LED_COUNT ->
    shown o (trace (led_callbacks n s))
    = shown o (trace s)
      ++ map (fun c => (c, table_value s c))
             (pointer_values n (led_id_static s))
    /\ s_led_brightness (led_callbacks n s) = s_led_brightness s.
Proof.
  induction n as [|n IH]; intros s o Hk.
  - cbn. now rewrite app_nil_r.
  - cbn [led_callbacks pointer_values map].
    assert (Hid : led_id_static (led_periodic_callback s)
                  = Z.rem (led_id_static s + 1) LED_COUNT)
      by (rewrite led_periodic_callback_state; reflexivity).
    assert (Htbl : s_led_brightness (led_periodic_callback s)
                   = s_led_brightness s)
      by (rewrite led_periodic_callback_state; reflexivity).
    destruct (IH (led_periodic_callback s) o) as [IH1 IH2].
    { rewrite Hid. now apply pointer_next. }
    rewrite IH1, IH2, Hid, Htbl, led_periodic_callback_shown by exact Hk.
    rewrite <- app_assoc. split; [|reflexivity].
    do 2 f_equal. apply map_ext. intros c. unfold table_value.
    rewrite Htbl. reflexivity.
Qed.

(** X11.  Each invocation enables the switch once, and at that moment the
    select pins encode the channel of the round-robin pointer and the
    converter holds the brightness of exactly that channel, reduced modulo
    4096; the table itself is not changed by the driver. *)
Theorem led_callbacks_shown (n : nat) :
  forall (s : leds) (o : outputs),
    0 <= led_id_static s < LED_COUNT ->
    shown o (trace (led_callbacks n s))
    = shown o (trace s)
      ++ map (fun c => (c, table_value s c))
             (pointer_values n (led_id_static s))
    /\ s_led_brightness (led_callbacks n s) = s_led_brightness s.
Proof. exact (led_callbacks_table n). Qed.

Lemma led_callbacks_shown_witness :
  0 <= led_id_static (led_set_brightness 2 5000 leds_reset) < LED_COUNT
  /\ shown outputs_reset
           (trace (led_callbacks 4 (led_set_brightness 2 5000 leds_reset)))
     = [(0, 0); (1, 0); (2, 904); (3, 0)].
Proof.
  assert (H : 0 <= led_id_static (led_set_brightness 2 5000 leds_reset)
              < LED_COUNT)
    by (vm_compute; split; [discriminate | reflexivity]).
  split; [exact H|].
  exact (proj1 (led_callbacks_shown 4 (led_set_brightness 2 5000 leds_reset)
                  outputs_reset H)).
Defined.

Lemma pointer_values_range (n : nat) :
  forall k, 0 <= k < LED_COUNT ->
            Forall (fun c => 0 <= c < LED_COUNT) (pointer_values n k).
Proof.
  induction n as [|n IH]; intros k Hk; cbn [pointer_values].
  - apply Forall_nil.
  - apply Forall_cons; [exact Hk|]. apply IH. now apply pointer_next.
Qed.

Lemma wrap_s32_mod_4096 (b : Z) : wrap_s32 b mod 4096 = b mod 4096.
Proof.
  rewrite <- (mod_2_32_mod_4096 (wrap_s32 b)).
  fold (wrap_u32 (wrap_s32 b)). rewrite wrap_u32_wrap_s32.
  apply mod_2_32_mod_4096.
Qed.

(** X12.  A brightness stored with [led_set_brightness] reaches its
    channel and no other: in the invocations that follow, the switch
    passes the new value, modulo 4096, whenever the channel has its turn,
    and to every other channel the value it had before.  A channel
    number of [LED_COUNT] or more changes nothing. *)
Theorem led_set_brightness_shown (id b : Z) (s : leds) (o : outputs) :
  0 <= id ->
  0 <= led_id_static s < LED_COUNT ->
  length (s_led_brightness s) = Z.to_nat LED_COUNT ->
  (LED_COUNT <= id -> led_set_brightness id b s = s)
  /\ (id < LED_COUNT ->
      forall n,
        shown o (trace (led_callbacks n (led_set_brightness id b s)))
        = shown o (trace s)
          ++ map (fun c => (c, if c =? id then b mod 4096
                               else table_value s c))
                 (pointer_values n (led_id_static s))).
Proof.
  intros Hid Hk Hlen. split.
  - intros Hge. unfold led_set_brightness.
    destruct (Z.ltb_spec id LED_COUNT); [lia | reflexivity].
  - intros Hlt n.
    assert (Hset : led_set_brightness id b s
                   = {| s_led_brightness :=
                          <[Z.to_nat id := wrap_s32 b]> (s_led_brightness s);
                        led_id_static := led_id_static s;
                        DHR12R1 := DHR12R1 s;
                        trace := trace s |}).
    { unfold led_set_brightness.
      destruct (Z.ltb_spec id LED_COUNT); [reflexivity | lia]. }
    destruct (led_callbacks_table n (led_set_brightness id b s) o) as [H _].
    { rewrite Hset. exact Hk. }
    rewrite H. rewrite Hset at 1 2. cbn [trace led_id_static]. f_equal.
    apply map_ext_in. intros c Hc.
    pose proof (proj1 (List.Forall_forall _ _)
                      (pointer_values_range n _ Hk) c Hc) as Hr.
    cbn beta in Hr. f_equal. unfold table_value. rewrite Hset.
    cbn [s_led_brightness].
    destruct (Z.eqb_spec c id) as [->|Hne].
    + rewrite list_lookup_insert_eq by (rewrite Hlen; lia).
      cbn [default]. apply wrap_s32_mod_4096.
    + rewrite list_lookup_insert_ne by lia. reflexivity.
Qed.

Lemma led_set_brightness_shown_witness :
  0 <= 2
  /\ 0 <= led_id_static leds_reset < LED_COUNT
  /\ length (s_led_brightness leds_reset) = Z.to_nat LED_COUNT
  /\ led_set_brightness 8 5000 leds_reset = leds_reset
  /\ shown outputs_reset
           (trace (led_callbacks 4 (led_set_brightness 2 5000 leds_reset)))
     = [(0, 0); (1, 0); (2, 904); (3, 0)].
Proof.
  assert (H0 : 0 <= 2) by lia.
  assert (H0' : 0 <= 8) by lia.
  assert (H1 : 0 <= led_id_static leds_reset < LED_COUNT)
    by (vm_compute; split; [discriminate | reflexivity]).
  assert (H2 : length (s_led_brightness leds_reset) = Z.to_nat LED_COUNT)
    by reflexivity.
  assert (H3 : LED_COUNT <= 8) by (vm_compute; discriminate).
  assert (H4 : 2 < LED_COUNT) by reflexivity.
  repeat (split; [assumption|]).
  split.
  - exact (proj1 (led_set_brightness_shown 8 5000 leds_reset outputs_reset
                    H0' H1 H2) H3).
  - exact (proj2 (led_set_brightness_shown 2 5000 leds_reset outputs_reset
                    H0 H1 H2) H4 4%nat).
Defined.

End LedsMore.

(** ** gpio.c: what configuring a pin does to the registers *)

Section GpioBits.

Import Gpio.

Lemma and32_lnot_bits (r m k : Z) :
  0 <= k < 32 ->
  Z.testbit (and32 r (Z.lnot m)) k = Z.testbit r k && negb (Z.testbit m k).
Proof.
  intros Hk. unfold and32, wrap_u32.
  rewrite Z.land_spec, Z.mod_pow2_bits_low, Z.lnot_spec by lia. reflexivity.
Qed.

Lemma or32_bits (r m k : Z) :
  0 <= k < 32 -> Z.testbit (or32 r m) k = Z.testbit r k || Z.testbit m k.
Proof.
  intros Hk. unfold or32, wrap_u32.
  rewrite Z.lor_spec, Z.mod_pow2_bits_low by lia. reflexivity.
Qed.

Lemma testbit_1 (j : Z) : Z.testbit 1 j = (j =? 0).
Proof.
  destruct (Z.eqb_spec j 0) as [->|Hj]; [reflexivity|].
  destruct (Z.lt_ge_cases j 0); [now apply Z.testbit_neg_r|].
  apply Z.bits_above_log2; [lia|]. change (Z.log2 1) with 0. lia.
Qed.

Lemma testbit_3 (j : Z) : Z.testbit 3 j = (j =? 0) || (j =? 1).
Proof.
  destruct (Z.eqb_spec j 0) as [->|H0]; [reflexivity|].
  destruct (Z.eqb_spec j 1) as [->|H1]; [reflexivity|].
  destruct (Z.lt_ge_cases j 0); [now apply Z.testbit_neg_r|].
  apply Z.bits_above_log2; [lia|]. change (Z.log2 3) with 1. lia.
Qed.

Lemma shiftl_1_bits (n k : Z) :
  0 <= n -> 0 <= k -> Z.testbit (Z.shiftl 1 n) k = (k =? n).
Proof.
  intros Hn Hk. rewrite Z.shiftl_spec, testbit_1 by lia.
  destruct (Z.eqb_spec (k - n) 0), (Z.eqb_spec k n); lia || reflexivity.
Qed.

Lemma shiftl_3_bits (n k : Z) :
  0 <= n -> 0 <= k ->
  Z.testbit (Z.shiftl 3 n) k = (k =? n) || (k =? n + 1).
Proof.
  intros Hn Hk. rewrite Z.shiftl_spec, testbit_3 by lia.
  destruct (Z.eqb_spec (k - n) 0), (Z.eqb_spec k n), (Z.eqb_spec (k - n) 1),
    (Z.eqb_spec k (n + 1)); lia || reflexivity.
Qed.

End GpioBits.

Ltac register_bits :=
  repeat first [ rewrite or32_bits by lia
               | rewrite and32_lnot_bits by lia
               | rewrite shiftl_1_bits by lia
               | rewrite shiftl_3_bits by lia ];
  repeat match goal with
         | |- context [?a =? ?b] =>
             destruct (Z.eqb_spec a b);
             try (exfalso; Z.div_mod_to_equations; lia)
         end;
  cbn [andb orb negb];
  rewrite ?andb_true_r, ?andb_false_r, ?orb_false_r, ?orb_true_r;
  try reflexivity.

Section GpioFacts.

Import Gpio.

Variable shl_overflow : Z -> Z -> Z.
Variable RCC_AHBENR_GPIOAEN : Z.
Variable RCC_AHBENR_GPIOBEN : Z.
Variable RCC_AHBENR_GPIOCEN : Z.
Variable RCC_AHBENR_GPIODEN : Z.

Local Abbreviation shl := (shl_int shl_overflow).
Local Abbreviation cfg_input :=
  (gpio_cfg_input shl_overflow RCC_AHBENR_GPIOAEN RCC_AHBENR_GPIOBEN
                  RCC_AHBENR_GPIOCEN RCC_AHBENR_GPIODEN).
Local Abbreviation cfg_output :=
  (gpio_cfg_output shl_overflow RCC_AHBENR_GPIOAEN RCC_AHBENR_GPIOBEN
                   RCC_AHBENR_GPIOCEN RCC_AHBENR_GPIODEN).
Local Abbreviation enable :=
  (enable_port RCC_AHBENR_GPIOAEN RCC_AHBENR_GPIOBEN
               RCC_AHBENR_GPIOCEN RCC_AHBENR_GPIODEN).

Lemma shl_int_small (a n : Z) :
  0 <= a <= 3 -> 0 <= n <= 29 -> shl a n = Z.shiftl a n.
Proof.
  intros Ha Hn. unfold shl_int.
  destruct (Z.leb_spec (Z.shiftl a n) INT32_MAX) as [|Hgt]; [reflexivity|].
  exfalso. rewrite Z.shiftl_mul_pow2 in Hgt by lia.
  assert (2 ^ n <= 2 ^ 29) by (apply Z.pow_le_mono_r; lia).
  change (2 ^ 29) with 536870912 in *. unfold INT32_MAX in Hgt. nia.
Qed.

Lemma ports_enable_port (g : gpio_type) (s : device) :
  ports (enable g s) = ports s.
Proof. unfold enable_port. destruct (port g) as [[]|]; reflexivity. Qed.

Lemma valid_ok (g : gpio_type) (p : GPIO_TypeDef) :
  port g = Some p -> pin g <= GPIO_PIN_MAX -> valid (Some g) = Some g.
Proof.
  intros Hp Hpin. unfold valid. rewrite Hp.
  destruct (Z.gtb_spec (pin g) GPIO_PIN_MAX); [lia | reflexivity].
Qed.

Lemma update_port_eq (p : GPIO_TypeDef) (f : port_regs -> port_regs)
      (s : device) :
  ports (update_port p f s) p = f (ports s p).
Proof. unfold update_port. cbn [ports]. now rewrite decide_True. Qed.

Lemma update_port_ne (p q : GPIO_TypeDef) (f : port_regs -> port_regs)
      (s : device) :
  q <> p -> ports (update_port p f s) q = ports s q.
Proof. intros H. unfold update_port. cbn [ports]. now rewrite decide_False. Qed.

(** The registers [gpio_cfg_output] leaves. *)
Lemma gpio_cfg_output_regs (g : gpio_type) (p : GPIO_TypeDef) (s : device) :
  port g = Some p -> 0 <= pin g <= 14 ->
  let r := ports s p in
  let n := pin g in
  ports (cfg_output (Some g) s) p
  = {| MODER := or32 (and32 (MODER r) (Z.lnot (Z.shiftl 3 (n * 2))))
                     (Z.shiftl 1 (n * 2));
       OTYPER := and32 (OTYPER r) (Z.lnot (Z.shiftl 1 n));
       OSPEEDR := or32 (OSPEEDR r) (Z.shiftl 3 (n * 2));
       PUPDR := and32 (PUPDR r) (Z.lnot (Z.shiftl 3 (n * 2)));
       IDR := IDR r;
       BSRR := BSRR r ++ [BSRRH (Z.shiftl 1 n)] |}
  /\ forall q, q <> p -> ports (cfg_output (Some g) s) q = ports s q.
Proof.
  intros Hp Hpin r n. unfold gpio_cfg_output.
  rewrite (valid_ok g p Hp) by (unfold GPIO_PIN_MAX; lia).
  unfold configure_mode, configure_output_type, configure_output_level,
    configure_output_speed, configure_pull_resistors.
  rewrite Hp. cbv zeta.
  rewrite (wrap_u32_id (pin g)) by lia.
  rewrite (wrap_u32_id (pin g * 2)) by lia.
  rewrite !shl_int_small by lia.
  split.
  - rewrite !update_port_eq, ports_enable_port.
    cbn [MODER OTYPER OSPEEDR PUPDR IDR BSRR]. reflexivity.
  - intros q Hq. rewrite !update_port_ne by exact Hq.
    now rewrite ports_enable_port.
Qed.

(** The registers [gpio_cfg_input] leaves. *)
Lemma gpio_cfg_input_regs (g : gpio_type) (p : GPIO_TypeDef) (s : device) :
  port g = Some p -> 0 <= pin g <= 14 ->
  let r := ports s p in
  let n := pin g in
  ports (cfg_input (Some g) s) p
  = {| MODER := and32 (MODER r) (Z.lnot (Z.shiftl 3 (n * 2)));
       OTYPER := OTYPER r;
       OSPEEDR := OSPEEDR r;
       PUPDR := and32 (PUPDR r) (Z.lnot (Z.shiftl 3 (n * 2)));
       IDR := IDR r;
       BSRR := BSRR r |}
  /\ forall q, q <> p -> ports (cfg_input (Some g) s) q = ports s q.
Proof.
  intros Hp Hpin r n. unfold gpio_cfg_input.
  rewrite (valid_ok g p Hp) by (unfold GPIO_PIN_MAX; lia).
  unfold configure_mode, configure_pull_resistors.
  rewrite Hp. cbv zeta.
  rewrite (wrap_u32_id (pin g)) by lia.
  rewrite (wrap_u32_id (pin g * 2)) by lia.
  rewrite !shl_int_small by lia.
  split.
  - rewrite !update_port_eq, ports_enable_port.
    cbn [MODER OTYPER OSPEEDR PUPDR IDR BSRR]. reflexivity.
  - intros q Hq. rewrite !update_port_ne by exact Hq.
    now rewrite ports_enable_port.
Qed.

(** X13.  [gpio_cfg_output] makes the pin a fast push-pull output without
    pull resistor, driven low: in the registers of its port the mode bits
    of the pin are 01, the speed bits 11, the pull bits 00 and the type
    bit 0, and one store to BSRRH resets the pin.  The bits of every
    other pin, the input register and the registers of every other port
    are as before.  (For pin 15 the shifts [3 << 30] overflow [int]; the
    statement is for the pins 0 to 14.) *)
Theorem gpio_cfg_output_pin (g : gpio_type) (p : GPIO_TypeDef) (s : device) :
  port g = Some p -> 0 <= pin g <= 14 ->
  let r := ports s p in
  let r' := ports (cfg_output (Some g) s) p in
  (bits2 (MODER r') (pin g) = (false, true)
   /\ bits2 (OSPEEDR r') (pin g) = (true, true)
   /\ bits2 (PUPDR r') (pin g) = (false, false)
   /\ Z.testbit (OTYPER r') (pin g) = false
   /\ BSRR r' = BSRR r ++ [BSRRH (2 ^ pin g)])
  /\ (other_pins 2 (pin g) (MODER r) (MODER r')
      /\ other_pins 2 (pin g) (OSPEEDR r) (OSPEEDR r')
      /\ other_pins 2 (pin g) (PUPDR r) (PUPDR r')
      /\ other_pins 1 (pin g) (OTYPER r) (OTYPER r')
      /\ IDR r' = IDR r)
  /\ (forall q, q <> p -> ports (cfg_output (Some g) s) q = ports s q).
Proof.
  intros Hp Hpin r r'.
  destruct (gpio_cfg_output_regs g p s Hp Hpin) as [Hr Hq].
  fold r in Hr. fold r' in Hr.
  split; [|split; [|exact Hq]].
  - rewrite Hr. unfold bits2. cbn [MODER OTYPER OSPEEDR PUPDR IDR BSRR].
    split; [|split; [|split; [|split]]].
    + f_equal; register_bits.
    + f_equal; register_bits.
    + f_equal; register_bits.
    + register_bits.
    + now rewrite Z.shiftl_1_l.
  - rewrite Hr. unfold other_pins. cbn [MODER OTYPER OSPEEDR PUPDR IDR BSRR].
    repeat split; intros k Hk Hne; register_bits.
Qed.

(** X14.  [gpio_cfg_input] makes the pin an input without pull resistor:
    the mode bits and the pull bits of the pin are 00; the bits of every
    other pin, the type and speed registers, the stores to the set/reset
    register and the registers of every other port are as before.  (Pins
    0 to 14, as for [gpio_cfg_output].) *)
Theorem gpio_cfg_input_pin (g : gpio_type) (p : GPIO_TypeDef) (s : device) :
  port g = Some p -> 0 <= pin g <= 14 ->
  let r := ports s p in
  let r' := ports (cfg_input (Some g) s) p in
  (bits2 (MODER r') (pin g) = (false, false)
   /\ bits2 (PUPDR r') (pin g) = (false, false))
  /\ (other_pins 2 (pin g) (MODER r) (MODER r')
      /\ other_pins 2 (pin g) (PUPDR r) (PUPDR r')
      /\ OTYPER r' = OTYPER r /\ OSPEEDR r' = OSPEEDR r
      /\ IDR r' = IDR r /\ BSRR r' = BSRR r)
  /\ (forall q, q <> p -> ports (cfg_input (Some g) s) q = ports s q).
Proof.
  intros Hp Hpin r r'.
  destruct (gpio_cfg_input_regs g p s Hp Hpin) as [Hr Hq].
  fold r in Hr. fold r' in Hr.
  split; [|split; [|exact Hq]].
  - rewrite Hr. unfold bits2. cbn [MODER OTYPER OSPEEDR PUPDR IDR BSRR].
    split; f_equal; register_bits.
  - rewrite Hr. unfold other_pins. cbn [MODER OTYPER OSPEEDR PUPDR IDR BSRR].
    split; [|split; [|repeat split]]; intros k Hk Hne; register_bits.
Qed.

(** X15.  [gpio_input_read] returns HIGH exactly when the descriptor is
    valid (pointer and port not NULL, pin at most 15) and the bit of the
    pin is set in the input register of its port; every other case gives
    LOW, an invalid descriptor included. *)
Theorem gpio_input_read_high (gpio : option gpio_type) (s : device) :
  (forall g, gpio = Some g -> 0 <= pin g) ->
  gpio_input_read shl_overflow gpio s = Leds.GPIO_STATE_HIGH
  <-> exists g p, gpio = Some g /\ port g = Some p
                  /\ pin g <= GPIO_PIN_MAX
                  /\ Z.testbit (IDR (ports s p)) (pin g) = true.
Proof.
  intros Hpos. unfold gpio_input_read, valid.
  destruct gpio as [g|]; [|split; [discriminate | intros (g & p & H & _); discriminate]].
  specialize (Hpos g eq_refl).
  destruct (port g) as [p|] eqn:Hp;
    [|split; [discriminate | intros (g0 & p0 & Hg & Hp0 & _); congruence]].
  destruct (Z.gtb_spec (pin g) GPIO_PIN_MAX) as [Hgt|Hle].
  - split; [discriminate|]. intros (g0 & p0 & Hg & _ & Hle & _).
    injection Hg as <-. lia.
  - rewrite Hp. unfold GPIO_PIN_MAX in Hle.
    rewrite shl_int_small by lia.
    assert (Hsmall : 0 <= Z.shiftl 1 (pin g) < 4294967296).
    { rewrite Z.shiftl_1_l.
      assert (2 ^ pin g <= 2 ^ 15) by (apply Z.pow_le_mono_r; lia).
      change (2 ^ 15) with 32768 in *.
      pose proof (Z.pow_pos_nonneg 2 (pin g)). lia. }
    rewrite (wrap_u32_id _ Hsmall), land_bit_testbit by lia.
    destruct (Z.testbit (IDR (ports s p)) (pin g)) eqn:Hb; cbn [negb].
    + split; [|reflexivity]. intros _. exists g, p.
      unfold GPIO_PIN_MAX. repeat split; try assumption.
    + split; [discriminate|]. intros (g0 & p0 & Hg & Hp0 & _ & Hb0).
      injection Hg as <-. congruence.
Qed.

(** X16.  With a descriptor that is not valid (a NULL pointer, a NULL
    port, or a pin above 15) none of the interface functions touches a
    register, and the read gives LOW. *)
Theorem gpio_invalid_descriptor
        (gpio : option gpio_type) (state : Leds.gpio_state_type) (s : device) :
  gpio = None
  \/ (exists g, gpio = Some g /\ (port g = None \/ GPIO_PIN_MAX < pin g)) ->
  cfg_input gpio s = s
  /\ cfg_output gpio s = s
  /\ gpio_output_set shl_overflow gpio state s = s
  /\ gpio_input_read shl_overflow gpio s = Leds.GPIO_STATE_LOW.
Proof.
  intros H.
  assert (Hv : valid gpio = None).
  { destruct H as [->|(g & -> & [Hp|Hpin])]; [reflexivity| |].
    - unfold valid. now rewrite Hp.
    - unfold valid. destruct (port g); [|reflexivity].
      destruct (Z.gtb_spec (pin g) GPIO_PIN_MAX); [reflexivity | lia]. }
  unfold gpio_cfg_input, gpio_cfg_output, gpio_output_set, gpio_input_read.
  rewrite Hv. repeat split.
Qed.

End GpioFacts.

Section GpioWitness.

Import Gpio.

Lemma gpio_cfg_output_pin_witness :
  port (mk_gpio (Some GPIOA) 1) = Some GPIOA
  /\ 0 <= pin (mk_gpio (Some GPIOA) 1) <= 14
  /\ bits2 (MODER (ports (gpio_cfg_output (fun _ _ => 0) 131072 262144 524288
                                          1048576
                                          (Some (mk_gpio (Some GPIOA) 1))
                                          (device_all 4294967295)) GPIOA))
           (pin (mk_gpio (Some GPIOA) 1))
     = (false, true).
Proof.
  assert (H1 : port (mk_gpio (Some GPIOA) 1) = Some GPIOA) by reflexivity.
  assert (H2 : 0 <= pin (mk_gpio (Some GPIOA) 1) <= 14) by (cbn; lia).
  repeat (split; [assumption|]).
  exact (proj1 (proj1 (gpio_cfg_output_pin (fun _ _ => 0) 131072 262144 524288
                         1048576 (mk_gpio (Some GPIOA) 1) GPIOA
                         (device_all 4294967295) H1 H2))).
Defined.

Lemma gpio_cfg_input_pin_witness :
  port (mk_gpio (Some GPIOB) 14) = Some GPIOB
  /\ 0 <= pin (mk_gpio (Some GPIOB) 14) <= 14
  /\ bits2 (MODER (ports (gpio_cfg_input (fun _ _ => 0) 131072 262144 524288
                                         1048576
                                         (Some (mk_gpio (Some GPIOB) 14))
                                         (device_all 4294967295)) GPIOB))
           (pin (mk_gpio (Some GPIOB) 14))
     = (false, false).
Proof.
  assert (H1 : port (mk_gpio (Some GPIOB) 14) = Some GPIOB) by reflexivity.
  assert (H2 : 0 <= pin (mk_gpio (Some GPIOB) 14) <= 14) by (cbn; lia).
  repeat (split; [assumption|]).
  exact (proj1 (proj1 (gpio_cfg_input_pin (fun _ _ => 0) 131072 262144 524288
                         1048576 (mk_gpio (Some GPIOB) 14) GPIOB
                         (device_all 4294967295) H1 H2))).
Defined.

Lemma gpio_input_read_high_witness :
  (forall g, Some (mk_gpio (Some GPIOA) 3) = Some g -> 0 <= pin g)
  /\ gpio_input_read (fun _ _ => 0) (Some (mk_gpio (Some GPIOA) 3))
                     (device_all 8)
     = Leds.GPIO_STATE_HIGH.
Proof.
  assert (H : forall g, Some (mk_gpio (Some GPIOA) 3) = Some g -> 0 <= pin g).
  { intros g Hg. injection Hg as <-. cbn. lia. }
  split; [exact H|].
  apply (proj2 (gpio_input_read_high (fun _ _ => 0)
                  (Some (mk_gpio (Some GPIOA) 3)) (device_all 8) H)).
  exists (mk_gpio (Some GPIOA) 3), GPIOA.
  repeat split. unfold GPIO_PIN_MAX. cbn. lia.
Defined.

Lemma gpio_invalid_descriptor_witness :
  (Some (mk_gpio (Some GPIOA) 16) = None
   \/ exists g, Some (mk_gpio (Some GPIOA) 16) = Some g
                /\ (port g = None \/ GPIO_PIN_MAX < pin g))
  /\ gpio_cfg_output (fun _ _ => 0) 131072 262144 524288 1048576
                     (Some (mk_gpio (Some GPIOA) 16)) (device_all 0)
     = device_all 0.
Proof.
  assert (H : Some (mk_gpio (Some GPIOA) 16) = None
              \/ exists g, Some (mk_gpio (Some GPIOA) 16) = Some g
                           /\ (port g = None \/ GPIO_PIN_MAX < pin g)).
  { right. exists (mk_gpio (Some GPIOA) 16). split; [reflexivity|].
    right. reflexivity. }
  split; [exact H|].
  exact (proj1 (proj2 (gpio_invalid_descriptor (fun _ _ => 0) 131072 262144
                         524288 1048576 (Some (mk_gpio (Some GPIOA) 16))
                         Leds.GPIO_STATE_HIGH (device_all 0) H))).
Defined.

End GpioWitness.

(** ** main.c: the inactivity timeout *)

Section MainFacts.

Import Gpio Main.

Variable shl_overflow : Z -> Z -> Z.

Local Abbreviation callback := (main_timeout_callback shl_overflow).
Local Abbreviation run := (run_timeout shl_overflow).

Lemma run_timeout_app (t1 t2 : list touch_state_type) (s : main_state) :
  run (t1 ++ t2) s = run t2 (run t1 s).
Proof. unfold run_timeout. apply fold_left_app. Qed.

Lemma power_off_store (d : device) :
  hold_power_stores (gpio_output_set shl_overflow (Some hold_power_io)
                                     Leds.GPIO_STATE_LOW d)
  = hold_power_stores d ++ [BSRRH 2].
Proof.
  unfold hold_power_stores, gpio_output_set.
  change (valid (Some hold_power_io)) with (Some hold_power_io).
  unfold configure_output_level. cbn [port hold_power_io]. cbv zeta.
  rewrite update_port_eq. reflexivity.
Qed.

(** The inactive ticks after the counter was [c]. *)
Lemma run_timeout_inactive (n : nat) :
  forall s,
    0 <= s_timeout_counter s ->
    s_timeout_counter s + Z.of_nat n < 4294967296 ->
    let s' := run (replicate n TOUCH_STATE_INACTIVE) s in
    s_timeout_counter s' = s_timeout_counter s + Z.of_nat n
    /\ hold_power_stores (hw s')
       = hold_power_stores (hw s)
         ++ replicate (Z.to_nat (Z.max (s_timeout_counter s + Z.of_nat n)
                                       (TIMEOUT_MS - 1))
                       - Z.to_nat (Z.max (s_timeout_counter s)
                                         (TIMEOUT_MS - 1)))
                      (BSRRH 2)
    /\ (s_timeout_counter s + Z.of_nat n < TIMEOUT_MS -> hw s' = hw s).
Proof.
  induction n as [|n IH]; intros s Hc Hn.
  - cbn. rewrite Z.add_0_r, Nat.sub_diag. cbn. now rewrite app_nil_r.
  - cbn [replicate run_timeout fold_left].
    fold (run (replicate n TOUCH_STATE_INACTIVE)
              (callback TOUCH_STATE_INACTIVE s)).
    set (s1 := callback TOUCH_STATE_INACTIVE s).
    assert (Hc1 : s_timeout_counter s1 = s_timeout_counter s + 1).
    { unfold s1, main_timeout_callback. cbn [s_timeout_counter].
      apply wrap_u32_id. lia. }
    destruct (IH s1) as (IH1 & IH2 & IH3); [lia | lia |].
    cbv zeta. rewrite IH1, IH2, Hc1.
    replace (s_timeout_counter s + 1 + Z.of_nat n)
      with (s_timeout_counter s + Z.of_nat (S n)) by lia.
    split; [reflexivity|].
    assert (Hhw : hw s1 = if s_timeout_counter s + 1 >=? TIMEOUT_MS
                          then gpio_output_set shl_overflow (Some hold_power_io)
                                               Leds.GPIO_STATE_LOW (hw s)
                          else hw s).
    { unfold s1, main_timeout_callback. cbn [hw].
      rewrite (wrap_u32_id (s_timeout_counter s + 1)) by lia. reflexivity. }
    unfold TIMEOUT_MS, TIMEOUT_SECONDS, TIMEOUT_MINUTES in *.
    change (15 * 60 * 1000) with 900000 in *.
    split.
    + rewrite Hhw.
      destruct (Z.geb_spec (s_timeout_counter s + 1) 900000) as [Hge|Hlt].
      * rewrite power_off_store, <- app_assoc. f_equal.
        change [BSRRH 2] with (replicate 1 (BSRRH 2)).
        rewrite <- replicate_add. f_equal. lia.
      * f_equal. f_equal. lia.
    + intros Hlt. rewrite IH3 by lia. rewrite Hhw.
      destruct (Z.geb_spec (s_timeout_counter s + 1) 900000); [lia|reflexivity].
Qed.

(** X17.  A touch restarts the timeout, whatever the counter was: over
    the [n] inactive ticks that follow it the hold-power pin is left alone
    for the first 899999, and from tick 900000 (15 minutes) on every tick
    stores the mask of pin 1 to BSRRH of port A, which drives the pin low
    and cuts the power. *)
Theorem main_timeout_after_touch (n : nat) (s : main_state) :
  Z.of_nat n < 4294967296 ->
  let s' := run (TOUCH_STATE_ACTIVE :: replicate n TOUCH_STATE_INACTIVE) s in
  s_timeout_counter s' = Z.of_nat n
  /\ hold_power_stores (hw s')
     = hold_power_stores (hw s)
       ++ replicate (n - Z.to_nat (TIMEOUT_MS - 1)) (BSRRH 2)
  /\ (Z.of_nat n < TIMEOUT_MS -> hw s' = hw s).
Proof.
  intros Hn. cbn [run_timeout fold_left].
  fold (run (replicate n TOUCH_STATE_INACTIVE) (callback TOUCH_STATE_ACTIVE s)).
  set (s0 := callback TOUCH_STATE_ACTIVE s).
  assert (H0 : s_timeout_counter s0 = 0) by reflexivity.
  assert (Hhw : hw s0 = hw s) by reflexivity.
  destruct (run_timeout_inactive n s0) as (H1 & H2 & H3); [lia | lia |].
  cbv zeta. rewrite H1, H2, H0, Hhw. split; [lia|]. split.
  - do 2 f_equal.
    unfold TIMEOUT_MS, TIMEOUT_SECONDS, TIMEOUT_MINUTES.
    change (15 * 60 * 1000) with 900000. lia.
  - intros Hlt. rewrite <- Hhw. apply H3. lia.
Qed.

(** While every window has a touch, the counter stays below the timeout
    and counts the inactive readings at the end of the prefix. *)
Lemma run_timeout_prefix (pre : list touch_state_type) :
  forall post s,
    touched_in_time (pre ++ post) ->
    s_timeout_counter s = 0 ->
    let c := s_timeout_counter (run pre s) in
    hw (run pre s) = hw s
    /\ 0 <= c <= Z.of_nat (length pre) /\ c < TIMEOUT_MS
    /\ forall j : nat,
         Z.of_nat (length pre) - c <= Z.of_nat j < Z.of_nat (length pre) ->
         pre !! j = Some TOUCH_STATE_INACTIVE.
Proof.
  induction pre as [|t pre IH] using rev_ind; intros post s Hts Hs.
  - cbn. rewrite Hs. unfold TIMEOUT_MS, TIMEOUT_SECONDS, TIMEOUT_MINUTES.
    repeat split; try lia.
  - rewrite <- app_assoc in Hts. cbn [app] in Hts.
    destruct (IH (t :: post) s Hts Hs) as (Hhw & Hc & Hlt & Htail).
    rewrite run_timeout_app. cbn [run_timeout fold_left].
    fold (run pre s). rewrite length_app. cbn [length].
    set (s1 := run pre s) in *.
    destruct t.
    + (* inactive *)
      assert (Hnext : s_timeout_counter s1 + 1 < TIMEOUT_MS).
      { destruct (Z.lt_ge_cases (s_timeout_counter s1 + 1) TIMEOUT_MS)
          as [|Hge]; [assumption|]. exfalso.
        assert (Hpos : 0 < TIMEOUT_MS) by reflexivity.
        destruct (Hts (Z.to_nat (Z.of_nat (length pre)
                                 - s_timeout_counter s1)))
          as (j & Hj1 & Hj2 & Hj3).
        { rewrite length_app. cbn [length]. lia. }
        destruct (Nat.lt_ge_cases j (length pre)) as [Hin|Hout].
        - rewrite lookup_app_l in Hj3 by exact Hin.
          rewrite Htail in Hj3 by lia. discriminate.
        - assert (j = length pre) by lia. subst j.
          rewrite list_lookup_middle in Hj3 by reflexivity. discriminate. }
      unfold main_timeout_callback. cbn [s_timeout_counter hw].
      assert (Hms : TIMEOUT_MS = 900000) by reflexivity.
      rewrite wrap_u32_id by lia.
      destruct (Z.geb_spec (s_timeout_counter s1 + 1) TIMEOUT_MS); [lia|].
      split; [exact Hhw|]. split; [lia|]. split; [lia|].
      intros j Hj.
      destruct (Nat.lt_ge_cases j (length pre)) as [Hin|Hout].
      * rewrite lookup_app_l by exact Hin. apply Htail. lia.
      * assert (j = length pre) by lia. subst j.
        now rewrite list_lookup_middle.
    + (* active *)
      unfold main_timeout_callback. cbn [s_timeout_counter hw].
      change (0 >=? TIMEOUT_MS) with false. cbv iota.
      split; [exact Hhw|]. split; [lia|].
      split; [reflexivity|]. intros j Hj. lia.
Qed.


End MainFacts.

Section MainStart.

Import Gpio Main.

Variable shl_overflow : Z -> Z -> Z.
Variable RCC_AHBENR_GPIOAEN : Z.
Variable RCC_AHBENR_GPIOBEN : Z.
Variable RCC_AHBENR_GPIOCEN : Z.
Variable RCC_AHBENR_GPIODEN : Z.

(** X19.  The two statements that open [main] leave pin 1 of port A as
    an output (mode bits 01, push-pull, no pull resistor) whose last store
    drives it high: [gpio_cfg_output] first resets the pin through BSRRH,
    then [gpio_output_set] sets it through BSRRL.  No other pin of the
    port and no other port is changed. *)
Theorem main_hold_power_high (d : device) :
  let d' := main_hold_power shl_overflow RCC_AHBENR_GPIOAEN
                            RCC_AHBENR_GPIOBEN RCC_AHBENR_GPIOCEN
                            RCC_AHBENR_GPIODEN d in
  bits2 (MODER (ports d' GPIOA)) 1 = (false, true)
  /\ Z.testbit (OTYPER (ports d' GPIOA)) 1 = false
  /\ bits2 (PUPDR (ports d' GPIOA)) 1 = (false, false)
  /\ hold_power_stores d' = hold_power_stores d ++ [BSRRH 2; BSRRL 2]
  /\ other_pins 2 1 (MODER (ports d GPIOA)) (MODER (ports d' GPIOA))
  /\ (forall q, q <> GPIOA -> ports d' q = ports d q).
Proof.
  cbv zeta. unfold main_hold_power, gpio_output_set, hold_power_stores.
  change (valid (Some hold_power_io)) with (Some hold_power_io).
  unfold configure_output_level. cbn [port hold_power_io]. cbv zeta.
  rewrite update_port_eq.
  assert (Hp : port hold_power_io = Some GPIOA) by reflexivity.
  assert (Hpin : 0 <= pin hold_power_io <= 14) by (cbn; lia).
  destruct (gpio_cfg_output_regs shl_overflow RCC_AHBENR_GPIOAEN
              RCC_AHBENR_GPIOBEN RCC_AHBENR_GPIOCEN RCC_AHBENR_GPIODEN
              hold_power_io GPIOA d Hp Hpin) as [Hr Hq].
  cbv zeta in Hr. fold hold_power_io. rewrite Hr.
  cbn [MODER OTYPER OSPEEDR PUPDR IDR BSRR pin hold_power_io].
  unfold bits2, other_pins.
  split; [f_equal; register_bits|].
  split; [register_bits|].
  split; [f_equal; register_bits|].
  split; [now rewrite <- app_assoc|].
  split; [intros k Hk Hne; register_bits|].
  intros q Hq'. rewrite update_port_ne by exact Hq'. now apply Hq.
Qed.

End MainStart.

Section MainWitness.

Import Gpio Main.

Lemma main_timeout_after_touch_witness :
  Z.of_nat 2 < 4294967296
  /\ s_timeout_counter
       (run_timeout (fun _ _ => 0)
                    [TOUCH_STATE_ACTIVE; TOUCH_STATE_INACTIVE;
                     TOUCH_STATE_INACTIVE]
                    (mk_main 899999 (device_all 0)))
     = 2.
Proof.
  assert (H : Z.of_nat 2 < 4294967296) by (cbn; lia).
  split; [exact H|].
  exact (proj1 (main_timeout_after_touch (fun _ _ => 0) 2
                  (mk_main 899999 (device_all 0)) H)).
Defined.


End MainWitness.

(** ** fireflies.c: the patterns over time *)

Section PatternsMore.

Import Fireflies.

Lemma pattern_duration_nonneg (pts : list flash_point_type) :
  Forall point_ok pts -> 0 <= pattern_duration pts.
Proof.
  induction 1 as [|p rest [_ Hp] _ IH]; [reflexivity|].
  rewrite pattern_duration_cons. destruct (target p =? 0); lia.
Qed.

(** Past the end of the pattern the search loop finds no segment. *)
Lemma find_flash_point_past (pts : list flash_point_type) :
  Forall point_ok pts ->
  forall (prv : flash_point_type) (e t : Z),
    0 <= e -> e + row_total pts <= 1000000 ->
    e + pattern_duration pts <= t ->
    time (fst (fst (find_flash_point pts prv e t))) = 0.
Proof.
  induction 1 as [|p rest [Ht Hp] Hrest IH]; intros prv e t He Htot Hpast;
    [reflexivity|].
  cbn [find_flash_point]. rewrite row_total_cons in Htot.
  pose proof (row_total_nonneg rest Hrest) as Hnn.
  pose proof (pattern_duration_nonneg rest Hrest) as Hdn.
  rewrite pattern_duration_cons in Hpast.
  rewrite add32_id by lia.
  destruct (Z.eqb_spec (target p) 0) as [H0|H0].
  - destruct (Z.ltb_spec t (e + time p)); [lia | reflexivity].
  - destruct (Z.ltb_spec t (e + time p)); [lia|].
    apply IH; lia.
Qed.

(** X20.  The unsmoothed brightness of a pattern is 0 exactly outside the
    pattern: at time 0 and before, and from the end of the pattern on; at
    every time strictly inside it is at least 1. *)
Theorem calculate_brightness_unsmoothed_zero_iff (flash_type flash_time : Z) :
  0 <= flash_type < FLASH_COUNT ->
  calculate_brightness_unsmoothed flash_type flash_time = 0
  <-> flash_time <= 0 \/ calculate_flash_length flash_type <= flash_time.
Proof.
  intros Hid. split.
  - intros H0.
    destruct (Z.le_gt_cases flash_time 0) as [|Hpos]; [now left|].
    destruct (Z.le_gt_cases (calculate_flash_length flash_type) flash_time)
      as [|Hin]; [now right|].
    pose proof (unsmoothed_inside flash_type flash_time Hid ltac:(lia)). lia.
  - intros [Hle|Hge].
    + destruct (Z.eq_dec flash_time 0) as [->|Hne].
      * apply flash_pattern_cases in Hid.
        repeat (destruct Hid as [->|Hid]); try rewrite Hid; reflexivity.
      * unfold calculate_brightness_unsmoothed.
        destruct (Z.ltb_spec flash_time 0); [reflexivity | lia].
    + destruct (flash_pattern_row_ok flash_type Hid) as (Hok & Htot & HL & _).
      destruct (pattern_last_segment flash_type Hid)
        as (_ & _ & _ & _ & _ & _ & Hdur & _).
      unfold calculate_brightness_unsmoothed.
      destruct (Z.ltb_spec flash_time 0); [reflexivity|].
      pose proof (find_flash_point_past (flash_pattern_row flash_type) Hok
                    flash_point_clear 0 flash_time ltac:(lia) ltac:(lia)
                    ltac:(lia)) as Hcur.
      destruct (find_flash_point (flash_pattern_row flash_type)
                                 flash_point_clear 0 flash_time)
        as [[cur prv] e'].
      cbn [fst] in Hcur. rewrite Hcur. reflexivity.
Qed.

Lemma calculate_brightness_unsmoothed_zero_iff_witness :
  0 <= FLASH_PHOTINUS_AMPLUS < FLASH_COUNT
  /\ calculate_brightness_unsmoothed FLASH_PHOTINUS_AMPLUS 500 = 0.
Proof.
  assert (H : 0 <= FLASH_PHOTINUS_AMPLUS < FLASH_COUNT)
    by (vm_compute; split; [discriminate | reflexivity]).
  split; [exact H|].
  apply (proj2 (calculate_brightness_unsmoothed_zero_iff
                  FLASH_PHOTINUS_AMPLUS 500 H)).
  right. vm_compute. discriminate.
Defined.

End PatternsMore.

(** ** fireflies.c: the invariants of the engine *)

Section EngineMore.

Import Fireflies FirefliesProps.

Lemma half_smoothing (s : Z) :
  FIREFLY_SMOOTHING_MIN <= s <= FIREFLY_SMOOTHING_MAX ->
  25 <= Z.shiftr s 1 <= 250 /\ s - 250 <= Z.shiftr s 1
  /\ Z.quot s 2 = Z.shiftr s 1.
Proof.
  unfold FIREFLY_SMOOTHING_MIN, FIREFLY_SMOOTHING_MAX. intros Hs.
  rewrite Z.shiftr_div_pow2 by lia. change (2 ^ 1) with 2.
  rewrite Z.quot_div_nonneg by lia.
  pose proof (Z.div_le_lower_bound s 2 25).
  pose proof (Z.div_le_lower_bound s 2 (s - 250)).
  pose proof (Z.div_le_upper_bound s 2 250). lia.
Qed.

Lemma flash_length_bounds (id : Z) :
  0 <= id < FLASH_COUNT -> 250 < calculate_flash_length id <= 1000.
Proof.
  intros Hid. destruct (flash_pattern_row_ok id Hid) as (_ & _ & HL & _).
  destruct (pattern_last_segment id Hid) as (l & tl & _ & H1 & H2 & H3 & _).
  lia.
Qed.

(** Once the window has left the pattern, the smoothed brightness is 0. *)
Lemma smoothed_past_end (id s t : Z) :
  0 <= id < FLASH_COUNT ->
  FIREFLY_SMOOTHING_MIN <= s <= FIREFLY_SMOOTHING_MAX ->
  calculate_flash_length id + Z.shiftr s 1 < t <= 1000000 ->
  calculate_brightness_smoothed id t (wrap_s16 s) = 0.
Proof.
  intros Hid Hs Ht. destruct (half_smoothing s Hs) as (Hh & _ & _).
  pose proof (flash_length_bounds id Hid) as HL.
  unfold FIREFLY_SMOOTHING_MIN, FIREFLY_SMOOTHING_MAX in Hs.
  rewrite wrap_s16_id by lia.
  unfold calculate_brightness_smoothed.
  destruct (smoothing_window s ltac:(lia)) as [_ Hw]. rewrite Hw.
  set (half := Z.shiftr s 1) in *.
  set (L := calculate_flash_length id) in *.
  rewrite (sub32_id t half) by lia.
  rewrite add32_id by lia.
  replace (t - half >? L) with true
    by (symmetry; rewrite Z.gtb_ltb; apply Z.ltb_lt; lia).
  now rewrite orb_true_r.
Qed.

(** With the window inside the pattern, the smoothed brightness is at
    least 1. *)
Lemma smoothed_inside (id s t : Z) :
  0 <= id < FLASH_COUNT ->
  FIREFLY_SMOOTHING_MIN <= s <= FIREFLY_SMOOTHING_MAX ->
  Z.shiftr s 1 < t ->
  t + Z.shiftr s 1 + 1 < calculate_flash_length id ->
  1 <= calculate_brightness_smoothed id t (wrap_s16 s).
Proof.
  intros Hid Hs Hlo Hhi. destruct (half_smoothing s Hs) as (Hh & _ & _).
  pose proof (flash_length_bounds id Hid) as HL.
  unfold FIREFLY_SMOOTHING_MIN, FIREFLY_SMOOTHING_MAX in Hs.
  rewrite wrap_s16_id by lia.
  unfold calculate_brightness_smoothed.
  destruct (smoothing_window s ltac:(lia)) as [_ Hw]. rewrite Hw.
  set (half := Z.shiftr s 1) in *.
  destruct (flash_pattern_row_ok id Hid) as (Hok & Htot & _ & _).
  destruct (pattern_last_segment id Hid)
    as (last & tail & _ & _ & _ & _ & Hdur & _).
  set (L := calculate_flash_length id) in *.
  rewrite (sub32_id t half) by lia.
  rewrite add32_id by lia.
  replace (t - half + (2 * half + 1) <? 0) with false
    by (symmetry; apply Z.ltb_ge; lia).
  replace (t - half >? L) with false
    by (symmetry; rewrite Z.gtb_ltb; apply Z.ltb_ge; lia).
  cbn [orb]. rewrite mul32_id by lia.
  set (S := t - half) in *. set (E := S + (2 * half + 1)) in *.
  pose proof (smooth_loop_bounds id Hid S E ltac:(lia) ltac:(lia)
                (flash_pattern_row id) Hok 0 0
                ltac:(lia) ltac:(lia) ltac:(lia) ltac:(lia)) as [_ Hup].
  pose proof (smooth_loop_covers id Hid S E (L - 1)
                (fun x Hx => unsmoothed_inside id x Hid Hx)
                ltac:(lia) ltac:(lia) ltac:(lia)
                (flash_pattern_row id) Hok 0 0
                ltac:(lia) ltac:(lia) ltac:(lia) ltac:(lia)
                ltac:(lia) ltac:(lia)) as Hlow.
  set (br := smooth_loop id S E (flash_pattern_row id) 0 0) in *.
  assert (Hq : 1 <= Z.quot br (2 * (2 * half + 1)) <= 1000).
  { rewrite Z.quot_div_nonneg by lia. split.
    - apply Z.div_le_lower_bound; lia.
    - apply Z.div_le_upper_bound; lia. }
  rewrite div32_id by lia. lia.
Qed.

(** One step of a flashing firefly keeps the invariant. *)
Lemma firefly_step_inv (f : firefly_type) :
  firefly_inv f -> flashing f = true ->
  firefly_inv (firefly_step f FIREFLY_TIMESTEP)
  /\ flash_time (firefly_step f FIREFLY_TIMESTEP)
     = flash_time f + FIREFLY_TIMESTEP.
Proof.
  intros ([Hid Hs] & Hdl & Hdt & Hb & Hfl & _) Hflash.
  destruct (Hfl Hflash) as [Hlo Hhi].
  destruct (half_smoothing _ Hs) as (Hh & Hh' & _).
  pose proof (flash_length_bounds _ Hid) as HL.
  change (FIREFLY_SMOOTHING_MAX / 2) with 250 in *.
  change FIREFLY_TIMESTEP with 8 in *.
  assert (Hs' : 50 <= smoothing f <= 500) by exact Hs.
  pose proof (calculate_brightness_smoothed_bounds
                (flash_id f) Hid (flash_time f + 8)
                (wrap_s16 (smoothing f))
                ltac:(rewrite wrap_s16_id; lia)) as Hb'.
  unfold firefly_step, firefly_inv, firefly_ok.
  cbn [brightness flashing flash_id flash_time smoothing delay_len delay_time].
  change (FIREFLY_SMOOTHING_MAX / 2) with 250.
  change FIREFLY_TIMESTEP with 8.
  rewrite (add32_id (flash_time f) 8) by lia.
  set (b' := calculate_brightness_smoothed (flash_id f) (flash_time f + 8)
                                           (wrap_s16 (smoothing f))) in *.
  split; [|reflexivity].
  split; [split; assumption|]. split; [assumption|]. split; [assumption|].
  split; [assumption|]. rewrite Hflash. split.
  - intros Hstill. split; [lia|].
    destruct (Z.le_gt_cases (flash_time f + 8)
                (calculate_flash_length (flash_id f)
                 + Z.shiftr (smoothing f) 1)) as [|Hpast]; [assumption|].
    exfalso. unfold b' in Hstill.
    rewrite (smoothed_past_end (flash_id f) (smoothing f) (flash_time f + 8)
               Hid Hs ltac:(lia)) in Hstill.
    replace (smoothing f <? flash_time f + 8) with true in Hstill
      by (symmetry; apply Z.ltb_lt; lia).
    discriminate.
  - destruct (Z.eqb_spec b' 0) as [H0|H0]; [intros _; exact H0|].
    cbn [andb]. discriminate.
Qed.

Variable rand_value : nat -> Z.
Hypothesis rand_value_nonneg : forall n, 0 <= rand_value n.

(** One pass of the loop body keeps the invariant. *)
Lemma firefly_callback_body_inv (i : nat) (w : world) :
  (i < Z.to_nat NUMBER_OF_FIREFLIES)%nat ->
  world_inv w ->
  exists w', firefly_callback_body rand_value i w = Next w' /\ world_inv w'.
Proof.
  intros Hi (Hlen & Hall & Htlen & Htab & Hdark).
  assert (Hi8 : (i < 8)%nat) by exact Hi.
  assert (Hlen8 : length (s_fireflies w) = 8%nat) by exact Hlen.
  assert (Htlen8 : length (Leds.s_led_brightness (led_driver w)) = 8%nat)
    by exact Htlen.
  unfold firefly_callback_body.
  destruct (s_fireflies w !! i) as [f|] eqn:Hf;
    [|apply lookup_ge_None in Hf; lia].
  pose proof (Forall_lookup_1 _ _ _ _ Hall Hf) as Hinv.
  destruct (flashing f) eqn:Hflash.
  - (* flashing *)
    destruct (firefly_step_inv f Hinv Hflash) as [Hinv' _].
    eexists. split; [reflexivity|].
    set (g := firefly_step f FIREFLY_TIMESTEP) in *.
    pose proof Hinv' as (Hok' & Hdl' & Hdt' & Hb' & Hfl' & Hw').
    assert (Hv : 0 <= Z.quot (brightness g * 150) 1000 <= 150).
    { rewrite Z.quot_div_nonneg by lia. split.
      - apply Z.div_le_lower_bound; lia.
      - apply Z.div_le_upper_bound; lia. }
    assert (Hval : wrap_s32 (wrap_u32 (div32 (mul32 (brightness g) 150) 1000))
                   = Z.quot (brightness g * 150) 1000).
    { rewrite mul32_id by lia. rewrite div32_id by lia.
      rewrite wrap_u32_id by lia. apply wrap_s32_id. lia. }
    assert (Hdrv : Leds.s_led_brightness
                     (Leds.led_set_brightness
                        (Z.of_nat i)
                        (wrap_u32 (div32 (mul32 (brightness g) 150) 1000))
                        (led_driver w))
                   = <[i := Z.quot (brightness g * 150) 1000]>
                       (Leds.s_led_brightness (led_driver w))).
    { unfold Leds.led_set_brightness.
      replace (Z.of_nat i <? Leds.LED_COUNT) with true
        by (symmetry; apply Z.ltb_lt;
            change (Z.to_nat NUMBER_OF_FIREFLIES) with 8%nat in Hi;
            change Leds.LED_COUNT with 8; lia).
      cbn [Leds.s_led_brightness]. rewrite Nat2Z.id, Hval. reflexivity. }
    unfold world_inv. cbn [s_fireflies led_driver]. rewrite Hdrv.
    rewrite !length_insert.
    split; [assumption|].
    split; [apply Forall_insert; assumption|].
    split; [assumption|].
    split; [apply Forall_insert; assumption|].
    intros j fj Hj Hjw.
    destruct (Nat.eq_dec j i) as [->|Hne].
    + rewrite list_lookup_insert_eq in Hj by lia.
      injection Hj as <-. rewrite (Hw' Hjw).
      rewrite list_lookup_insert_eq by lia. reflexivity.
    + rewrite list_lookup_insert_ne in Hj by lia.
      rewrite list_lookup_insert_ne by lia. now apply (Hdark j fj).
  - destruct Hinv as ([Hid Hs] & Hdl & Hdt & Hb & Hfl & Hw0).
    change FIREFLY_TIMESTEP with 8 in *.
    assert (Hdl' : 1000 <= delay_len f <= 12000) by exact Hdl.
    destruct (Z.leb_spec (delay_len f) (delay_time f)) as [Hdue|Hwait].
    + (* a new flash starts *)
      eexists. split; [reflexivity|].
      pose proof (rand_range_bounds (rand_value (rand_calls w))
                    FLASH_FIRST FLASH_LAST (rand_value_nonneg _)
                    ltac:(vm_compute; split; discriminate)
                    ltac:(vm_compute; discriminate)) as Hr1.
      pose proof (rand_range_bounds (rand_value (rand_calls w + 1))
                    FIREFLY_SMOOTHING_MIN FIREFLY_SMOOTHING_MAX
                    (rand_value_nonneg _)
                    ltac:(vm_compute; split; discriminate)
                    ltac:(vm_compute; discriminate)) as Hr2.
      pose proof (rand_range_bounds (rand_value (rand_calls w + 2))
                    FIREFLY_DELAY_MIN FIREFLY_DELAY_MAX
                    (rand_value_nonneg _)
                    ltac:(vm_compute; split; discriminate)
                    ltac:(vm_compute; discriminate)) as Hr3.
      set (id' := rand_range (rand_value (rand_calls w)) FLASH_FIRST FLASH_LAST)
        in *.
      set (s' := rand_range (rand_value (rand_calls w + 1))
                            FIREFLY_SMOOTHING_MIN FIREFLY_SMOOTHING_MAX) in *.
      set (d' := rand_range (rand_value (rand_calls w + 2))
                            FIREFLY_DELAY_MIN FIREFLY_DELAY_MAX) in *.
      destruct (half_smoothing s' Hr2) as (Hh & _ & Hq).
      assert (Hid' : 0 <= wrap_u8 id' < FLASH_COUNT).
      { unfold FLASH_FIRST, FLASH_LAST, FLASH_PHOTINUS_PALLENS,
          FLASH_PHOTINUS_LEUCOPYGE, FLASH_COUNT in *.
        unfold wrap_u8. rewrite Z.mod_small by lia. lia. }
      pose proof (flash_length_bounds _ Hid') as HL.
      assert (Hft : neg32 (div32 s' 2) = - Z.shiftr s' 1).
      { rewrite div32_id by (rewrite Hq; lia). rewrite Hq.
        unfold neg32. apply wrap_s32_id. lia. }
      unfold world_inv. cbn [s_fireflies led_driver].
      rewrite !length_insert.
      split; [assumption|]. split.
      { apply Forall_insert; [assumption|].
        unfold firefly_inv, firefly_ok.
        cbn [brightness flashing flash_id flash_time smoothing delay_len
             delay_time].
        rewrite Hft. change (FIREFLY_SMOOTHING_MAX / 2) with 250.
        change FIREFLY_TIMESTEP with 8.
        assert (1000 <= d' <= 12000) by exact Hr3.
        repeat split; try assumption; try lia; try discriminate;
          try apply Hr2; try apply Hr3. }
      split; [assumption|]. split; [assumption|].
      intros j fj Hj Hjw.
      destruct (Nat.eq_dec j i) as [->|Hne].
      * rewrite list_lookup_insert_eq in Hj by lia.
        injection Hj as <-. discriminate Hjw.
      * rewrite list_lookup_insert_ne in Hj by lia. now apply (Hdark j fj).
    + (* the delay goes on *)
      eexists. split; [reflexivity|].
      unfold world_inv. cbn [s_fireflies led_driver].
      rewrite !length_insert.
      split; [assumption|]. split.
      { apply Forall_insert; [assumption|].
        unfold firefly_inv, firefly_ok.
        cbn [brightness flashing flash_id flash_time smoothing delay_len
             delay_time].
        rewrite add32_id by lia. change FIREFLY_TIMESTEP with 8.
        repeat split; try assumption; try lia; try discriminate;
          try apply Hs; try apply Hdl; try apply Hb;
          try (intros _; apply Hw0; exact Hflash). }
      split; [assumption|]. split; [assumption|].
      intros j fj Hj Hjw.
      destruct (Nat.eq_dec j i) as [->|Hne].
      * rewrite list_lookup_insert_eq in Hj by lia.
        now apply (Hdark i f).
      * rewrite list_lookup_insert_ne in Hj by lia. now apply (Hdark j fj).
Qed.

Lemma firefly_callback_loop_inv (n : nat) :
  forall (lo : nat) (w : world),
    (lo + n <= Z.to_nat NUMBER_OF_FIREFLIES)%nat ->
    world_inv w ->
    world_inv (for_range lo n (firefly_callback_body rand_value) w).
Proof.
  induction n as [|n IH]; intros lo w Hn Hw; [exact Hw|].
  cbn [for_range].
  destruct (firefly_callback_body_inv lo w ltac:(lia) Hw) as (w' & -> & Hw').
  apply IH; [lia | exact Hw'].
Qed.

Lemma firefly_init_inv (d : Leds.leds) :
  Leds.s_led_brightness d = replicate (Z.to_nat Leds.LED_COUNT) 0 ->
  world_inv (firefly_init rand_value d).
Proof.
  intros Hd. unfold world_inv, firefly_init. cbn [s_fireflies led_driver].
  rewrite Hd, length_map, length_seq, length_replicate.
  split; [reflexivity|]. split.
  { apply List.Forall_forall. intros f Hin. apply in_map_iff in Hin.
    destruct Hin as (k & <- & _).
    pose proof (rand_range_bounds (rand_value k)
                  FIREFLY_DELAY_MIN FIREFLY_DELAY_MAX (rand_value_nonneg _)
                  ltac:(vm_compute; split; discriminate)
                  ltac:(vm_compute; discriminate)) as Hr.
    assert (1000 <= rand_range (rand_value k) FIREFLY_DELAY_MIN
                               FIREFLY_DELAY_MAX <= 12000) by exact Hr.
    unfold firefly_inv, firefly_ok.
    cbn [brightness flashing flash_id flash_time smoothing delay_len
         delay_time].
    change FIREFLY_TIMESTEP with 8.
    repeat split; try apply Hr; try lia; try discriminate;
      try (vm_compute; congruence). }
  split; [reflexivity|]. split.
  { apply Forall_replicate. lia. }
  intros i f Hf _.
  apply lookup_replicate_2.
  apply lookup_lt_Some in Hf. rewrite length_map, length_seq in Hf.
  exact Hf.
Qed.

Lemma led_set_brightness_other (i j : nat) (v : Z) (d : Leds.leds) :
  j <> i ->
  Leds.s_led_brightness (Leds.led_set_brightness (Z.of_nat i) v d) !! j
  = Leds.s_led_brightness d !! j.
Proof.
  intros Hne. unfold Leds.led_set_brightness.
  destruct (Z.of_nat i <? Leds.LED_COUNT); [|reflexivity].
  cbn [Leds.s_led_brightness]. rewrite Nat2Z.id.
  apply list_lookup_insert_ne. lia.
Qed.

(** What one pass of the body leaves alone. *)
Lemma firefly_callback_body_frame (i j : nat) (w w' : world) :
  firefly_callback_body rand_value i w = Next w'
  \/ firefly_callback_body rand_value i w = Break w' ->
  j <> i ->
  s_fireflies w' !! j = s_fireflies w !! j
  /\ Leds.s_led_brightness (led_driver w') !! j
     = Leds.s_led_brightness (led_driver w) !! j.
Proof.
  unfold firefly_callback_body. intros Hb Hne.
  destruct (s_fireflies w !! i) as [f|];
    [|destruct Hb as [Hb|Hb]; [discriminate|]; injection Hb as <-;
      split; reflexivity].
  destruct (flashing f); [|destruct (delay_len f <=? delay_time f)];
    (destruct Hb as [Hb|Hb]; [|discriminate]); injection Hb as <-;
    cbn [s_fireflies led_driver];
    (split; [apply list_lookup_insert_ne; lia|]);
    try reflexivity.
  now apply led_set_brightness_other.
Qed.

Lemma firefly_callback_loop_frame (n : nat) :
  forall (lo : nat) (w : world) (j : nat),
    (j < lo)%nat ->
    s_fireflies (for_range lo n (firefly_callback_body rand_value) w) !! j
    = s_fireflies w !! j
    /\ Leds.s_led_brightness
         (led_driver (for_range lo n (firefly_callback_body rand_value) w))
         !! j
       = Leds.s_led_brightness (led_driver w) !! j.
Proof.
  induction n as [|n IH]; intros lo w j Hj; [split; reflexivity|].
  cbn [for_range].
  destruct (firefly_callback_body rand_value lo w) as [w'|w'] eqn:Hb.
  - destruct (IH (S lo) w' j ltac:(lia)) as [-> ->].
    apply (firefly_callback_body_frame lo j w w'); [now left | lia].
  - apply (firefly_callback_body_frame lo j w w'); [now right | lia].
Qed.

(** The pass of the loop for firefly [i]: the world [w1] it starts from
    satisfies the invariant and has firefly [i] and its LED as before the
    loop, and what it leaves of them in [w2] is what the loop leaves. *)
Lemma firefly_callback_loop_at (n : nat) :
  forall (lo : nat) (w : world) (i : nat),
    (lo <= i < lo + n)%nat ->
    (lo + n <= Z.to_nat NUMBER_OF_FIREFLIES)%nat ->
    world_inv w ->
    exists w1 w2,
      world_inv w1
      /\ s_fireflies w1 !! i = s_fireflies w !! i
      /\ Leds.s_led_brightness (led_driver w1) !! i
         = Leds.s_led_brightness (led_driver w) !! i
      /\ firefly_callback_body rand_value i w1 = Next w2
      /\ s_fireflies (for_range lo n (firefly_callback_body rand_value) w) !! i
         = s_fireflies w2 !! i
      /\ Leds.s_led_brightness
           (led_driver (for_range lo n (firefly_callback_body rand_value) w))
           !! i
         = Leds.s_led_brightness (led_driver w2) !! i.
Proof.
  induction n as [|n IH]; intros lo w i Hi Hn Hw; [lia|].
  cbn [for_range].
  destruct (firefly_callback_body_inv lo w ltac:(lia) Hw) as (w' & Hb & Hw').
  rewrite Hb.
  destruct (Nat.eq_dec lo i) as [->|Hne].
  - exists w, w'. split; [exact Hw|]. split; [reflexivity|].
    split; [reflexivity|]. split; [exact Hb|].
    apply firefly_callback_loop_frame. lia.
  - destruct (IH (S lo) w' i ltac:(lia) ltac:(lia) Hw')
      as (w1 & w2 & H1 & H2 & H3 & H4 & H5 & H6).
    destruct (firefly_callback_body_frame lo i w w' ltac:(now left)
                ltac:(lia)) as [Hf Ht].
    exists w1, w2.
    split; [exact H1|]. split; [now rewrite H2|]. split; [now rewrite H3|].
    split; [exact H4|]. split; [exact H5 | exact H6].
Qed.

Lemma led_value_scaled (b : Z) :
  0 <= b <= 1000 ->
  wrap_s32 (wrap_u32 (div32 (mul32 b 150) 1000)) = b * 150 / 1000
  /\ 0 <= b * 150 / 1000 <= 150.
Proof.
  intros Hb.
  assert (Hv : 0 <= b * 150 / 1000 <= 150).
  { split.
    - apply Z.div_le_lower_bound; lia.
    - apply Z.div_le_upper_bound; lia. }
  split; [|exact Hv].
  rewrite mul32_id by lia.
  rewrite div32_id by (rewrite Z.quot_div_nonneg by lia; lia).
  rewrite Z.quot_div_nonneg by lia.
  rewrite wrap_u32_id by lia. apply wrap_s32_id. lia.
Qed.

(** X21.  The engine keeps its state in range, with a [rand()] that
    returns no negative value: after [firefly_init] on a dark LED table,
    and after every [firefly_periodic_callback], there are eight
    fireflies, each with a pattern of the table, a smoothing in [50, 500],
    a delay in [1000, 12000], a brightness in [0, 1000] and, while
    flashing, a flash time between -250 and the end of the pattern plus
    half the smoothing; every LED table entry is in [0, 150], and the LED
    of every waiting firefly is dark. *)
Theorem engine_invariant (w : world) (d : Leds.leds) :
  (world_inv w -> world_inv (firefly_periodic_callback rand_value w))
  /\ (Leds.s_led_brightness d = replicate (Z.to_nat Leds.LED_COUNT) 0 ->
      world_inv (firefly_init rand_value d)).
Proof.
  split.
  - intros Hw. unfold firefly_periodic_callback.
    apply firefly_callback_loop_inv; [lia | exact Hw].
  - apply firefly_init_inv.
Qed.

(** The pass for firefly [i] in a callback. *)
Lemma firefly_callback_at (w : world) (i : nat) (f : firefly_type) :
  world_inv w -> s_fireflies w !! i = Some f ->
  exists w1 w2,
    world_inv w1
    /\ s_fireflies w1 !! i = Some f
    /\ Leds.s_led_brightness (led_driver w1) !! i
       = Leds.s_led_brightness (led_driver w) !! i
    /\ firefly_callback_body rand_value i w1 = Next w2
    /\ s_fireflies (firefly_periodic_callback rand_value w) !! i
       = s_fireflies w2 !! i
    /\ Leds.s_led_brightness
         (led_driver (firefly_periodic_callback rand_value w)) !! i
       = Leds.s_led_brightness (led_driver w2) !! i.
Proof.
  intros Hw Hf. pose proof Hw as (Hlen & _).
  pose proof (lookup_lt_Some _ _ _ Hf) as Hi. rewrite Hlen in Hi.
  destruct (firefly_callback_loop_at (Z.to_nat NUMBER_OF_FIREFLIES) 0 w i
              ltac:(lia) ltac:(lia) Hw)
    as (w1 & w2 & H1 & H2 & H3 & H4 & H5 & H6).
  exists w1, w2. rewrite Hf in H2.
  split; [exact H1|]. split; [exact H2|]. split; [exact H3|].
  split; [exact H4|]. split; [exact H5 | exact H6].
Qed.

(** A waiting firefly whose delay is not over. *)
Lemma firefly_callback_counts (w : world) (i : nat) (f : firefly_type) :
  world_inv w -> s_fireflies w !! i = Some f -> flashing f = false ->
  delay_time f < delay_len f ->
  s_fireflies (firefly_periodic_callback rand_value w) !! i
  = Some (waited f FIREFLY_TIMESTEP)
  /\ Leds.s_led_brightness
       (led_driver (firefly_periodic_callback rand_value w)) !! i
     = Some 0.
Proof.
  intros Hw Hf Hflash Hwait.
  destruct (firefly_callback_at w i f Hw Hf)
    as (w1 & w2 & H1 & H2 & H3 & H4 & H5 & H6).
  pose proof Hw as (_ & Hall & _ & _ & Hdark).
  pose proof (Forall_lookup_1 _ _ _ _ Hall Hf) as (_ & Hdl & Hdt & _).
  assert (Hdl' : 1000 <= delay_len f <= 12000) by exact Hdl.
  pose proof H1 as (Hlen1 & _).
  pose proof (lookup_lt_Some _ _ _ H2) as Hi.
  unfold firefly_callback_body in H4. rewrite H2, Hflash in H4.
  destruct (Z.leb_spec (delay_len f) (delay_time f)); [lia|].
  injection H4 as <-. cbn [s_fireflies led_driver] in H5, H6.
  rewrite H5, H6, H3, list_lookup_insert_eq by exact Hi.
  split; [|now apply (Hdark i f)].
  unfold waited. rewrite add32_id by (change FIREFLY_TIMESTEP with 8; lia).
  now rewrite Hflash.
Qed.

(** X22.  A callback steps a flashing firefly by 8 ms and writes its new
    brightness, scaled by 150 / 1000, to its LED table entry; the value is
    in [0, 150].  The flash always ends: once the new flash time is past
    the end of the pattern by more than half the smoothing, the firefly
    is waiting again with brightness 0. *)
Theorem firefly_flashing_callback (w : world) (i : nat) (f : firefly_type) :
  world_inv w -> s_fireflies w !! i = Some f -> flashing f = true ->
  let g := firefly_step f FIREFLY_TIMESTEP in
  let w' := firefly_periodic_callback rand_value w in
  s_fireflies w' !! i = Some g
  /\ flash_time g = flash_time f + FIREFLY_TIMESTEP
  /\ Leds.s_led_brightness (led_driver w') !! i
     = Some (brightness g * 150 / 1000)
  /\ 0 <= brightness g * 150 / 1000 <= 150
  /\ (calculate_flash_length (flash_id f) + Z.shiftr (smoothing f) 1
      < flash_time f + FIREFLY_TIMESTEP ->
      flashing g = false /\ brightness g = 0).
Proof.
  intros Hw Hf Hflash g w'.
  destruct (firefly_callback_at w i f Hw Hf)
    as (w1 & w2 & H1 & H2 & H3 & H4 & H5 & H6).
  pose proof Hw as (_ & Hall & _).
  pose proof (Forall_lookup_1 _ _ _ _ Hall Hf) as Hinv.
  destruct (firefly_step_inv f Hinv Hflash) as [Hinv' Htime].
  fold g in Hinv', Htime.
  pose proof Hinv' as (_ & _ & _ & Hb & Hfl & Hdark).
  destruct (led_value_scaled (brightness g) Hb) as [Hval Hrange].
  pose proof H1 as (Hlen1 & _ & Htlen1 & _).
  pose proof (lookup_lt_Some _ _ _ H2) as Hi.
  assert (Hi8 : (i < 8)%nat) by (rewrite Hlen1 in Hi; exact Hi).
  assert (Htlen8 : length (Leds.s_led_brightness (led_driver w1)) = 8%nat)
    by exact Htlen1.
  unfold firefly_callback_body in H4. rewrite H2, Hflash in H4.
  injection H4 as <-. cbn [s_fireflies led_driver] in H5, H6.
  fold g in H5, H6. unfold w'.
  split; [rewrite H5; now apply list_lookup_insert_eq|].
  split; [exact Htime|]. split.
  { rewrite H6. unfold Leds.led_set_brightness.
    replace (Z.of_nat i <? Leds.LED_COUNT) with true
      by (symmetry; apply Z.ltb_lt; change Leds.LED_COUNT with 8; lia).
    cbn [Leds.s_led_brightness].
    change (calculate_brightness_smoothed
              (flash_id f) (add32 (flash_time f) FIREFLY_TIMESTEP)
              (wrap_s16 (smoothing f))) with (brightness g).
    rewrite Nat2Z.id, Hval.
    apply list_lookup_insert_eq. lia. }
  split; [exact Hrange|].
  intros Hpast.
  assert (Hoff : flashing g = false).
  { destruct (flashing g) eqn:Hg; [|reflexivity].
    destruct (Hfl eq_refl) as [_ Hup]. rewrite Htime in Hup.
    change (flash_id g) with (flash_id f) in Hup.
    change (smoothing g) with (smoothing f) in Hup. lia. }
  split; [exact Hoff | exact (Hdark Hoff)].
Qed.

(** X23.  A callback leaves the LED of a waiting firefly dark.  While the
    delay is not over it adds 8 ms to the delay time and changes nothing
    else of the firefly; once it is over the firefly starts a flash, with
    a flash time of minus half its new smoothing, a delay time of 0 and
    brightness 0, and it satisfies the invariant of the engine. *)
Theorem firefly_waiting_callback (w : world) (i : nat) (f : firefly_type) :
  world_inv w -> s_fireflies w !! i = Some f -> flashing f = false ->
  let w' := firefly_periodic_callback rand_value w in
  Leds.s_led_brightness (led_driver w') !! i = Some 0
  /\ (delay_time f < delay_len f ->
      s_fireflies w' !! i = Some (waited f FIREFLY_TIMESTEP))
  /\ (delay_len f <= delay_time f ->
      exists g, s_fireflies w' !! i = Some g
                /\ flashing g = true
                /\ flash_time g = - Z.shiftr (smoothing g) 1
                /\ delay_time g = 0 /\ brightness g = 0
                /\ firefly_inv g).
Proof.
  intros Hw Hf Hflash w'.
  destruct (firefly_callback_at w i f Hw Hf)
    as (w1 & w2 & H1 & H2 & H3 & H4 & H5 & H6).
  pose proof Hw as (_ & Hall & _ & _ & Hdark).
  pose proof (Forall_lookup_1 _ _ _ _ Hall Hf) as (_ & _ & _ & _ & _ & Hb0).
  pose proof (Hdark i f Hf Hflash) as Hled.
  pose proof (lookup_lt_Some _ _ _ H2) as Hi.
  destruct (firefly_callback_body_inv i w1) as (w2' & Hb' & Hw2);
    [destruct H1 as [Hlen1 _]; rewrite <- Hlen1; exact Hi | exact H1 |].
  assert (w2' = w2) by congruence. subst w2'.
  unfold w'. split.
  - rewrite H6, <- Hled, <- H3.
    unfold firefly_callback_body in H4. rewrite H2, Hflash in H4.
    destruct (delay_len f <=? delay_time f); injection H4 as <-; reflexivity.
  - split.
    + intros Hwait.
      apply (firefly_callback_counts w i f Hw Hf Hflash Hwait).
    + intros Hdue.
      pose proof Hw2 as (_ & Hall2 & _).
      unfold firefly_callback_body in H4. rewrite H2, Hflash in H4.
      destruct (Z.leb_spec (delay_len f) (delay_time f)); [|lia].
      injection H4 as <-. cbn [s_fireflies] in H5, Hall2.
      eexists. split; [rewrite H5; now apply list_lookup_insert_eq|].
      assert (Hg : firefly_inv
                     (mk_firefly (brightness f) true
                        (wrap_u8 (rand_range (rand_value (rand_calls w1))
                                             FLASH_FIRST FLASH_LAST))
                        (neg32 (div32 (rand_range
                                         (rand_value (rand_calls w1 + 1))
                                         FIREFLY_SMOOTHING_MIN
                                         FIREFLY_SMOOTHING_MAX) 2))
                        (rand_range (rand_value (rand_calls w1 + 1))
                                    FIREFLY_SMOOTHING_MIN
                                    FIREFLY_SMOOTHING_MAX)
                        (rand_range (rand_value (rand_calls w1 + 2))
                                    FIREFLY_DELAY_MIN FIREFLY_DELAY_MAX)
                        0)).
      { apply (Forall_lookup_1 _ _ i _ Hall2).
        now apply list_lookup_insert_eq. }
      cbn [flashing flash_time smoothing delay_time brightness].
      split; [reflexivity|]. split.
      { pose proof Hg as ([_ Hs] & _). cbn [smoothing] in Hs.
        destruct (half_smoothing _ Hs) as (Hh & _ & Hq).
        rewrite div32_id by (rewrite Hq; lia). rewrite Hq.
        unfold neg32. apply wrap_s32_id. lia. }
      split; [reflexivity|]. split; [now apply Hb0 | exact Hg].
Qed.

(** X24.  A waiting firefly waits out its delay: as long as the delay
    time before a callback is below the delay length, each of [k]
    callbacks in a row adds 8 ms to it and changes nothing else of the
    firefly, its LED stays dark, and the invariant of the engine holds
    after them. *)
Theorem firefly_waits_delay (k : nat) :
  forall (w : world) (i : nat) (f : firefly_type),
    world_inv w -> s_fireflies w !! i = Some f -> flashing f = false ->
    delay_time f + FIREFLY_TIMESTEP * (Z.of_nat k - 1) < delay_len f ->
    s_fireflies (firefly_callbacks rand_value k w) !! i
    = Some (waited f (FIREFLY_TIMESTEP * Z.of_nat k))
    /\ Leds.s_led_brightness
         (led_driver (firefly_callbacks rand_value k w)) !! i
       = Some 0
    /\ world_inv (firefly_callbacks rand_value k w).
Proof.
  induction k as [|k IH]; intros w i f Hw Hf Hflash Hk.
  - cbn [firefly_callbacks]. pose proof Hw as (_ & _ & _ & _ & Hdark).
    split; [|split; [now apply (Hdark i f) | exact Hw]].
    rewrite Hf. f_equal. destruct f. unfold waited. cbn.
    f_equal. lia.
  - cbn [firefly_callbacks]. change FIREFLY_TIMESTEP with 8 in *.
    destruct (firefly_callback_counts w i f Hw Hf Hflash ltac:(lia))
      as [Hf1 _].
    assert (Hw1 : world_inv (firefly_periodic_callback rand_value w)).
    { unfold firefly_periodic_callback.
      apply firefly_callback_loop_inv; [lia | exact Hw]. }
    change FIREFLY_TIMESTEP with 8 in Hf1.
    destruct (IH (firefly_periodic_callback rand_value w) i (waited f 8)
                 Hw1 Hf1 Hflash) as (H1 & H2 & H3).
    { cbn [waited delay_time delay_len]. lia. }
    split; [|split; assumption].
    rewrite H1. f_equal. unfold waited. cbn. f_equal. lia.
Qed.

(** X25.  A flash is not cut short: while the window of the new flash
    time lies inside the pattern, the firefly is still flashing after the
    callback, and once the flash time is above half the smoothing its
    brightness is at least 1. *)
Theorem firefly_flash_continues (w : world) (i : nat) (f : firefly_type) :
  world_inv w -> s_fireflies w !! i = Some f -> flashing f = true ->
  flash_time f + FIREFLY_TIMESTEP + Z.shiftr (smoothing f) 1 + 1
  < calculate_flash_length (flash_id f) ->
  exists g,
    s_fireflies (firefly_periodic_callback rand_value w) !! i = Some g
    /\ flashing g = true
    /\ flash_time g = flash_time f + FIREFLY_TIMESTEP
    /\ (Z.shiftr (smoothing f) 1 < flash_time g -> 1 <= brightness g).
Proof.
  intros Hw Hf Hflash Hin.
  destruct (firefly_callback_at w i f Hw Hf)
    as (w1 & w2 & H1 & H2 & H3 & H4 & H5 & H6).
  pose proof Hw as (_ & Hall & _).
  pose proof (Forall_lookup_1 _ _ _ _ Hall Hf) as Hinv.
  destruct (firefly_step_inv f Hinv Hflash) as [_ Htime].
  pose proof Hinv as ([Hid Hs] & _ & _ & _ & Hfl & _).
  destruct (Hfl Hflash) as [Hlo _].
  change (FIREFLY_SMOOTHING_MAX / 2) with 250 in Hlo.
  pose proof (lookup_lt_Some _ _ _ H2) as Hi.
  unfold firefly_callback_body in H4. rewrite H2, Hflash in H4.
  injection H4 as <-. cbn [s_fireflies] in H5.
  exists (firefly_step f FIREFLY_TIMESTEP).
  split; [rewrite H5; now apply list_lookup_insert_eq|].
  change FIREFLY_TIMESTEP with 8 in *.
  destruct (half_smoothing _ Hs) as (Hhalf & _ & _).
  pose proof (flash_length_bounds _ Hid) as HL.
  assert (Hb : Z.shiftr (smoothing f) 1 < flash_time f + 8 ->
               1 <= brightness (firefly_step f 8)).
  { intros Hpos. unfold firefly_step. cbn [brightness].
    rewrite (add32_id (flash_time f) 8) by lia.
    apply smoothed_inside; try assumption; lia. }
  split; [|split; [exact Htime | rewrite Htime; exact Hb]].
  destruct (flashing (firefly_step f 8)) eqn:Hg; [reflexivity|].
  exfalso.
  destruct (proj1 (firefly_step_flag f 8 Hflash) Hg) as [Hb0 Hst].
  rewrite Htime in Hst. cbn [smoothing firefly_step] in Hst.
  assert (Hh : Z.shiftr (smoothing f) 1 <= smoothing f).
  { unfold FIREFLY_SMOOTHING_MIN in Hs.
    rewrite Z.shiftr_div_pow2 by lia. change (2 ^ 1) with 2.
    apply Z.div_le_upper_bound; lia. }
  specialize (Hb ltac:(lia)). lia.
Qed.

(** X26.  [rand_range( min, max )] gives a value between [min] and [max]
    for every value of [rand()], namely [min] plus the remainder of the
    value by the size of the range; every value of the range is given by
    some value of [rand()]. *)
Theorem rand_range_in_range (r lo hi : Z) :
  0 <= r -> 0 <= lo <= hi -> hi < INT32_MAX ->
  lo <= rand_range r lo hi <= hi
  /\ rand_range r lo hi = lo + r mod (hi - lo + 1)
  /\ (forall k, lo <= k <= hi -> rand_range (k - lo) lo hi = k).
Proof.
  unfold INT32_MAX. intros Hr Hlo Hhi.
  assert (Heq : forall x, 0 <= x ->
                  rand_range x lo hi = lo + x mod (hi - lo + 1)).
  { intros x Hx. unfold rand_range.
    rewrite sub32_id by lia. rewrite (add32_id (hi - lo) 1) by lia.
    rewrite Z.rem_mod_nonneg by lia.
    pose proof (Z.mod_pos_bound x (hi - lo + 1) ltac:(lia)).
    rewrite add32_id by lia. lia. }
  pose proof (Z.mod_pos_bound r (hi - lo + 1) ltac:(lia)).
  split; [rewrite Heq by exact Hr; lia|].
  split; [now apply Heq|].
  intros k Hk. rewrite Heq by lia. rewrite Z.mod_small by lia. lia.
Qed.

End EngineMore.

Section EngineMoreWitness.

Import Fireflies FirefliesProps.

Lemma engine_invariant_witness :
  (forall n : nat, 0 <= (fun _ : nat => 7) n)
  /\ world_inv (firefly_periodic_callback
                  (fun _ => 7) (firefly_init (fun _ => 7) Leds.leds_reset)).
Proof.
  assert (H : forall n : nat, 0 <= (fun _ : nat => 7) n) by (intros n; lia).
  split; [exact H|].
  apply (proj1 (engine_invariant (fun _ => 7) H
                  (firefly_init (fun _ => 7) Leds.leds_reset)
                  Leds.leds_reset)).
  apply (proj2 (engine_invariant (fun _ => 7) H
                  (firefly_init (fun _ => 7) Leds.leds_reset)
                  Leds.leds_reset)).
  reflexivity.
Defined.

Lemma world_starting_inv : world_inv world_starting.
Proof.
  unfold world_inv, world_starting. cbn [s_fireflies led_driver].
  split; [reflexivity|]. split.
  { apply Forall_replicate. unfold firefly_inv, firefly_ok.
    vm_compute. repeat split; congruence. }
  split; [reflexivity|]. split.
  { apply Forall_replicate. lia. }
  intros i f Hf Hflash. apply lookup_replicate_1 in Hf as [-> _].
  discriminate Hflash.
Qed.

Lemma firefly_flashing_callback_witness :
  (forall n : nat, 0 <= (fun _ : nat => 7) n)
  /\ world_inv world_starting
  /\ s_fireflies world_starting !! 3%nat = Some firefly_starting
  /\ flashing firefly_starting = true
  /\ Leds.s_led_brightness
       (led_driver (firefly_periodic_callback (fun _ => 7) world_starting))
       !! 3%nat
     = Some (brightness (firefly_step firefly_starting FIREFLY_TIMESTEP)
             * 150 / 1000).
Proof.
  assert (H : forall n : nat, 0 <= (fun _ : nat => 7) n) by (intros n; lia).
  assert (H1 : s_fireflies world_starting !! 3%nat = Some firefly_starting)
    by reflexivity.
  assert (H2 : flashing firefly_starting = true) by reflexivity.
  split; [exact H|]. split; [exact world_starting_inv|].
  split; [exact H1|]. split; [exact H2|].
  exact (proj1 (proj2 (proj2 (firefly_flashing_callback
                                (fun _ => 7) H world_starting 3
                                firefly_starting world_starting_inv H1 H2)))).
Defined.

Lemma firefly_waiting_callback_witness :
  (forall n : nat, 0 <= (fun _ : nat => 7) n)
  /\ world_inv (firefly_init (fun _ => 7) Leds.leds_reset)
  /\ s_fireflies (firefly_init (fun _ => 7) Leds.leds_reset) !! 3%nat
     = Some (mk_firefly 0 false 0 0 50 1007 0)
  /\ flashing (mk_firefly 0 false 0 0 50 1007 0) = false
  /\ Leds.s_led_brightness
       (led_driver (firefly_periodic_callback
                      (fun _ => 7)
                      (firefly_init (fun _ => 7) Leds.leds_reset)))
       !! 3%nat
     = Some 0.
Proof.
  assert (H : forall n : nat, 0 <= (fun _ : nat => 7) n) by (intros n; lia).
  assert (Hw : world_inv (firefly_init (fun _ => 7) Leds.leds_reset))
    by (apply (firefly_init_inv (fun _ => 7) H); reflexivity).
  assert (H1 : s_fireflies (firefly_init (fun _ => 7) Leds.leds_reset)
                 !! 3%nat
               = Some (mk_firefly 0 false 0 0 50 1007 0)) by reflexivity.
  assert (H2 : flashing (mk_firefly 0 false 0 0 50 1007 0) = false)
    by reflexivity.
  split; [exact H|]. split; [exact Hw|]. split; [exact H1|].
  split; [exact H2|].
  exact (proj1 (firefly_waiting_callback
                  (fun _ => 7) H (firefly_init (fun _ => 7) Leds.leds_reset)
                  3 (mk_firefly 0 false 0 0 50 1007 0) Hw H1 H2)).
Defined.

Lemma firefly_waits_delay_witness :
  (forall n : nat, 0 <= (fun _ : nat => 7) n)
  /\ world_inv (firefly_init (fun _ => 7) Leds.leds_reset)
  /\ s_fireflies (firefly_init (fun _ => 7) Leds.leds_reset) !! 0%nat
     = Some (mk_firefly 0 false 0 0 50 1007 0)
  /\ flashing (mk_firefly 0 false 0 0 50 1007 0) = false
  /\ delay_time (mk_firefly 0 false 0 0 50 1007 0)
     + FIREFLY_TIMESTEP * (Z.of_nat 3 - 1)
     < delay_len (mk_firefly 0 false 0 0 50 1007 0)
  /\ s_fireflies (firefly_callbacks
                    (fun _ => 7) 3
                    (firefly_init (fun _ => 7) Leds.leds_reset)) !! 0%nat
     = Some (waited (mk_firefly 0 false 0 0 50 1007 0)
                    (FIREFLY_TIMESTEP * Z.of_nat 3)).
Proof.
  assert (H : forall n : nat, 0 <= (fun _ : nat => 7) n) by (intros n; lia).
  assert (Hw : world_inv (firefly_init (fun _ => 7) Leds.leds_reset))
    by (apply (firefly_init_inv (fun _ => 7) H); reflexivity).
  assert (H1 : s_fireflies (firefly_init (fun _ => 7) Leds.leds_reset)
                 !! 0%nat
               = Some (mk_firefly 0 false 0 0 50 1007 0)) by reflexivity.
  assert (H2 : flashing (mk_firefly 0 false 0 0 50 1007 0) = false)
    by reflexivity.
  assert (H3 : delay_time (mk_firefly 0 false 0 0 50 1007 0)
               + FIREFLY_TIMESTEP * (Z.of_nat 3 - 1)
               < delay_len (mk_firefly 0 false 0 0 50 1007 0))
    by reflexivity.
  split; [exact H|]. split; [exact Hw|]. split; [exact H1|].
  split; [exact H2|]. split; [exact H3|].
  exact (proj1 (firefly_waits_delay
                  (fun _ => 7) H 3
                  (firefly_init (fun _ => 7) Leds.leds_reset)
                  0 (mk_firefly 0 false 0 0 50 1007 0) Hw H1 H2 H3)).
Defined.

Lemma firefly_flash_continues_witness :
  (forall n : nat, 0 <= (fun _ : nat => 7) n)
  /\ world_inv world_starting
  /\ s_fireflies world_starting !! 3%nat = Some firefly_starting
  /\ flashing firefly_starting = true
  /\ flash_time firefly_starting + FIREFLY_TIMESTEP
     + Z.shiftr (smoothing firefly_starting) 1 + 1
     < calculate_flash_length (flash_id firefly_starting)
  /\ exists g,
       s_fireflies (firefly_periodic_callback (fun _ => 7) world_starting)
         !! 3%nat = Some g
       /\ flashing g = true
       /\ flash_time g = flash_time firefly_starting + FIREFLY_TIMESTEP
       /\ (Z.shiftr (smoothing firefly_starting) 1 < flash_time g ->
           1 <= brightness g).
Proof.
  assert (H : forall n : nat, 0 <= (fun _ : nat => 7) n) by (intros n; lia).
  assert (H1 : s_fireflies world_starting !! 3%nat = Some firefly_starting)
    by reflexivity.
  assert (H2 : flashing firefly_starting = true) by reflexivity.
  assert (H3 : flash_time firefly_starting + FIREFLY_TIMESTEP
               + Z.shiftr (smoothing firefly_starting) 1 + 1
               < calculate_flash_length (flash_id firefly_starting))
    by reflexivity.
  split; [exact H|]. split; [exact world_starting_inv|].
  split; [exact H1|]. split; [exact H2|]. split; [exact H3|].
  exact (firefly_flash_continues (fun _ => 7) H world_starting 3
           firefly_starting world_starting_inv H1 H2 H3).
Defined.

Lemma rand_range_in_range_witness :
  0 <= 123456 /\ 0 <= FIREFLY_DELAY_MIN <= FIREFLY_DELAY_MAX
  /\ FIREFLY_DELAY_MAX < INT32_MAX
  /\ FIREFLY_DELAY_MIN
     <= rand_range 123456 FIREFLY_DELAY_MIN FIREFLY_DELAY_MAX
     <= FIREFLY_DELAY_MAX.
Proof.
  assert (H1 : 0 <= 123456) by lia.
  assert (H2 : 0 <= FIREFLY_DELAY_MIN <= FIREFLY_DELAY_MAX)
    by (vm_compute; split; discriminate).
  assert (H3 : FIREFLY_DELAY_MAX < INT32_MAX) by reflexivity.
  split; [exact H1|]. split; [exact H2|]. split; [exact H3|].
  exact (proj1 (rand_range_in_range 123456 FIREFLY_DELAY_MIN
                  FIREFLY_DELAY_MAX H1 H2 H3)).
Defined.

End EngineMoreWitness.

(** ** leds.c: the pins after dac_init *)

Section LedsInitFacts.

Import Gpio LedsInit.

Variable shl_overflow : Z -> Z -> Z.
Variable RCC_AHBENR_GPIOAEN : Z.
Variable RCC_AHBENR_GPIOBEN : Z.
Variable RCC_AHBENR_GPIOCEN : Z.
Variable RCC_AHBENR_GPIODEN : Z.
Variable RCC_APB1ENR_DAC1EN : Z.
Variable DAC_CR_BOFF1 : Z.
Variable DAC_CR_EN1 : Z.

Local Abbreviation cfg_output :=
  (gpio_cfg_output shl_overflow RCC_AHBENR_GPIOAEN RCC_AHBENR_GPIOBEN
                   RCC_AHBENR_GPIOCEN RCC_AHBENR_GPIODEN).
Local Abbreviation init :=
  (dac_init shl_overflow RCC_AHBENR_GPIOAEN RCC_AHBENR_GPIOBEN
            RCC_AHBENR_GPIOCEN RCC_AHBENR_GPIODEN
            RCC_APB1ENR_DAC1EN DAC_CR_BOFF1 DAC_CR_EN1).


End LedsInitFacts.
